(** * Camtasia SWF to MP4: extraction and assembly pipeline

    A shallow embedding of [src/tools/extractor.ts],
    [src/tools/converter.ts], [src/utils/platform.ts] and the extract
    command of [src/cli.ts].

    Conventions of the embedding.
    - A JavaScript string whose code units are all below 256 is the [string]
      of these code units; strings with other code units are not values of
      the embedding.  Case folding and the classes [\d] and [\s] are those
      of JavaScript on these code units.
    - What ECMAScript leaves to the engine is a parameter: the collation of
      [String.prototype.localeCompare] and the order that
      [Array.prototype.sort] returns are fields of an [Engine], together
      with the laws that ECMAScript imposes on them.
    - Paths are POSIX paths in normal form, as [path.join] returns them.
    - The directory tree is a finite map from a path to what it leads to, a
      regular file or a directory with its listing in the order
      [fs.readdirSync] returns the entries.  Permissions are no part of the
      tree: a directory of the tree can be listed.
    - Child processes and timers are event sources: a run of a function that
      waits for them takes the sequence of events it is delivered.  What a
      call that may fail outside the tree does (creating a directory,
      writing a file) is an input of the run.
    - The numbers of the timeout computation are integers or decimal
      fractions; they are embedded as [Z] and [Q].  For files smaller than
      2^50 bytes every intermediate value of that computation is a dyadic
      rational with a numerator below 2^53, so the binary64 operations of
      the source are exact there and agree with the rational ones.
    - [parseInt] and [parseFloat] return the binary64 value nearest to the
      decimal they read, a tie to the even neighbour, as V8 computes it at
      every length of the numeral. *)

From Stdlib Require Import ZArith QArith Qround Qminmax Qabs Ascii String List.
From Stdlib Require Import DecimalString DecimalPos.
From Stdlib Require Import Permutation Sorted Lia Lqa Bool OrdersEx.
From stdpp Require Import base gmap strings list.

Open Scope string_scope.
Open Scope Z_scope.

(** ** Binary64 values *)

Module Binary64.

(** [floor (log2 (n / d))] for positive [n] and [d] *)
Definition log2_floor (n d : Z) : Z :=
  let k := Z.log2 n - Z.log2 d in
  if (if 0 <=? k then d * 2 ^ k <=? n else d <=? n * 2 ^ (- k)) then k else k - 1.

(** the integer nearest to [num / den], a half to the even neighbour *)
Definition round_half_even (num den : Z) : Z :=
  let quo := num / den in
  let rem := num mod den in
  if (den <? 2 * rem) || ((2 * rem =? den) && Z.odd quo) then quo + 1 else quo.

(** a binary64 value that is not negative and not NaN *)
Inductive value : Type :=
| Finite (q : Q)
| Infinity.

(** The binary64 value nearest to [n / d], for [n] not negative and [d]
    positive: a significand of 53 bits at the exponent of [n / d], or of
    fewer bits at the least exponent -1074; [Infinity] from
    2^1024 - 2^970 on. *)
Definition nearest (n d : Z) : value :=
  if n =? 0 then Finite 0
  else
    let e := log2_floor n d in
    let p := Z.max (e - 52) (-1074) in
    if 0 <=? p
    then
      let m := round_half_even n (d * 2 ^ p) in
      if 2 ^ 1024 <=? m * 2 ^ p then Infinity else Finite (inject_Z (m * 2 ^ p))
    else
      let m := round_half_even (n * 2 ^ (- p)) d in
      Finite (m # Z.to_pos (2 ^ (- p))).

Definition of_Q (q : Q) : value := nearest (Qnum q) (Zpos (Qden q)).

End Binary64.

(** ** JavaScript strings *)

Module JS.

(** [String.prototype.includes] *)
Fixpoint includes (s sub : string) : bool :=
  String.prefix sub s ||
  match s with
  | EmptyString => false
  | String _ s' => includes s' sub
  end.

(** the lower case of a code unit below 256: of A-Z, and of the letters
    from U+00C0 to U+00DE, the sign U+00D7 apart *)
Definition lower_char (c : ascii) : ascii :=
  let n := nat_of_ascii c in
  if (((65 <=? n) && (n <=? 90)) ||
      ((192 <=? n) && (n <=? 222) && negb (n =? 215)))%nat
  then ascii_of_nat (n + 32) else c.

(** [String.prototype.toLowerCase] *)
Fixpoint toLowerCase (s : string) : string :=
  match s with
  | EmptyString => EmptyString
  | String c s' => String (lower_char c) (toLowerCase s')
  end.

(** [String.prototype.endsWith] *)
Definition endsWith (s suffix : string) : bool :=
  let n := String.length s in
  let m := String.length suffix in
  (m <=? n)%nat && String.eqb (substring (n - m) m s) suffix.

(** the class [\d] *)
Definition is_digit (c : ascii) : bool :=
  let n := nat_of_ascii c in ((48 <=? n) && (n <=? 57))%nat.

(** the class [\s] on code units below 256: U+0009 to U+000D, the space
    and the no-break space U+00A0 *)
Definition is_space (c : ascii) : bool :=
  let n := nat_of_ascii c in
  (((9 <=? n) && (n <=? 13)) || (n =? 32) || (n =? 160))%nat.

(** the longest prefix made of digits: [\d*] anchored at the start *)
Fixpoint take_digits (s : string) : string :=
  match s with
  | EmptyString => EmptyString
  | String c s' => if is_digit c then String c (take_digits s') else EmptyString
  end.

Fixpoint drop_digits (s : string) : string :=
  match s with
  | EmptyString => EmptyString
  | String c s' => if is_digit c then drop_digits s' else s
  end.

(** [s.match(/(\d+)/)]: the first run of digits, when there is one *)
Fixpoint match_digits (s : string) : option string :=
  match s with
  | EmptyString => None
  | String c s' => if is_digit c then Some (take_digits s) else match_digits s'
  end.

Definition digit_value (c : ascii) : Z := Z.of_nat (nat_of_ascii c) - 48.

(** the integer that a run of digits writes *)
Fixpoint parse_digits (acc : Z) (s : string) : Z :=
  match s with
  | EmptyString => acc
  | String c s' => parse_digits (10 * acc + digit_value c) s'
  end.

(** the value of [parseInt] on a run of digits: an integer that is a
    binary64 value, or [Infinity] *)
Inductive number : Type :=
| Int (z : Z)
| PlusInfinity.

(** [parseInt] on a run of digits *)
Definition parseInt (digits : string) : number :=
  match Binary64.nearest (parse_digits 0 digits) 1 with
  | Binary64.Finite q => Int (Qfloor q)
  | Binary64.Infinity => PlusInfinity
  end.

(** What [Array.prototype.sort] reads of the value that a comparator
    returns: its sign, or that it is NaN. *)
Inductive sign : Type :=
| Negative
| Zero
| Positive
| NotANumber.

Definition sign_of (z : Z) : sign :=
  match z with
  | Z0 => Zero
  | Zpos _ => Positive
  | Zneg _ => Negative
  end.

(** the sign of [x - y]: the binary64 difference of two integers has the
    sign of their difference, and [Infinity - Infinity] is NaN *)
Definition sign_of_difference (x y : number) : sign :=
  match x, y with
  | Int a, Int b => sign_of (a - b)
  | Int _, PlusInfinity => Negative
  | PlusInfinity, Int _ => Positive
  | PlusInfinity, PlusInfinity => NotANumber
  end.

(** A consistent comparator for the values of [l], as ECMAScript defines it
    for [Array.prototype.sort]: never NaN, and the five laws on [=], [<]
    and [>]. *)
Definition consistent_on {A : Type} (compareFn : A -> A -> sign) (l : list A) : Prop :=
  forall a b c, In a l -> In b l -> In c l ->
    compareFn a b <> NotANumber /\
    compareFn a a = Zero /\
    (compareFn a b = Zero -> compareFn b a = Zero) /\
    (compareFn a b = Zero -> compareFn b c = Zero -> compareFn a c = Zero) /\
    (compareFn a b = Negative -> compareFn b c = Negative -> compareFn a c = Negative) /\
    (compareFn a b = Positive -> compareFn b c = Positive -> compareFn a c = Positive).

(** [a] may stand before [b] in the sorted array: [b] is not less than [a] *)
Definition in_order {A : Type} (compareFn : A -> A -> sign) (a b : A) : Prop :=
  compareFn b a <> Negative.

(** What the embedding takes from the engine.  [localeCompare] is the
    collation of the default locale, which ECMAScript requires to be a
    consistent comparator on all strings.  [sort] is
    [Array.prototype.sort] on an array of strings: it returns the elements
    it is given, in sorted order when the comparator is consistent for
    them, and in an order of the engine's choice otherwise. *)
Record Engine : Type := {
  localeCompare : string -> string -> Z;
  sort : (string -> string -> sign) -> list string -> list string;
  localeCompare_consistent :
    forall l, consistent_on (fun a b => sign_of (localeCompare a b)) l;
  sort_permutation :
    forall compareFn l, Permutation (sort compareFn l) l;
  sort_sorted :
    forall compareFn l, consistent_on compareFn l ->
      StronglySorted (in_order compareFn) (sort compareFn l)
}.

End JS.

(** ** Paths *)

Module Path.

(** [path.join dir name] for a directory in normal form and the name of an
    entry *)
Definition join (dir name : string) : string :=
  if String.eqb dir "" || String.eqb dir "." then name
  else if String.eqb dir "/" then "/" ++ name
  else dir ++ "/" ++ name.

Fixpoint after_last_slash (acc s : string) : string :=
  match s with
  | EmptyString => acc
  | String c s' =>
      if Ascii.eqb c "/" then after_last_slash s' s' else after_last_slash acc s'
  end.

(** [path.basename] *)
Definition basename (p : string) : string := after_last_slash p p.

(** [path.dirname] of a path with a directory part *)
Definition dirname (p : string) : string :=
  let b := basename p in
  let n := (String.length p - String.length b)%nat in
  match n with
  | O => "."
  | S O => "/"
  | S k => substring 0 k p
  end.

(** position of the last dot of [s] that is not its first character *)
Fixpoint last_dot (i : nat) (found : option nat) (s : string) : option nat :=
  match s with
  | EmptyString => found
  | String c s' =>
      last_dot (S i)
        (if Ascii.eqb c "." && negb (i =? 0)%nat then Some i else found) s'
  end.

(** [path.extname] *)
Definition extname (p : string) : string :=
  let b := basename p in
  match last_dot 0 None b with
  | Some i => substring i (String.length b - i) b
  | None => EmptyString
  end.

End Path.

(** ** The directory tree *)

(** what a path leads to *)
Inductive inode : Type :=
| RegularFile
| Directory (entries : list string).

Abbreviation filesystem := (gmap string inode).

(** A [number]: the finite values as rationals, and NaN. *)
Inductive jsnumber : Type :=
| JsNum (q : Q)
| JsNaN.

(** The [Error] values the pipeline creates.  [TimeoutError m] is
    [new Error(`JPEXS extraction timed out after ${m} minutes`)]. *)
Inductive error : Type :=
| Error (message : string)
| TimeoutError (minutes : jsnumber).

Inductive outcome (A : Type) : Type :=
| Returned (a : A)
| Thrown (e : error).
Arguments Returned {A} a.
Arguments Thrown {A} e.

(** Computations that read the tree and may throw. *)
Definition FsM (A : Type) : Type := filesystem -> outcome A * filesystem.

#[global] Instance FsM_ret : MRet FsM := fun A a fs => (Returned a, fs).
#[global] Instance FsM_bind : MBind FsM := fun A B f m fs =>
  match m fs with
  | (Returned a, fs') => f a fs'
  | (Thrown e, fs') => (Thrown e, fs')
  end.

Module Fs.

(** [fs.existsSync] *)
Definition existsSync (p : string) : FsM bool :=
  fun fs => (Returned (bool_decide (is_Some (fs !! p))), fs).

(** [fs.readdirSync] *)
Definition readdirSync (p : string) : FsM (list string) :=
  fun fs =>
    match fs !! p with
    | Some (Directory entries) => (Returned entries, fs)
    | Some RegularFile =>
        (Thrown (Error ("ENOTDIR: not a directory, scandir '" ++ p ++ "'")), fs)
    | None =>
        (Thrown (Error ("ENOENT: no such file or directory, scandir '" ++ p ++ "'")), fs)
    end.

End Fs.

(** ** The content reconciler ([extractor.ts]) *)

Record ExtractedContent : Type := {
  framesDir : string;
  frameFiles : list string;
  audioFiles : list string;
  frameCount : nat
}.

(** [file.toLowerCase().endsWith('.png')], and [/\.png$/i.test(file)] *)
Definition isPng (file : string) : bool :=
  JS.endsWith (JS.toLowerCase file) ".png".

(** the filter of the audio listing *)
Definition isAudio (file : string) : bool :=
  let ext := JS.toLowerCase (Path.extname file) in
  String.eqb ext ".mp3" || String.eqb ext ".wav" || String.eqb ext ".flv".

(** The comparator given to [frameFiles.sort], by the sign of what it
    returns. *)
Definition compareFrames (E : JS.Engine) (a b : string) : JS.sign :=
  match JS.match_digits (Path.basename a), JS.match_digits (Path.basename b) with
  | Some aMatch, Some bMatch =>
      JS.sign_of_difference (JS.parseInt aMatch) (JS.parseInt bMatch)
  | _, _ => JS.sign_of (JS.localeCompare E a b)
  end.

(** the listing of [dir] restricted by [keep], empty when [dir] is absent *)
Definition listing (keep : string -> bool) (dir : string) : FsM (list string) :=
  present ← Fs.existsSync dir;
  if present : bool
  then entries ← Fs.readdirSync dir; mret (List.filter keep entries)
  else mret [].

Definition analyzeExtractedContent (E : JS.Engine) (outputDir : string)
  : FsM ExtractedContent :=
  let framesDir := Path.join outputDir "frames" in
  let soundsDir := Path.join outputDir "sounds" in
  framesInSubdir ← listing isPng framesDir;
  framesInRoot ← listing isPng outputDir;
  let '(frameFiles, actualFramesDir) :=
    if (length framesInRoot <? length framesInSubdir)%nat
    then (map (Path.join framesDir) framesInSubdir, framesDir)
    else (map (Path.join outputDir) framesInRoot, outputDir) in
  let frameFiles := JS.sort E (compareFrames E) frameFiles in
  audio ← listing isAudio soundsDir;
  let audioFiles := map (Path.join soundsDir) audio in
  mret {| framesDir := actualFramesDir;
          frameFiles := frameFiles;
          audioFiles := audioFiles;
          frameCount := length frameFiles |}.


(** ** Numbers *)

Module Num.

(** truthiness of a number: [0] and [NaN] are falsy *)
Definition truthy (n : jsnumber) : bool :=
  match n with
  | JsNum q => negb (Qeq_bool q 0)
  | JsNaN => false
  end.

(** [Math.round]: the nearest integer, halves upwards *)
Definition round (x : Q) : Z := Qfloor (x + (1 # 2)).

(** [x > y] on finite numbers *)
Definition gtb (x y : Q) : bool := negb (Qle_bool x y).

(** [n * k] *)
Definition mul (n : jsnumber) (k : Q) : jsnumber :=
  match n with
  | JsNum q => JsNum (q * k)
  | JsNaN => JsNaN
  end.

(** [Number.prototype.toString] on an integer *)
Definition toString (z : Z) : string := NilEmpty.string_of_int (Z.to_int z).

End Num.

(** ** The timeout of the decompiler ([extractSWF], lines 308-338) *)

(** the [else] branch: from the size of the source in MB *)
Definition calculatedTimeout (fileSizeMB : Q) : Q :=
  let calculatedTimeout := (10 + fileSizeMB)%Q in
  let calculatedTimeout :=
    if Num.gtb fileSizeMB 20
    then (calculatedTimeout + (fileSizeMB - 20) * (1 # 2))%Q
    else calculatedTimeout in
  let calculatedTimeout :=
    if Num.gtb fileSizeMB 50
    then (calculatedTimeout + (fileSizeMB - 50) * (1 # 2))%Q
    else calculatedTimeout in
  calculatedTimeout.

Definition autoTimeoutMinutes (fileSizeMB : Q) : Z :=
  Z.max 10 (Num.round (calculatedTimeout fileSizeMB)).

Definition fileSizeMB (size : Z) : Q := (inject_Z size / inject_Z (1024 * 1024))%Q.

(** [finalTimeoutMinutes]; [statSize] is [fs.statSync(swfFile).size], which
    throws when the file is absent and is only evaluated in the [else]
    branch. *)
Definition finalTimeoutMinutes
    (timeoutMinutes : option jsnumber) (statSize : outcome Z) : outcome jsnumber :=
  let auto :=
    match statSize with
    | Returned size => Returned (JsNum (inject_Z (autoTimeoutMinutes (fileSizeMB size))))
    | Thrown e => Thrown e
    end in
  match timeoutMinutes with
  | Some override => if Num.truthy override then Returned override else auto
  | None => auto
  end.

(** the delay given to [setTimeout] *)
Definition finalTimeoutMs (minutes : jsnumber) : jsnumber := Num.mul minutes 60000.

(** ** The decompiler child process ([extractSWFContent]) *)

Record ExtractorOptions : Type := {
  swfFile : string;
  outputDir : string;
  testFrames : option Z
}.

Definition buildExtractionParameters
    (jarPath : string) (options : ExtractorOptions) : list string :=
  let params := ["-jar"; jarPath] in
  let params :=
    match testFrames options with
    | Some n =>
        if n =? 0 then params
        else (params ++ ["-select"; ("1-" ++ Num.toString n)%string])%list
    | None => params
    end in
  let params := (params ++ ["-export"; "frame,sound"])%list in
  (params ++ [outputDir options; swfFile options])%list.

(** what the child process emits *)
Inductive child_event : Type :=
| Stdout (data : string)
| Stderr (data : string)
| Close
| ProcessError (message : string).

(** the members of [ExtractorCallbacks] *)
Inductive callback : Type :=
| OnStdout (data : string)
| OnError (err : string)
| OnClose.

(** the listeners that [extractSWFContent] attaches to the child *)
Definition dispatch (e : child_event) : callback :=
  match e with
  | Stdout data => OnStdout data
  | Stderr stderrData =>
      if JS.includes stderrData "Input SWF file does not exist" ||
         JS.includes stderrData "Bad Commandline Arguments"
      then OnError stderrData
      else OnStdout stderrData
  | Close => OnClose
  | ProcessError message =>
      if JS.includes message "ENOENT"
      then OnError "Java Development Kit not found. Please install it."
      else OnError ("Java process error: " ++ message)
  end.

(** The synchronous part of [extractSWFContent].  It reports a missing
    source through [onError] and returns [null]; it throws when one of the
    [fs.mkdirSync] calls of lines 141-155 throws, [mkdirFailure] being the
    message of that error; otherwise it spawns [java].  The directories of
    lines 158-168 are made under a [try] and do not reach the callbacks. *)
Inductive started : Type :=
| NotStarted (err : string)
| SetupThrew (e : error)
| Spawned (params : list string).

Definition extractSWFContent
    (jarPath : string) (options : ExtractorOptions) (swfExists : bool)
    (mkdirFailure : option string) : started :=
  if negb swfExists
  then NotStarted ("SWF file not found: " ++ swfFile options)
  else
    match mkdirFailure with
    | Some message => SetupThrew (Error message)
    | None => Spawned (buildExtractionParameters jarPath options)
    end.

(** ** Waiting for the decompiler ([extractSWF], lines 350-423) *)

Inductive promise_state : Type :=
| Pending
| Resolved
| Rejected (e : error).

Definition resolve (p : promise_state) : promise_state :=
  match p with
  | Pending => Resolved
  | _ => p
  end.

Definition reject (e : error) (p : promise_state) : promise_state :=
  match p with
  | Pending => Rejected e
  | _ => p
  end.

(** what the timer callback does to the child *)
Inductive child_effect : Type :=
| Kill (signal : string)
| ArmEscalation (delayMs : Z).

Record supervision : Type := {
  promise : promise_state;
  timerArmed : bool;
  jpexsSucceeded : bool;
  effects : list child_effect
}.

Definition supervision_start : supervision :=
  {| promise := Pending; timerArmed := true; jpexsSucceeded := false; effects := [] |}.

(** the callbacks that [extractSWF] passes to [extractSWFContent] *)
Definition onCallback (cb : callback) (s : supervision) : supervision :=
  match cb with
  | OnError _ =>
      {| promise := resolve (promise s); timerArmed := false;
         jpexsSucceeded := jpexsSucceeded s; effects := effects s |}
  | OnClose =>
      {| promise := resolve (promise s); timerArmed := false;
         jpexsSucceeded := true; effects := effects s |}
  | OnStdout _ => s
  end.

(** The body of the [setTimeout] callback of lines 355-371 when the child
    was spawned: SIGTERM, a second timer of five seconds, and the
    rejection. *)
Definition onTimeout (minutes : jsnumber) (s : supervision) : supervision :=
  if timerArmed s
  then {| promise := reject (TimeoutError minutes) (promise s); timerArmed := false;
          jpexsSucceeded := jpexsSucceeded s;
          effects := (effects s ++ [Kill "SIGTERM"; ArmEscalation 5000])%list |}
  else s.

(** The callback of the second timer, lines 364-368.  [killed] is
    [jpexsProcess.killed], which Node sets once a signal was delivered to
    the child. *)
Definition onEscalation (killed : bool) : list child_effect :=
  if negb killed then [Kill "SIGKILL"] else [].

(** what the event loop delivers while [extractSWF] is suspended *)
Inductive tick : Type :=
| Child (e : child_event)
| TimerFires.

Definition supervision_step (minutes : jsnumber) (s : supervision) (t : tick) : supervision :=
  match t with
  | Child e => onCallback (dispatch e) s
  | TimerFires => onTimeout minutes s
  end.

(** [timeline] is what is delivered up to the frames check of line 472.  A
    timer that nothing cleared fires once the child has no more to say.
    When [extractSWFContent] throws, the executor of the promise throws and
    the promise is rejected with that error. *)
Definition supervise (minutes : jsnumber) (st : started) (timeline : list tick) : supervision :=
  match st with
  | NotStarted err => onCallback (OnError err) supervision_start
  | SetupThrew e =>
      {| promise := Rejected e; timerArmed := true; jpexsSucceeded := false; effects := [] |}
  | Spawned _ => foldl (supervision_step minutes) supervision_start (timeline ++ [TimerFires])%list
  end.

(** ** The audio fallback ([extractAudioWithFFmpeg]) *)

(** the event with which a fluent-ffmpeg command settles; a command that
    never settles leaves its caller waiting and is no run of the embedding *)
Inductive ffmpeg_event : Type :=
| FfmpegEnd
| FfmpegError (message : string).

Record AudioCommand : Type := {
  audioInput : string;
  noVideo : bool;
  audioCopyCodec : string;
  audioOutput : string
}.

Record EncodeCommand : Type := {
  inputs : list string;
  inputOptions : list string;
  videoFilters : list string;
  videoCodec : string;
  outputOptions : list string;
  audioCodec : option string;
  output : string
}.

(** what a run does to the outside, in order *)
Inductive action : Type :=
| JavaSpawned (params : list string)
| JavaSignalled (signal : string)
| EscalationArmed (delayMs : Z)
| AudioFallbackCalled (swf dir : string)
| AudioCommandRun (cmd : AudioCommand)
| EncodeCommandRun (cmd : EncodeCommand)
| DirectoryRemoved (dir : string).

(** The surroundings of one extraction run.  [swfSize] is the size of the
    source, [None] when it does not exist; [mkdirFailure] and
    [soundsMkdirFailure] are the messages of the errors that
    [fs.mkdirSync] throws in [extractSWFContent] (lines 141-155) and in
    the audio fallback (line 234), when it is called there and throws;
    [disk] is the tree that the lines 432-465 read. *)
Record World : Type := {
  jarPath : string;
  swfSize : option Z;
  mkdirFailure : option string;
  timeline : list tick;
  ffmpegInitialized : bool;
  soundsMkdirFailure : option string;
  audioRun : ffmpeg_event;
  disk : filesystem
}.

Definition statSync (w : World) (p : string) : outcome Z :=
  match swfSize w with
  | Some size => Returned size
  | None => Thrown (Error ("ENOENT: no such file or directory, stat '" ++ p ++ "'"))
  end.

Definition extractAudioWithFFmpeg
    (swfFile outputDir : string) (w : World) : outcome unit * list action :=
  if negb (ffmpegInitialized w)
  then (Thrown (Error "FFmpeg not available for fallback audio extraction"), [])
  else
    match soundsMkdirFailure w with
    | Some message => (Thrown (Error message), [])
    | None =>
        let soundsDir := Path.join outputDir "sounds" in
        let outputAudioPath := Path.join soundsDir "0.mp3" in
        let command :=
          {| audioInput := swfFile; noVideo := true;
             audioCopyCodec := "copy"; audioOutput := outputAudioPath |} in
        let settled :=
          match audioRun w with
          | FfmpegEnd => Returned tt
          | FfmpegError message =>
              if JS.includes message "Output file is empty" ||
                 JS.includes message "does not contain any stream"
              then Returned tt
              else Thrown (Error ("FFmpeg audio extraction failed: " ++ message))
          end in
        (settled, [AudioCommandRun command])
    end.

(** ** [extractSWF] *)

(** [/\.(mp3|wav)$/i.test(f)] *)
Definition isMp3OrWav (f : string) : bool :=
  JS.endsWith (JS.toLowerCase f) ".mp3" || JS.endsWith (JS.toLowerCase f) ".wav".

(** [fs.existsSync(dir) && fs.readdirSync(dir).filter(f => /\.png$/i.test(f)).length > 0] *)
Definition hasPngIn (dir : string) : FsM bool :=
  present ← Fs.existsSync dir;
  if present : bool
  then entries ← Fs.readdirSync dir;
       mret (0 <? length (List.filter isPng entries))%nat
  else mret false.

Definition hasFrames (outputDir : string) : FsM bool :=
  let framesDir := Path.join outputDir "frames" in
  hasFramesInSubdir ← hasPngIn framesDir;
  hasFramesInRoot ← hasPngIn outputDir;
  mret (hasFramesInSubdir || hasFramesInRoot).

Definition spawn_log (st : started) : list action :=
  match st with
  | Spawned params => [JavaSpawned params]
  | _ => []
  end.

Definition effect_log (e : child_effect) : action :=
  match e with
  | Kill signal => JavaSignalled signal
  | ArmEscalation delayMs => EscalationArmed delayMs
  end.

(** The audio files that line 435 lists only feed the debug output; the
    listing itself may throw. *)
Definition extractSWF
    (swfFile outputDir : string) (testFrames : option Z)
    (timeoutMinutes : option jsnumber) (w : World) : outcome unit * list action :=
  match finalTimeoutMinutes timeoutMinutes (statSync w swfFile) with
  | Thrown e => (Thrown e, [])
  | Returned minutes =>
      let options :=
        {| swfFile := swfFile; outputDir := outputDir; testFrames := testFrames |} in
      let st :=
        extractSWFContent (jarPath w) options (bool_decide (is_Some (swfSize w)))
          (mkdirFailure w) in
      let s := supervise minutes st (timeline w) in
      let log := (spawn_log st ++ map effect_log (effects s))%list in
      match promise s with
      | Rejected e => (Thrown e, log)
      | _ =>
          match listing isMp3OrWav (Path.join outputDir "sounds") (disk w) with
          | (Thrown e, _) => (Thrown e, log)
          | (Returned _, _) =>
              let '(_, audioLog) := extractAudioWithFFmpeg swfFile outputDir w in
              let log := (log ++ AudioFallbackCalled swfFile outputDir :: audioLog)%list in
              match hasFrames outputDir (disk w) with
              | (Returned hasFrames, _) =>
                  if negb (jpexsSucceeded s) && negb hasFrames
                  then (Thrown (Error "JPEXS extraction failed completely and no frames were extracted"), log)
                  else (Returned tt, log)
              | (Thrown e, _) => (Thrown e, log)
              end
          end
      end
  end.

(** ** The frame-rate detector ([converter.ts], [detectSWFFrameRate]) *)

Module Probe.

Fixpoint drop_spaces (s : string) : string :=
  match s with
  | EmptyString => EmptyString
  | String c s' => if JS.is_space c then drop_spaces s' else s
  end.

(** [\s+marker] anchored at the start of [s] *)
Definition marker_follows (marker s : string) : bool :=
  match s with
  | EmptyString => false
  | String c _ => JS.is_space c && String.prefix marker (drop_spaces s)
  end.

(** [(\d+(?:\.\d+)?)\s+marker] anchored at the start of [s]; the result is
    the text of the group.  The fraction is tried first, then the match
    without it; a shorter run of digits is followed by a digit and cannot
    lead to a match. *)
Definition match_here (marker s : string) : option string :=
  let whole := JS.take_digits s in
  if String.eqb whole "" then None
  else
    let rest := JS.drop_digits s in
    let plain := if marker_follows marker rest then Some whole else None in
    match rest with
    | String "."%char r =>
        let frac := JS.take_digits r in
        if negb (String.eqb frac "") && marker_follows marker (JS.drop_digits r)
        then Some (whole ++ "." ++ frac)
        else plain
    | _ => plain
    end.

(** [s.match(/(\d+(?:\.\d+)?)\s+marker/)]: the leftmost match *)
Fixpoint exec (marker s : string) : option string :=
  match match_here marker s with
  | Some m => Some m
  | None =>
      match s with
      | EmptyString => None
      | String _ s' => exec marker s'
      end
  end.

(** the decimal that the text of the group writes *)
Definition decimal (text : string) : Q :=
  let whole := inject_Z (JS.parse_digits 0 (JS.take_digits text)) in
  match JS.drop_digits text with
  | String "."%char frac =>
      (whole + inject_Z (JS.parse_digits 0 frac) / inject_Z (10 ^ Z.of_nat (String.length frac)))%Q
  | _ => whole
  end.

(** [parseFloat] on the text of the group *)
Definition parseFloat (text : string) : Binary64.value :=
  Binary64.of_Q (decimal text).

(** [fps > 0 && fps <= 120], then [Math.round(fps)] *)
Definition accept (m : option string) : option Z :=
  match m with
  | Some text =>
      match parseFloat text with
      | Binary64.Finite fps =>
          if Num.gtb fps 0 && Qle_bool fps 120 then Some (Num.round fps) else None
      | Binary64.Infinity => None
      end
  | None => None
  end.

(** the value the [close] listener resolves with *)
Definition frameRateOf (stderrData : string) : Z :=
  match accept (exec "fps" stderrData) with
  | Some rate => rate
  | None =>
      match accept (exec "tbr" stderrData) with
      | Some rate => rate
      | None => 30
      end
  end.

Inductive probe_tick : Type :=
| Data (data : string)
| Closed
| Failed (message : string)
| TimerElapsed.

Record probe : Type := {
  stderrData : string;
  resolved : option Z;
  timerLive : bool;
  killed : bool
}.

Definition start : probe :=
  {| stderrData := ""; resolved := None; timerLive := true; killed := false |}.

(** [resolve(v)] settles the promise once *)
Definition resolveWith (v : Z) (r : option Z) : option Z :=
  match r with
  | None => Some v
  | Some _ => r
  end.

Definition step (p : probe) (t : probe_tick) : probe :=
  match t with
  | Data data =>
      {| stderrData := stderrData p ++ data; resolved := resolved p;
         timerLive := timerLive p; killed := killed p |}
  | Closed =>
      {| stderrData := stderrData p;
         resolved := resolveWith (frameRateOf (stderrData p)) (resolved p);
         timerLive := false; killed := killed p |}
  | Failed _ =>
      {| stderrData := stderrData p; resolved := resolveWith 30 (resolved p);
         timerLive := false; killed := killed p |}
  | TimerElapsed =>
      if timerLive p
      then {| stderrData := stderrData p; resolved := resolveWith 30 (resolved p);
              timerLive := false; killed := true |}
      else p
  end.

(** the 30 second timer elapses after the delivered events when nothing
    cleared it *)
Definition run (events : list probe_tick) : probe :=
  foldl step start (events ++ [TimerElapsed])%list.

End Probe.

Definition detectSWFFrameRate
    (ffmpegPath : option string) (events : list Probe.probe_tick) : Z :=
  match ffmpegPath with
  | None => 30
  | Some _ =>
      match Probe.resolved (Probe.run events) with
      | Some rate => rate
      | None => 30
      end
  end.
(** ** The assembly driver ([convertFramesToMP4]) *)

(** The three branches of [createFramePattern] build the same pattern. *)
Definition createFramePattern (frameFiles : list string) : option (string * nat) :=
  match frameFiles with
  | [] => None
  | firstFrame :: _ =>
      let frameDir := Path.dirname firstFrame in
      let ext := Path.extname firstFrame in
      Some (Path.join frameDir ("%d" ++ ext), length frameFiles)
  end.

(** [writeFailure] is the message of the error that the create and delete
    probe in the directory of the output throws, when it throws; [encodeRun]
    is the event that ends the encode. *)
Definition convertFramesToMP4
    (content : ExtractedContent) (outputPath : string) (framerate : Z)
    (writeFailure : option string) (encodeRun : ffmpeg_event)
  : outcome unit * list action :=
  if (length (frameFiles content) =? 0)%nat
  then (Thrown (Error "No frame files found for conversion"), [])
  else
    match createFramePattern (frameFiles content) with
    | None => (Thrown (Error "Could not create frame pattern for FFmpeg"), [])
    | Some (pattern, _) =>
        let outputDir := Path.dirname outputPath in
        match writeFailure with
        | Some message =>
            (Thrown (Error ("Cannot write to output directory: " ++ outputDir ++ ". " ++ message)), [])
        | None =>
            let command :=
              {| inputs := [pattern];
                 inputOptions := ["-framerate"; Num.toString framerate];
                 videoFilters := ["pad=ceil(iw/2)*2:ceil(ih/2)*2"];
                 videoCodec := "libx264";
                 outputOptions := ["-pix_fmt"; "yuv420p"; "-crf"; "23"];
                 audioCodec := None;
                 output := outputPath |} in
            let command :=
              match audioFiles content with
              | audioFile :: _ =>
                  {| inputs := (inputs command ++ [audioFile])%list;
                     inputOptions := inputOptions command;
                     videoFilters := videoFilters command;
                     videoCodec := videoCodec command;
                     outputOptions := outputOptions command;
                     audioCodec := Some "aac";
                     output := output command |}
              | [] => command
              end in
            (match encodeRun with
             | FfmpegEnd => Returned tt
             | FfmpegError message => Thrown (Error message)
             end, [EncodeCommandRun command])
        end
    end.

(** ** The pipeline coordinator ([convertSWF]) *)

Record ConversionOptions : Type := {
  framerate : Z;
  keepExtracted : bool
}.

Record ConversionWorld : Type := {
  ffmpegPath : option string;
  probeEvents : list Probe.probe_tick;
  extraction : World;
  writeFailure : option string;
  encodeRun : ffmpeg_event;
  tempDirRemains : bool
}.

(** [path.basename(p, ext)] *)
Definition basenameWithout (p ext : string) : string :=
  let b := Path.basename p in
  if JS.endsWith b ext && negb (String.eqb b ext)
  then substring 0 (String.length b - String.length ext) b
  else b.

(** line 109 *)
Definition actualFrameRate (options : ConversionOptions) (detectedFrameRate : Z) : Z :=
  if negb (framerate options =? 30) then framerate options else detectedFrameRate.

Definition convertSWF
    (E : JS.Engine) (swfFile outputMP4 : string) (options : ConversionOptions)
    (w : ConversionWorld)
  : outcome unit * list action :=
  let tempDir :=
    Path.join (Path.dirname outputMP4) (".temp-" ++ basenameWithout swfFile ".swf") in
  let detectedFrameRate := detectSWFFrameRate (ffmpegPath w) (probeEvents w) in
  let actualFrameRate := actualFrameRate options detectedFrameRate in
  let '(result, log) :=
    match extractSWF swfFile tempDir None None (extraction w) with
    | (Thrown e, log) => (Thrown e, log)
    | (Returned _, log) =>
        match analyzeExtractedContent E tempDir (disk (extraction w)) with
        | (Thrown e, _) => (Thrown e, log)
        | (Returned content, _) =>
            if (frameCount content =? 0)%nat
            then (Thrown (Error "No frames were extracted from the SWF file"), log)
            else
              let '(result, encodeLog) :=
                convertFramesToMP4 content outputMP4 actualFrameRate
                  (writeFailure w) (encodeRun w) in
              (result, (log ++ encodeLog)%list)
        end
    end in
  let cleanup :=
    if negb (keepExtracted options) && tempDirRemains w
    then [DirectoryRemoved tempDir]
    else [] in
  (result, (log ++ cleanup)%list).


(** ** The cleanup ([converter.ts], [removeDirectory]) *)

(** What a path leads to: a file, or a directory with its entries in the
    order of [fs.readdirSync]. *)
Set Warnings "-register-all".
Inductive node : Type :=
| FileNode
| DirNode (entries : list (string * node)).
Set Warnings "+register-all".

(** the calls that change the tree *)
Inductive fs_call : Type :=
| UnlinkSync (p : string)
| RmdirSync (p : string).

(** The calls of one turn of the loop of lines 308-319 for the entry at
    [filePath]: [fs.unlinkSync] for a file; for a directory the calls of the
    recursive [removeDirectory filePath], whose [fs.existsSync] holds. *)
Fixpoint removeEntry (filePath : string) (n : node) : list fs_call :=
  match n with
  | FileNode => [UnlinkSync filePath]
  | DirNode entries =>
      (flat_map (fun entry => removeEntry (Path.join filePath (fst entry)) (snd entry))
         entries
       ++ [RmdirSync filePath])%list
  end.

(** [removeDirectory dirPath] when [dirPath] leads to [target], [None] for a
    path that does not exist: the calls it makes.  On a file
    [fs.readdirSync] throws before any call. *)
Definition removeDirectory (dirPath : string) (target : option node)
  : outcome (list fs_call) :=
  match target with
  | None => Returned []
  | Some FileNode =>
      Thrown (Error ("ENOTDIR: not a directory, scandir '" ++ dirPath ++ "'"))
  | Some (DirNode entries) => Returned (removeEntry dirPath (DirNode entries))
  end.

(** ** The progress bar ([converter.ts], [convertFramesToMP4]) *)

Fixpoint copies (n : nat) (s : string) : string :=
  match n with
  | O => ""
  | S k => s ++ copies k s
  end.

(** [String.prototype.repeat]: a negative count is a [RangeError] *)
Definition repeat (s : string) (count : Z) : outcome string :=
  if count <? 0
  then Thrown (Error ("Invalid count value: " ++ Num.toString count))
  else Returned (copies (Z.to_nat count) s).

(** The handler of ['progress'], lines 218-224: the bar and the percentage
    that it writes, [None] when it writes nothing.  A [percent] that is
    [undefined] is falsy as [NaN] is. *)
Definition onProgress (progressPercent : jsnumber) : option (outcome (string * Z)) :=
  match progressPercent with
  | JsNaN => None
  | JsNum q =>
      if Num.truthy progressPercent
      then
        let percent := Num.round q in
        Some
          match repeat "█" (percent / 5) with
          | Thrown e => Thrown e
          | Returned full =>
              match repeat "░" (20 - percent / 5) with
              | Thrown e => Thrown e
              | Returned empty => Returned (full ++ empty, percent)
              end
          end
      else None
  end.

(** ** Locating the tools ([utils/platform.ts]) *)

Module Platform.

Inductive SupportedPlatform : Type :=
| win32
| linux
| darwin.

(** line 70 *)
Definition isSupportedPlatform (platform : string) : bool :=
  existsb (String.eqb platform) ["win32"; "linux"; "darwin"].

(** What the module reads of the host.  [pathJoin] and [pathDirname] are
    [path.join] and [path.dirname] of the host, which on [win32] are not the
    POSIX ones. *)
Record Host : Type := {
  platform : SupportedPlatform;
  ffmpegStatic : option string;
  existsSync : string -> bool;
  WSL_DISTRO_NAME : option string;
  javaRuns : bool;
  pathJoin : list string -> string;
  pathDirname : string -> string }.

(** truthiness of a string that may be [null] or [undefined] *)
Definition truthy (s : option string) : bool :=
  match s with
  | Some s => negb (String.eqb s "")
  | None => false
  end.

(** [s.slice(0, -k)] *)
Definition dropEnd (k : nat) (s : string) : string :=
  substring 0 (String.length s - k) s.

Definition binaryName (p : SupportedPlatform) : string :=
  match p with
  | win32 => "ffmpeg.exe"
  | linux | darwin => "ffmpeg"
  end.

(** lines 152-185 *)
Definition getAlternativeFFmpegPaths (h : Host) (p : SupportedPlatform) : list string :=
  match ffmpegStatic h with
  | Some static =>
      if String.eqb static "" then []
      else
        let baseDir := pathDirname h static in
        [ pathJoin h [baseDir; binaryName p];
          pathJoin h [baseDir; "bin"; binaryName p];
          pathJoin h [baseDir; ".."; "ffmpeg-static"; binaryName p] ]
  | None => []
  end.

(** lines 96-113: the expected path of the binary *)
Definition expectedPath (p : SupportedPlatform) (static : string) : string :=
  match p with
  | win32 => if JS.endsWith static ".exe" then static else static ++ ".exe"
  | linux | darwin => if JS.endsWith static ".exe" then dropEnd 4 static else static
  end.

(** lines 87-147 *)
Definition getFFmpegPath (h : Host) : option string :=
  if negb (truthy (ffmpegStatic h)) then None
  else
    let ffmpegPath := expectedPath (platform h) (default "" (ffmpegStatic h)) in
    if negb (existsSync h ffmpegPath)
    then
      match List.find (existsSync h) (getAlternativeFFmpegPaths h (platform h)) with
      | Some altPath => Some altPath
      | None =>
          match platform h with
          | linux =>
              if truthy (WSL_DISTRO_NAME h) && existsSync h (ffmpegPath ++ ".exe")
              then Some (ffmpegPath ++ ".exe")
              else None
          | _ => None
          end
      end
    else Some ffmpegPath.

(** [p.replace(/ffmpeg(\.exe)?$/, 'ffprobe')]: a path has at most one of
    the two endings *)
Definition replaceBinaryName (p : string) : string :=
  if JS.endsWith p "ffmpeg.exe" then dropEnd 10 p ++ "ffprobe"
  else if JS.endsWith p "ffmpeg" then dropEnd 6 p ++ "ffprobe"
  else p.

(** lines 190-220 *)
Definition getFFprobePath (h : Host) (ffmpegPath : string) : option string :=
  let ffprobePath := replaceBinaryName ffmpegPath in
  let ffprobePath :=
    match platform h with
    | win32 => if negb (JS.endsWith ffprobePath ".exe") then ffprobePath ++ ".exe" else ffprobePath
    | _ => ffprobePath
    end in
  if existsSync h ffprobePath then Some ffprobePath
  else
    match platform h with
    | linux =>
        if truthy (WSL_DISTRO_NAME h) && existsSync h (ffprobePath ++ ".exe")
        then Some (ffprobePath ++ ".exe")
        else None
    | _ => None
    end.

Record PlatformStatus : Type := {
  statusPlatform : SupportedPlatform;
  ffmpeg : option string;
  ffprobe : option string;
  java : bool;
  isFullySupported : bool }.

(** lines 238-261 *)
Definition validatePlatformSupport (h : Host) : PlatformStatus :=
  let ffmpegPath := getFFmpegPath h in
  let ffprobePath :=
    if truthy ffmpegPath then getFFprobePath h (default "" ffmpegPath) else None in
  let javaAvailable := javaRuns h in
  {| statusPlatform := platform h;
     ffmpeg := ffmpegPath;
     ffprobe := ffprobePath;
     java := javaAvailable;
     isFullySupported := truthy ffmpegPath && javaAvailable |}.

End Platform.

(** [initializeFFmpeg] of [extractor.ts], lines 38-49 *)
Definition extractor_initializeFFmpeg (h : Platform.Host) : bool :=
  Platform.truthy (Platform.ffmpeg (Platform.validatePlatformSupport h)).

(** [initializeFFmpeg] of [converter.ts], lines 38-60 *)
Definition converter_initializeFFmpeg (h : Platform.Host) : bool :=
  Platform.isFullySupported (Platform.validatePlatformSupport h).

(** ** The extract command ([cli.ts]) *)

(** The messages of [errors] are kept as the errors they are read from. *)
Record BatchResults : Type := {
  successful : nat;
  failed : nat;
  errors : list (string * error) }.

(** lines 147-149 *)
Definition extractOutputDir (output : option string) (swfFile : string) : string :=
  if Platform.truthy output
  then Path.join (default "" output) (basenameWithout swfFile ".swf")
  else Path.join (Path.dirname swfFile) (basenameWithout swfFile ".swf" ++ "-output").

(** One turn of the loop of lines 140-163, on a file and the world that its
    extraction meets. *)
Definition extractTurn (output : option string) (results : BatchResults)
    (job : string * World) : BatchResults :=
  let swfFile := fst job in
  let outputDir := extractOutputDir output swfFile in
  match fst (extractSWF swfFile outputDir None None (snd job)) with
  | Returned _ =>
      {| successful := S (successful results);
         failed := failed results;
         errors := errors results |}
  | Thrown e =>
      {| successful := successful results;
         failed := S (failed results);
         errors := (errors results ++ [(Path.basename swfFile, e)])%list |}
  end.

(** The action of the command after the help, lines 113-185: the code of
    [process.exit] if it is called, and the results of the batch.  [found]
    is the outcome of [findSWFFiles], each file with the world that its
    extraction meets. *)
Definition extractCommand (h : Platform.Host) (found : outcome (list (string * World)))
    (output : option string) : option Z * BatchResults :=
  let results := {| successful := 0; failed := 0; errors := [] |} in
  if negb (Platform.java (Platform.validatePlatformSupport h)) then (Some 1, results)
  else
    match found with
    | Thrown _ => (Some 1, results)
    | Returned swfFiles =>
        if (length swfFiles =? 0)%nat then (Some 1, results)
        else
          let results := foldl (extractTurn output) results swfFiles in
          if (0 <? failed results)%nat && (successful results =? 0)%nat
          then (Some 1, results)
          else (None, results)
    end.


(** ** Vocabulary of the statements *)

(** the entries of a directory, as listed; none for a regular file and for
    a path that does not exist *)
Definition entries_of (fs : filesystem) (dir : string) : list string :=
  match fs !! dir with
  | Some (Directory entries) => entries
  | _ => []
  end.

(** the recognized frame files of a directory, as listed *)
Definition recognized (fs : filesystem) (dir : string) : list string :=
  List.filter isPng (entries_of fs dir).

(** the audio files of a directory, as listed *)
Definition audible (fs : filesystem) (dir : string) : list string :=
  List.filter isAudio (entries_of fs dir).

Definition is_file (fs : filesystem) (p : string) : bool :=
  match fs !! p with
  | Some RegularFile => true
  | _ => false
  end.

(** the error of [fs.readdirSync] on a regular file *)
Definition notADirectory (p : string) : error :=
  Error ("ENOTDIR: not a directory, scandir '" ++ p ++ "'").

(** the first of the given paths that is a regular file *)
Definition first_file (fs : filesystem) (paths : list string) : option string :=
  List.find (is_file fs) paths.

(** the paths that [extractSWF] lists once the wait for the decompiler is
    over, in the order of lines 435, 463 and 465 *)
Definition listedByExtraction (outputDir : string) : list string :=
  [Path.join outputDir "sounds"; Path.join outputDir "frames"; outputDir].

(** the paths that the reconciler lists, in its order *)
Definition listedByReconciler (outputDir : string) : list string :=
  [Path.join outputDir "frames"; outputDir; Path.join outputDir "sounds"].

(** the number that the comparator reads in the name of a frame *)
Definition frameNumber (p : string) : option JS.number :=
  JS.parseInt <$> JS.match_digits (Path.basename p).

(** the name of [p] holds digits that read as the integer [z] *)
Definition numbered (p : string) (z : Z) : Prop := frameNumber p = Some (JS.Int z).

(** the order of the frames as the specification words it: by number when
    both names hold digits, by the collation otherwise *)
Definition frame_order (E : JS.Engine) (a b : string) : Prop :=
  match frameNumber a, frameNumber b with
  | Some (JS.Int x), Some (JS.Int y) => x <= y
  | Some (JS.Int _), Some JS.PlusInfinity => True
  | Some JS.PlusInfinity, Some _ => False
  | _, _ => JS.localeCompare E a b <= 0
  end.

(** the name of the frame with index [i], as the decompiler writes it *)
Definition frame_name (i : nat) : string := Num.toString (Z.of_nat i) ++ ".png".

(** the frames 1.png, ..., N.png of a directory, in order *)
Definition sequential_frames (dir : string) (N : nat) : list string :=
  map (fun i => Path.join dir (frame_name i)) (seq 1 N).

(** every chosen name holds digits that read as an integer, or none holds
    a digit *)
Definition uniform_names (paths : list string) : Prop :=
  Forall (fun p => exists z, numbered p z) paths \/
  Forall (fun p => frameNumber p = None) paths.

(** running the reconciler twice in succession *)
Definition analyzeTwice (E : JS.Engine) (outputDir : string)
  : FsM (ExtractedContent * ExtractedContent) :=
  first ← analyzeExtractedContent E outputDir;
  second ← analyzeExtractedContent E outputDir;
  mret (first, second).

(** the manifest of a tree that the reconciler can list *)
Definition manifest_of (E : JS.Engine) (outputDir : string) (fs : filesystem)
  : ExtractedContent :=
  let sub := recognized fs (Path.join outputDir "frames") in
  let root := recognized fs outputDir in
  let chosen :=
    if (length root <? length sub)%nat
    then (map (Path.join (Path.join outputDir "frames")) sub, Path.join outputDir "frames")
    else (map (Path.join outputDir) root, outputDir) in
  {| framesDir := chosen.2;
     frameFiles := JS.sort E (compareFrames E) chosen.1;
     audioFiles := map (Path.join (Path.join outputDir "sounds"))
                     (audible fs (Path.join outputDir "sounds"));
     frameCount := length (JS.sort E (compareFrames E) chosen.1) |}.


(** the timer fires before the child reports an error or closes *)
Fixpoint timed_out (timeline : list tick) : bool :=
  match timeline with
  | [] => true
  | TimerFires :: _ => true
  | Child e :: rest =>
      match dispatch e with
      | OnStdout _ => timed_out rest
      | _ => false
      end
  end.

Definition is_close (t : tick) : bool :=
  match t with
  | Child Close => true
  | _ => false
  end.

Definition sourcePresent (w : World) : bool := bool_decide (is_Some (swfSize w)).

(** the caller gave an override that the test of line 312 accepts *)
Definition overridden (timeoutMinutes : option jsnumber) : bool :=
  match timeoutMinutes with
  | Some n => Num.truthy n
  | None => false
  end.

(** the size of the source is needed and cannot be read *)
Definition sizeUnreadable (timeoutMinutes : option jsnumber) (w : World) : bool :=
  negb (overridden timeoutMinutes) && negb (sourcePresent w).

(** the source exists and a directory of the output cannot be made *)
Definition setupFails (w : World) : bool :=
  sourcePresent w && bool_decide (is_Some (mkdirFailure w)).

(** the decompiler is spawned, once the timeout is set *)
Definition childSpawned (w : World) : bool :=
  sourcePresent w && negb (bool_decide (is_Some (mkdirFailure w))).

(** the wait for the decompiler ended with the timer *)
Definition decompilerTimedOut (w : World) : bool :=
  childSpawned w && timed_out (timeline w).

(** the decompiler closed before the frames check *)
Definition decompilerClosed (w : World) : bool :=
  childSpawned w && existsb is_close (timeline w).

(** a frame file lies in the frames subdirectory or in the root *)
Definition framesOnDisk (fs : filesystem) (outputDir : string) : bool :=
  (0 <? length (recognized fs (Path.join outputDir "frames")))%nat ||
  (0 <? length (recognized fs outputDir))%nat.

Definition is_thrown {A : Type} (o : outcome A) : bool :=
  match o with
  | Thrown _ => true
  | Returned _ => false
  end.

(** the error of line 473 *)
Definition noFramesError : error :=
  Error "JPEXS extraction failed completely and no frames were extracted".




(** the diagnostic text that the [close] listener of the probe reads: what
    the child wrote before it closed, when its close comes before an error
    and before the timer *)
Fixpoint captured (text : string) (events : list Probe.probe_tick) : option string :=
  match events with
  | [] => None
  | Probe.Data data :: rest => captured (text ++ data) rest
  | Probe.Closed :: _ => Some text
  | Probe.Failed _ :: _ => None
  | Probe.TimerElapsed :: _ => None
  end.

(** the 30 second timer of the probe elapses before a close or an error *)
Fixpoint probe_timed_out (events : list Probe.probe_tick) : bool :=
  match events with
  | [] => true
  | Probe.Data _ :: rest => probe_timed_out rest
  | Probe.TimerElapsed :: _ => true
  | Probe.Closed :: _ => false
  | Probe.Failed _ :: _ => false
  end.

(** The language of [/(\d+(?:\.\d+)?)\s+marker/] in the words of the
    regular expression.  A run of white space is a string, not empty, of
    the code units U+0009 to U+000D, U+0020 and U+00A0. *)
Definition space_codes : list ascii :=
  ["009"; "010"; "011"; "012"; "013"; " "; "160"]%char.

Definition white_space (ws : string) : Prop :=
  ws <> "" /\ List.Forall (fun c => In c space_codes) (list_ascii_of_string ws).

(** [m] writes the digits [u], at least one *)
Definition decimal_digits (m : string) (u : Decimal.uint) : Prop :=
  u <> Decimal.Nil /\ m = NilEmpty.string_of_uint u.

(** [m] is a numeral of the group, digits or digits, a point and digits,
    and writes the number [q] *)
Definition numeral (m : string) (q : Q) : Prop :=
  (exists u, decimal_digits m u /\ q = inject_Z (Z.of_uint u)) \/
  (exists whole frac w f,
     decimal_digits whole w /\ decimal_digits frac f /\ m = whole ++ "." ++ frac /\
     q = (inject_Z (Z.of_uint w) +
          inject_Z (Z.of_uint f) / inject_Z (10 ^ Z.of_nat (String.length frac)))%Q).

(** a match of the expression starts [s], with the group [m] *)
Definition matches_at (marker s m : string) : Prop :=
  exists q ws post, numeral m q /\ white_space ws /\ s = m ++ ws ++ marker ++ post.

(** [m] is the group of the leftmost match in [text] *)
Definition first_match (marker text m : string) : Prop :=
  exists before rest,
    text = before ++ rest /\ matches_at marker rest m /\
    forall before' rest' m',
      text = before' ++ rest' -> matches_at marker rest' m' ->
      (String.length before <= String.length before')%nat.

(** [text] holds no match *)
Definition no_match (marker text : string) : Prop :=
  forall before rest m, text = before ++ rest -> ~ matches_at marker rest m.

(** the numeral [m] reads as a rate: the binary64 value nearest to the
    number it writes is [rate], of the interval (0, 120] *)
Definition usable (m : string) (rate : Q) : Prop :=
  exists q v,
    numeral m q /\ Binary64.of_Q q = Binary64.Finite v /\
    (v == rate)%Q /\ (0 < rate)%Q /\ (rate <= 120)%Q.

Definition unusable (m : string) : Prop :=
  forall rate, ~ usable m rate.

(** the first match of the marker reads as a rate *)
Definition rate_at (marker text : string) (rate : Q) : Prop :=
  exists m, first_match marker text m /\ usable m rate.

(** the marker gives no rate: no match, or a first match that does not read
    as one, whatever the matches after it *)
Definition no_rate_at (marker text : string) : Prop :=
  no_match marker text \/ exists m, first_match marker text m /\ unusable m.

(** the same language through the functions of the matcher *)
Fixpoint take_spaces (s : string) : string :=
  match s with
  | EmptyString => EmptyString
  | String c s' => if JS.is_space c then String c (take_spaces s') else EmptyString
  end.

Definition digits (s : string) : Prop := s <> "" /\ JS.take_digits s = s.

Definition spaces (s : string) : Prop := s <> "" /\ take_spaces s = s.

Definition number_text (m : string) : Prop :=
  digits m \/ exists whole frac, digits whole /\ digits frac /\ m = whole ++ "." ++ frac.

Definition marked_at (marker s m : string) : Prop :=
  exists ws post, number_text m /\ spaces ws /\ s = m ++ ws ++ marker ++ post.

(** an event of the child that the listeners pass on as progress: data on
    standard output, and data on standard error without a fatal phrase *)
Definition progress_only (e : child_event) : Prop :=
  match e with
  | Stdout _ => True
  | Stderr stderrData =>
      JS.includes stderrData "Input SWF file does not exist" = false /\
      JS.includes stderrData "Bad Commandline Arguments" = false
  | Close => False
  | ProcessError _ => False
  end.

Definition is_encode (a : action) : bool :=
  match a with
  | EncodeCommandRun _ => true
  | _ => false
  end.

Definition is_spawn (a : action) : bool :=
  match a with
  | JavaSpawned _ => true
  | _ => false
  end.

Definition is_signal (a : action) : bool :=
  match a with
  | JavaSignalled _ => true
  | _ => false
  end.

Definition is_escalation (a : action) : bool :=
  match a with
  | EscalationArmed _ => true
  | _ => false
  end.

Definition is_removal (a : action) : bool :=
  match a with
  | DirectoryRemoved _ => true
  | _ => false
  end.

(** the temporary directory of a conversion (line 100 of [converter.ts]) *)
Definition tempDirOf (swfFile outputMP4 : string) : string :=
  Path.join (Path.dirname outputMP4) (".temp-" ++ basenameWithout swfFile ".swf").

(** the rate of a conversion as the specification words it: the rate of
    the caller unless it is the default 30, the detected rate then *)
Definition effectiveRate (options : ConversionOptions) (w : ConversionWorld) : Z :=
  if framerate options =? 30
  then detectSWFFrameRate (ffmpegPath w) (probeEvents w)
  else framerate options.

(** the chunks of a stream, put together *)
Definition joined (chunks : list string) : string :=
  fold_right String.append "" chunks.

(** one call for each file and each directory of the tree at [p], a
    directory before its entries *)
Fixpoint removals (p : string) (n : node) : list fs_call :=
  match n with
  | FileNode => [UnlinkSync p]
  | DirNode entries =>
      RmdirSync p
      :: flat_map (fun entry => removals (Path.join p (fst entry)) (snd entry)) entries
  end.

Definition call_path (c : fs_call) : string :=
  match c with
  | UnlinkSync p => p
  | RmdirSync p => p
  end.

(** [q] is a path below the directory [d] *)
Definition below (d q : string) : Prop := exists r, q = d ++ "/" ++ r.

(** no call that follows the removal of a directory names a path below it *)
Definition removed_bottom_up (calls : list fs_call) : Prop :=
  forall before d after,
    calls = (before ++ RmdirSync d :: after)%list ->
    Forall (fun c => ~ below d (call_path c)) after.

Fixpoint slash_free (s : string) : Prop :=
  match s with
  | EmptyString => True
  | String c s' => c <> "/"%char /\ slash_free s'
  end.

(** the names of a directory are distinct and hold no separator *)
Fixpoint well_formed (n : node) : Prop :=
  match n with
  | FileNode => True
  | DirNode entries =>
      List.NoDup (map fst entries) /\
      fold_right (fun entry rest => slash_free (fst entry) /\ well_formed (snd entry) /\ rest)
        True entries
  end.

(** the places where [getFFmpegPath] looks for the binary, in order *)
Definition ffmpegCandidates (h : Platform.Host) (static : string) : list string :=
  let expected := Platform.expectedPath (Platform.platform h) static in
  (expected
   :: Platform.getAlternativeFFmpegPaths h (Platform.platform h)
   ++ match Platform.platform h with
      | Platform.linux =>
          if Platform.truthy (Platform.WSL_DISTRO_NAME h) then [(expected ++ ".exe")%string] else []
      | _ => []
      end)%list.

(** the extraction of a file of the batch throws *)
Definition extraction_fails (output : option string) (job : string * World) : bool :=
  is_thrown (fst (extractSWF (fst job) (extractOutputDir output (fst job)) None None (snd job))).

Definition no_results : BatchResults := {| successful := 0; failed := 0; errors := [] |}.

Fixpoint last_char (s : string) : option ascii :=
  match s with
  | EmptyString => None
  | String c EmptyString => Some c
  | String _ s' => last_char s'
  end.

(** ** Sample runs *)

(** An engine for the sample runs: the collation by code units and a stable
    insertion sort. *)
Definition compare_codes (a b : string) : Z :=
  match String.compare a b with
  | Lt => -1
  | Eq => 0
  | Gt => 1
  end.

Fixpoint insert_sorted (compareFn : string -> string -> JS.sign) (x : string)
    (l : list string) : list string :=
  match l with
  | [] => [x]
  | y :: l' =>
      match compareFn x y with
      | JS.Positive => y :: insert_sorted compareFn x l'
      | _ => x :: l
      end
  end.

Definition insertion_sort (compareFn : string -> string -> JS.sign) (l : list string)
  : list string :=
  foldr (insert_sorted compareFn) [] l.

Program Definition sample_engine : JS.Engine :=
  {| JS.localeCompare := compare_codes;
     JS.sort := insertion_sort |}.
Next Obligation.
  intros l a b c _ _ _. unfold compare_codes.
  assert (OT : forall x y, String.compare x y = String_as_OT.compare x y).
  { induction x; destruct y; simpl; auto. }
  assert (Heq : forall x y, String.compare x y = Eq -> x = y)
    by exact String.compare_eq_iff.
  assert (Htr : forall x y z, String.compare x y = Lt -> String.compare y z = Lt ->
                              String.compare x z = Lt).
  { intros x y z. rewrite !OT. intros H1 H2.
    exact (@StrictOrder_Transitive _ _ String_as_OT.lt_strorder x y z H1 H2). }
  assert (Hrefl : forall x, String.compare x x = Eq).
  { intros x. pose proof (String.compare_antisym x x) as H.
    destruct (String.compare x x); simpl in H; try discriminate; reflexivity. }
  repeat split.
  - destruct (String.compare a b); discriminate.
  - rewrite Hrefl. reflexivity.
  - destruct (String.compare a b) eqn:E; try discriminate. intros _.
    apply Heq in E. subst. rewrite Hrefl. reflexivity.
  - destruct (String.compare a b) eqn:E; try discriminate. intros _.
    apply Heq in E. subst. auto.
  - destruct (String.compare a b) eqn:E1; try discriminate. intros _.
    destruct (String.compare b c) eqn:E2; try discriminate. intros _.
    rewrite (Htr _ _ _ E1 E2). reflexivity.
  - destruct (String.compare a b) eqn:E1; try discriminate. intros _.
    destruct (String.compare b c) eqn:E2; try discriminate. intros _.
    assert (E1' : String.compare b a = Lt) by (rewrite String.compare_antisym, E1; reflexivity).
    assert (E2' : String.compare c b = Lt) by (rewrite String.compare_antisym, E2; reflexivity).
    rewrite String.compare_antisym, (Htr _ _ _ E2' E1'). reflexivity.
Qed.
Next Obligation.
  intros compareFn l.
  assert (Hins : forall x l', Permutation (insert_sorted compareFn x l') (x :: l')).
  { intros x l'. induction l' as [|y l' IH]; simpl; [reflexivity|].
    destruct (compareFn x y); try reflexivity.
    rewrite IH. apply perm_swap. }
  induction l as [|x l IH]; simpl; [reflexivity|].
  unfold insertion_sort in *. rewrite Hins. now constructor.
Qed.
Next Obligation.
  intros compareFn l Hc.
  assert (Hins : forall x l', Permutation (insert_sorted compareFn x l') (x :: l')).
  { intros x l'. induction l' as [|y l' IH]; simpl; [reflexivity|].
    destruct (compareFn x y); try reflexivity.
    rewrite IH. apply perm_swap. }
  assert (Hperm : forall l', Permutation (insertion_sort compareFn l') l').
  { induction l' as [|x l' IH]; simpl; [reflexivity|].
    unfold insertion_sort in *. rewrite Hins. now constructor. }
  assert (Hflip : forall a b, In a l -> In b l ->
            compareFn a b = JS.Positive -> compareFn b a = JS.Negative).
  { intros a b Ha Hb H.
    destruct (Hc a b a Ha Hb Ha) as (_ & Hr & _ & _ & _ & Hp).
    destruct (Hc b a b Hb Ha Hb) as (Hn & _ & Hs & _).
    destruct (compareFn b a) eqn:E; try reflexivity.
    - rewrite (Hs eq_refl) in H. discriminate.
    - rewrite (Hp H eq_refl) in Hr. discriminate.
    - contradiction. }
  assert (Htrans : forall a b c, In a l -> In b l -> In c l ->
            JS.in_order compareFn a b -> JS.in_order compareFn b c ->
            JS.in_order compareFn a c).
  { unfold JS.in_order. intros a b c Ha Hb Hc' Hab Hbc Hca.
    destruct (Hc b a c Hb Ha Hc') as (Hn1 & _).
    destruct (Hc c b a Hc' Hb Ha) as (Hn2 & _ & _ & Hz & _ & Hpos).
    destruct (compareFn b a) eqn:Eba; try contradiction;
      destruct (compareFn c b) eqn:Ecb; try contradiction.
    - rewrite (Hz eq_refl eq_refl) in Hca. discriminate.
    - pose proof (Hflip c b Hc' Hb Ecb) as Hbc'.
      destruct (Hc b c a Hb Hc' Ha) as (_ & _ & _ & _ & Hneg' & _).
      rewrite (Hneg' Hbc' Hca) in Eba. discriminate.
    - pose proof (Hflip b a Hb Ha Eba) as Hab'.
      destruct (Hc c a b Hc' Ha Hb) as (_ & _ & _ & _ & Hneg' & _).
      rewrite (Hneg' Hca Hab') in Ecb. discriminate.
    - rewrite (Hpos eq_refl eq_refl) in Hca. discriminate. }
  assert (Hsub : forall l', (forall x, In x l' -> In x l) ->
            StronglySorted (JS.in_order compareFn) (insertion_sort compareFn l')).
  { induction l' as [|x l' IH]; intros Hl'; simpl; [constructor|].
    assert (Hx : In x l) by (apply Hl'; now left).
    assert (Hrest : forall y, In y (insertion_sort compareFn l') -> In y l).
    { intros y Hy. apply Hl'. right. exact (Permutation_in _ (Hperm l') Hy). }
    specialize (IH (fun y Hy => Hl' y (or_intror Hy))).
    fold (insertion_sort compareFn l').
    induction IH as [|y s Hs IHs Hy]; simpl; [repeat constructor|].
    assert (Hyl : In y l) by (apply Hrest; now left).
    assert (Hsl : forall z, In z s -> In z l) by (intros z Hz; apply Hrest; now right).
    assert (Hbefore : JS.in_order compareFn x y ->
              StronglySorted (JS.in_order compareFn) (x :: y :: s)).
    { intros Hxy. constructor; [now constructor|]. constructor; [exact Hxy|].
      rewrite List.Forall_forall in *. intros z Hz.
      exact (Htrans x y z Hx Hyl (Hsl z Hz) Hxy (Hy z Hz)). }
    destruct (compareFn x y) eqn:E.
    - apply Hbefore. unfold JS.in_order. intros H.
      destruct (Hc y x y Hyl Hx Hyl) as (_ & Hr & _ & _ & Hneg & _).
      rewrite (Hneg H E) in Hr. discriminate.
    - apply Hbefore. unfold JS.in_order.
      destruct (Hc x y x Hx Hyl Hx) as (_ & _ & Hs' & _).
      rewrite (Hs' E). discriminate.
    - constructor; [apply IHs; intros z Hz; apply Hrest; now right|].
      rewrite List.Forall_forall in *. intros z Hz.
      apply (Permutation_in _ (Hins x s)) in Hz. destruct Hz as [<-|Hz].
      + unfold JS.in_order. rewrite E. discriminate.
      + now apply Hy.
    - destruct (Hc x y x Hx Hyl Hx) as (Hn & _). contradiction. }
  apply Hsub. auto.
Qed.

(** frames in the root, listed out of order *)
Definition numbered_fs : filesystem :=
  <["out" := Directory ["3.png"; "2.png"; "sounds"; "1.png"]]>
  (<["out/sounds" := Directory ["0.mp3"]]> ∅).

Definition numbered_manifest : ExtractedContent :=
  {| framesDir := "out";
     frameFiles := ["out/1.png"; "out/2.png"; "out/3.png"];
     audioFiles := ["out/sounds/0.mp3"];
     frameCount := 3 |}.

(** names with and without digits in one directory *)
Definition mixed_fs : filesystem :=
  <["out" := Directory ["a10.png"; "b.png"; "c2.png"]]> ∅.

(** a regular file where the frames directory is expected *)
Definition blocked_fs : filesystem :=
  <["out" := Directory ["frames"; "1.png"]]> (<["out/frames" := RegularFile]> ∅).

(** the decompiler writes a frame and then hangs until the timer fires *)
Definition hung_world : World :=
  {| jarPath := "bin/ffdec.jar";
     swfSize := Some (2 * 1024 * 1024);
     mkdirFailure := None;
     timeline := [Child (Stdout "Exported frame 1/50"); TimerFires];
     ffmpegInitialized := true;
     soundsMkdirFailure := None;
     audioRun := FfmpegEnd;
     disk := <["out" := Directory ["frames"; "sounds"]]>
             (<["out/frames" := Directory ["1.png"]]>
             (<["out/sounds" := Directory []]> ∅)) |}.

(** the decompiler reports a fatal line; ten frames are on disk and the audio
    fallback fails *)
Definition partial_world : World :=
  {| jarPath := "bin/ffdec.jar";
     swfSize := Some (5 * 1024 * 1024);
     mkdirFailure := None;
     timeline := [Child (Stdout "Exported frame 10/10");
                  Child (Stderr "Bad Commandline Arguments")];
     ffmpegInitialized := true;
     soundsMkdirFailure := None;
     audioRun := FfmpegError "Invalid data found when processing input";
     disk := <["out" := Directory ["frames"; "sounds"]]>
             (<["out/frames" := Directory ["1.png"; "2.png"; "3.png"; "4.png"; "5.png";
                                           "6.png"; "7.png"; "8.png"; "9.png"; "10.png"]]>
             (<["out/sounds" := Directory []]> ∅)) |}.

(** the decompiler reports a fatal line and leaves nothing on disk *)
Definition failed_world : World :=
  {| jarPath := "bin/ffdec.jar";
     swfSize := Some (5 * 1024 * 1024);
     mkdirFailure := None;
     timeline := [Child (Stderr "Error: Bad Commandline Arguments")];
     ffmpegInitialized := true;
     soundsMkdirFailure := None;
     audioRun := FfmpegError "Output file is empty, nothing was encoded";
     disk := <["out" := Directory ["frames"; "sounds"]]>
             (<["out/frames" := Directory ["0"; "1"]]>
             (<["out/sounds" := Directory []]> ∅)) |}.

(** the same, and the child closes while the audio fallback runs *)
Definition failed_then_closed_world : World :=
  {| jarPath := "bin/ffdec.jar";
     swfSize := Some (5 * 1024 * 1024);
     mkdirFailure := None;
     timeline := [Child (Stderr "Error: Bad Commandline Arguments"); Child Close];
     ffmpegInitialized := true;
     soundsMkdirFailure := None;
     audioRun := FfmpegError "Output file is empty, nothing was encoded";
     disk := <["out" := Directory ["frames"; "sounds"]]>
             (<["out/frames" := Directory ["0"; "1"]]>
             (<["out/sounds" := Directory []]> ∅)) |}.

(** the decompiler closes with its frames on disk, and a regular file
    stands where the sounds directory is expected *)
Definition blocked_world : World :=
  {| jarPath := "bin/ffdec.jar";
     swfSize := Some (5 * 1024 * 1024);
     mkdirFailure := None;
     timeline := [Child (Stdout "Exported frame 1/1"); Child Close];
     ffmpegInitialized := true;
     soundsMkdirFailure := None;
     audioRun := FfmpegEnd;
     disk := <["out" := Directory ["frames"; "sounds"]]>
             (<["out/frames" := Directory ["1.png"]]>
             (<["out/sounds" := RegularFile]> ∅)) |}.

(** the output directory cannot be made *)
Definition readonly_world : World :=
  {| jarPath := "bin/ffdec.jar";
     swfSize := Some (5 * 1024 * 1024);
     mkdirFailure := Some "EACCES: permission denied, mkdir 'out'";
     timeline := [Child Close];
     ffmpegInitialized := true;
     soundsMkdirFailure := None;
     audioRun := FfmpegEnd;
     disk := ∅ |}.

(** what ffmpeg prints about a source, in two chunks *)
Definition ffmpeg_banner : list Probe.probe_tick :=
  [Probe.Data "Input #0, swf, from 'a.swf':  Duration: N/A  Stream #0:0: Video: flv1, yuv420p, 800x600, 1";
   Probe.Data "5 fps, 15 tbr, 15 tbn";
   Probe.Closed].

(** a conversion of a source of 2 MB with three frames and one audio file *)
Definition conversion_world : ConversionWorld :=
  {| ffmpegPath := Some "/usr/bin/ffmpeg";
     probeEvents := ffmpeg_banner;
     extraction :=
       {| jarPath := "bin/ffdec.jar";
          swfSize := Some (2 * 1024 * 1024);
          mkdirFailure := None;
          timeline := [Child (Stdout "Exported frame 3/3"); Child Close];
          ffmpegInitialized := true;
          soundsMkdirFailure := None;
          audioRun := FfmpegEnd;
          disk := <["videos/.temp-a" := Directory ["frames"; "sounds"]]>
                  (<["videos/.temp-a/frames" := Directory ["2.png"; "3.png"; "1.png"]]>
                  (<["videos/.temp-a/sounds" := Directory ["0.mp3"]]> ∅)) |};
     writeFailure := None;
     encodeRun := FfmpegEnd;
     tempDirRemains := true |}.

Definition conversion_command (rate : string) : EncodeCommand :=
  {| inputs := ["videos/.temp-a/frames/%d.png"; "videos/.temp-a/sounds/0.mp3"];
     inputOptions := ["-framerate"; rate];
     videoFilters := ["pad=ceil(iw/2)*2:ceil(ih/2)*2"];
     videoCodec := "libx264";
     outputOptions := ["-pix_fmt"; "yuv420p"; "-crf"; "23"];
     audioCodec := Some "aac";
     output := "videos/a.mp4" |}.

Definition conversion_log (rate : string) : list action :=
  [JavaSpawned ["-jar"; "bin/ffdec.jar"; "-export"; "frame,sound"; "videos/.temp-a"; "a.swf"];
   AudioFallbackCalled "a.swf" "videos/.temp-a";
   AudioCommandRun {| audioInput := "a.swf"; noVideo := true; audioCopyCodec := "copy";
                      audioOutput := "videos/.temp-a/sounds/0.mp3" |};
   EncodeCommandRun (conversion_command rate);
   DirectoryRemoved "videos/.temp-a"].

(** the decompiler writes warnings on standard error, exports nothing and
    closes *)
Definition warned_world : World :=
  {| jarPath := "bin/ffdec.jar";
     swfSize := Some (3 * 1024 * 1024);
     mkdirFailure := None;
     timeline := [Child (Stderr "SEVERE: Error during tag reading");
                  Child (Stdout "OK");
                  Child Close];
     ffmpegInitialized := false;
     soundsMkdirFailure := None;
     audioRun := FfmpegEnd;
     disk := <["out" := Directory ["frames"; "sounds"]]>
             (<["out/frames" := Directory ["0"; "1"]]>
             (<["out/sounds" := Directory []]> ∅)) |}.

(** no source, frames of an earlier run on disk *)
Definition stale_world : World :=
  {| jarPath := "bin/ffdec.jar";
     swfSize := None;
     mkdirFailure := None;
     timeline := [Child Close];
     ffmpegInitialized := true;
     soundsMkdirFailure := None;
     audioRun := FfmpegEnd;
     disk := <["out" := Directory ["1.png"]]> ∅ |}.

(** a temporary directory after an extraction *)
Definition extracted_entries : list (string * node) :=
  [ ("frames", DirNode [("1.png", FileNode); ("2.png", FileNode)]);
    ("sounds", DirNode []);
    ("frames.fla", FileNode) ].

(** a Linux host with Java and the binaries of [ffmpeg-static] *)
Definition linux_host : Platform.Host :=
  {| Platform.platform := Platform.linux;
     Platform.ffmpegStatic := Some "/opt/ffmpeg-static/ffmpeg";
     Platform.existsSync := fun p => String.eqb p "/opt/ffmpeg-static/ffmpeg";
     Platform.WSL_DISTRO_NAME := None;
     Platform.javaRuns := true;
     Platform.pathJoin := fun parts =>
       match parts with
       | [] => "."
       | first :: rest => foldl Path.join first rest
       end;
     Platform.pathDirname := Path.dirname |}.

(** a batch of two files, the second of which cannot be extracted *)
Definition batch : list (string * World) :=
  [ ("in/a.swf",
     {| jarPath := "bin/ffdec.jar";
        swfSize := Some (5 * 1024 * 1024);
        mkdirFailure := None;
        timeline := [Child (Stdout "Exported frame 2/2"); Child Close];
        ffmpegInitialized := true;
        soundsMkdirFailure := None;
        audioRun := FfmpegEnd;
        disk := <["in/a-output" := Directory ["frames"; "sounds"]]>
                (<["in/a-output/frames" := Directory ["1.png"; "2.png"]]>
                (<["in/a-output/sounds" := Directory []]> ∅)) |});
    ("in/b.swf", failed_world) ].


(** * Properties *)

(** ** Binary64 values *)

Lemma pow2_pos (k : Z) : 0 <= k -> 0 < 2 ^ k.
Proof. intros. apply Z.pow_pos_nonneg; lia. Qed.

Lemma log2_floor_lower (n d : Z) :
  0 < n -> 0 < d ->
  let e := Binary64.log2_floor n d in
  (0 <= e -> d * 2 ^ e <= n) /\ (e < 0 -> d <= n * 2 ^ (- e)).
Proof.
  intros Hn Hd. unfold Binary64.log2_floor.
  destruct (Z.log2_spec n Hn) as [Hn1 Hn2], (Z.log2_spec d Hd) as [Hd1 Hd2].
  pose proof (Z.log2_nonneg n) as Ln. pose proof (Z.log2_nonneg d) as Ld.
  set (k := Z.log2 n - Z.log2 d).
  destruct (0 <=? k) eqn:Ek.
  - apply Z.leb_le in Ek. destruct (d * 2 ^ k <=? n) eqn:T; cbv zeta.
    + apply Z.leb_le in T. split; [intros _; exact T | lia].
    + apply Z.leb_gt in T. split.
      * intros Hk.
        assert (H : 2 ^ Z.succ (Z.log2 d) * 2 ^ (k - 1) = 2 ^ Z.log2 n).
        { rewrite <- Z.pow_add_r by lia. f_equal. lia. }
        pose proof (pow2_pos (k - 1) Hk) as Hpos.
        apply Z.lt_le_incl. apply Z.lt_le_trans with (2 ^ Z.succ (Z.log2 d) * 2 ^ (k - 1)).
        { apply Z.mul_lt_mono_pos_r; assumption. }
        rewrite H. exact Hn1.
      * intros Hk. assert (k = 0) by lia.
        replace (- (k - 1)) with 1 by lia. change (2 ^ 1) with 2.
        assert (Hl : Z.log2 n = Z.log2 d) by lia.
        rewrite Z.pow_succ_r in Hd2 by lia. rewrite Hl in Hn1. lia.
  - apply Z.leb_gt in Ek. destruct (d <=? n * 2 ^ (- k)) eqn:T; cbv zeta.
    + apply Z.leb_le in T. split; [lia | intros _; exact T].
    + apply Z.leb_gt in T. split; [lia|]. intros _.
      assert (H : 2 ^ Z.log2 n * 2 ^ (- (k - 1)) = 2 ^ Z.succ (Z.log2 d)).
      { rewrite <- Z.pow_add_r by lia. f_equal. lia. }
      pose proof (pow2_pos (- (k - 1)) ltac:(lia)). nia.
Qed.

Lemma log2_floor_upper (n d : Z) :
  0 < n -> 0 < d ->
  let e := Binary64.log2_floor n d in
  (0 <= e + 1 -> n < d * 2 ^ (e + 1)) /\ (e + 1 < 0 -> n * 2 ^ (- (e + 1)) < d).
Proof.
  intros Hn Hd. unfold Binary64.log2_floor.
  destruct (Z.log2_spec n Hn) as [Hn1 Hn2], (Z.log2_spec d Hd) as [Hd1 Hd2].
  pose proof (Z.log2_nonneg n) as Ln. pose proof (Z.log2_nonneg d) as Ld.
  set (k := Z.log2 n - Z.log2 d).
  destruct (0 <=? k) eqn:Ek.
  - apply Z.leb_le in Ek. destruct (d * 2 ^ k <=? n) eqn:T; cbv zeta.
    + split; [intros _ | lia].
      assert (H : 2 ^ Z.log2 d * 2 ^ (k + 1) = 2 ^ Z.succ (Z.log2 n)).
      { rewrite <- Z.pow_add_r by lia. f_equal. lia. }
      pose proof (pow2_pos (k + 1) ltac:(lia)). nia.
    + apply Z.leb_gt in T. replace (k - 1 + 1) with k by lia. split; [intros _; exact T | lia].
  - apply Z.leb_gt in Ek. destruct (d <=? n * 2 ^ (- k)) eqn:T; cbv zeta.
    + split.
      * intros Hk. assert (k = -1) by lia. subst k. replace (Z.log2 n - Z.log2 d + 1) with 0 by lia.
        change (2 ^ 0) with 1. assert (Z.succ (Z.log2 n) = Z.log2 d) by lia.
        rewrite H0 in Hn2. lia.
      * intros Hk.
        assert (H : 2 ^ Z.succ (Z.log2 n) * 2 ^ (- (k + 1)) = 2 ^ Z.log2 d).
        { rewrite <- Z.pow_add_r by lia. f_equal. lia. }
        pose proof (pow2_pos (- (k + 1)) ltac:(lia)). nia.
    + apply Z.leb_gt in T. replace (k - 1 + 1) with k by lia. split; [lia | intros _; exact T].
Qed.

Lemma round_half_even_spec (num den : Z) :
  0 < den ->
  - den <= 2 * (Binary64.round_half_even num den * den - num) <= den.
Proof.
  intros Hd. unfold Binary64.round_half_even.
  pose proof (Z.div_mod num den ltac:(lia)) as E.
  pose proof (Z.mod_pos_bound num den Hd) as B.
  destruct ((den <? 2 * (num mod den)) || ((2 * (num mod den) =? den) && Z.odd (num / den))) eqn:T.
  - apply orb_true_iff in T. destruct T as [T|T].
    + apply Z.ltb_lt in T. nia.
    + apply andb_true_iff in T. destruct T as [T _]. apply Z.eqb_eq in T. nia.
  - apply orb_false_iff in T. destruct T as [T _]. apply Z.ltb_ge in T. nia.
Qed.

Lemma round_half_even_exact (num den : Z) :
  0 < den -> Binary64.round_half_even (num * den) den = num.
Proof.
  intros Hd. unfold Binary64.round_half_even.
  rewrite Z.mod_mul, Z.div_mul by lia.
  replace (den <? 2 * 0) with false by (symmetry; apply Z.ltb_ge; lia).
  replace (2 * 0 =? den) with false by (symmetry; apply Z.eqb_neq; lia).
  reflexivity.
Qed.

Lemma round_half_even_one (num : Z) : Binary64.round_half_even num 1 = num.
Proof.
  pose proof (round_half_even_exact num 1 ltac:(lia)) as H.
  now rewrite Z.mul_1_r in H.
Qed.

(** integers below 2^53 are binary64 values *)
Lemma nearest_small_integer (n : Z) :
  0 <= n < 2 ^ 53 -> exists q, Binary64.nearest n 1 = Binary64.Finite q /\ (q == inject_Z n)%Q.
Proof.
  intros [H0 H1]. unfold Binary64.nearest.
  destruct (Z.eqb_spec n 0) as [->|Hn]; [exists 0%Q; split; reflexivity|].
  assert (He : Binary64.log2_floor n 1 <= 52).
  { destruct (Z_le_gt_dec (Binary64.log2_floor n 1) 52) as [H|H]; [exact H|].
    destruct (log2_floor_lower n 1 ltac:(lia) ltac:(lia)) as [L _]. cbv zeta in L.
    specialize (L ltac:(lia)).
    assert (2 ^ 53 <= 2 ^ Binary64.log2_floor n 1) by (apply Z.pow_le_mono_r; lia). lia. }
  set (e := Binary64.log2_floor n 1) in *. cbv zeta.
  set (p := Z.max (e - 52) (-1074)).
  assert (Hp : p <= 0) by lia.
  destruct (0 <=? p) eqn:Ep.
  - apply Z.leb_le in Ep. assert (p = 0) by lia.
    replace p with 0 by lia. change (2 ^ 0) with 1. rewrite !Z.mul_1_r.
    rewrite round_half_even_one.
    replace (2 ^ 1024 <=? n) with false
      by (symmetry; apply Z.leb_gt; assert (2 ^ 53 < 2 ^ 1024) by reflexivity; lia).
    eexists. split; reflexivity.
  - apply Z.leb_gt in Ep. rewrite round_half_even_one.
    eexists. split; [reflexivity|].
    pose proof (pow2_pos (- p) ltac:(lia)) as Hpos.
    unfold Qeq. cbn [Qnum Qden inject_Z]. rewrite Z2Pos.id by lia. lia.
Qed.

(** a value of the normal range is within a relative 2^-53 of what it rounds *)
Lemma nearest_error (n d : Z) (v : Q) :
  0 < n -> 0 < d -> d <= n * 2 ^ 1022 ->
  Binary64.nearest n d = Binary64.Finite v ->
  (Qabs (v - (n # Z.to_pos d)) <= (n # Z.to_pos d) * (1 # 2 ^ 53))%Q.
Proof.
  intros Hn Hd Hnormal. unfold Binary64.nearest.
  destruct (Z.eqb_spec n 0); [lia|].
  destruct (log2_floor_lower n d Hn Hd) as [L1 L2].
  destruct (log2_floor_upper n d Hn Hd) as [U1 U2].
  cbv zeta in *. set (e := Binary64.log2_floor n d) in *.
  assert (He : -1022 <= e).
  { destruct (Z_le_gt_dec (-1022) e) as [H|H]; [exact H|exfalso].
    specialize (U2 ltac:(lia)).
    assert (2 ^ 1022 <= 2 ^ (- (e + 1))) by (apply Z.pow_le_mono_r; lia). nia. }
  replace (Z.max (e - 52) (-1074)) with (e - 52) by lia.
  destruct (0 <=? e - 52) eqn:Ep.
  - apply Z.leb_le in Ep.
    pose proof (pow2_pos (e - 52) Ep) as Hpos.
    pose proof (round_half_even_spec n (d * 2 ^ (e - 52)) ltac:(nia)) as R.
    set (m := Binary64.round_half_even n (d * 2 ^ (e - 52))) in *.
    destruct (2 ^ 1024 <=? m * 2 ^ (e - 52)); [discriminate|].
    intros [= <-]. specialize (L1 ltac:(lia)).
    assert (E : 2 ^ e = 2 ^ (e - 52) * 2 ^ 52).
    { rewrite <- Z.pow_add_r by lia. f_equal. lia. }
    apply Qabs_Qle_condition. unfold Qminus. unfold Qle, Qopp, Qplus, Qmult.
    cbn [Qnum Qden inject_Z]. rewrite !Pos2Z.inj_mul, !Z2Pos.id by lia.
    change (Z.pos (2 ^ 53)) with (2 ^ 53). change (2^53) with (2 * 2^52).
    split; nia.
  - apply Z.leb_gt in Ep.
    pose proof (pow2_pos (- (e - 52)) ltac:(lia)) as Hpos.
    pose proof (round_half_even_spec (n * 2 ^ (- (e - 52))) d Hd) as R.
    set (m := Binary64.round_half_even (n * 2 ^ (- (e - 52))) d) in *.
    intros [= <-].
    assert (L : d * 2 ^ 52 <= n * 2 ^ (- (e - 52))).
    { destruct (Z_le_gt_dec 0 e) as [H|H].
      - specialize (L1 H).
        assert (E : 2 ^ 52 = 2 ^ e * 2 ^ (- (e - 52))).
        { rewrite <- Z.pow_add_r by lia. f_equal. lia. }
        rewrite E. pose proof (pow2_pos e H). nia.
      - specialize (L2 ltac:(lia)).
        assert (E : 2 ^ (- (e - 52)) = 2 ^ (- e) * 2 ^ 52).
        { rewrite <- Z.pow_add_r by lia. f_equal. lia. }
        rewrite E. nia. }
    apply Qabs_Qle_condition. unfold Qminus. unfold Qle, Qopp, Qplus, Qmult.
    cbn [Qnum Qden inject_Z]. rewrite !Pos2Z.inj_mul, !Z2Pos.id by lia.
    change (Z.pos (2 ^ 53)) with (2 ^ 53). change (2^53) with (2 * 2^52).
    set (P := 2 ^ (- (e - 52))) in *.
    split; nia.
Qed.

Lemma parseInt_small (digits : string) :
  0 <= JS.parse_digits 0 digits < 2 ^ 53 ->
  JS.parseInt digits = JS.Int (JS.parse_digits 0 digits).
Proof.
  intros H. unfold JS.parseInt.
  destruct (nearest_small_integer _ H) as (q & -> & Hq).
  f_equal. rewrite (Qfloor_comp _ _ Hq). apply Qfloor_Z.
Qed.

Lemma sign_of_zero (z : Z) : JS.sign_of z = JS.Zero <-> z = 0.
Proof. destruct z; simpl; split; intros H; congruence || discriminate || lia. Qed.

Lemma sign_of_negative (z : Z) : JS.sign_of z = JS.Negative <-> z < 0.
Proof. destruct z; simpl; split; intros H; congruence || discriminate || lia. Qed.

Lemma sign_of_positive (z : Z) : JS.sign_of z = JS.Positive <-> 0 < z.
Proof. destruct z; simpl; split; intros H; congruence || discriminate || lia. Qed.

Lemma sign_of_number (z : Z) : JS.sign_of z <> JS.NotANumber.
Proof. destruct z; discriminate. Qed.

(** ** The content reconciler *)

Lemma listing_run (keep : string -> bool) (dir : string) (fs : filesystem) :
  listing keep dir fs =
  (if is_file fs dir then Thrown (notADirectory dir)
   else Returned (List.filter keep (entries_of fs dir)), fs).
Proof.
  unfold listing, mbind, FsM_bind, Fs.existsSync, Fs.readdirSync, mret, FsM_ret,
    is_file, entries_of, notADirectory.
  destruct (fs !! dir) as [[|entries]|] eqn:E.
  - rewrite bool_decide_eq_true_2 by eauto. cbv beta. rewrite E. reflexivity.
  - rewrite bool_decide_eq_true_2 by eauto. cbv beta. rewrite E. reflexivity.
  - rewrite bool_decide_eq_false_2 by (intros [? ?]; discriminate). reflexivity.
Qed.

Lemma analyzeExtractedContent_run (E : JS.Engine) (outputDir : string) (fs : filesystem) :
  analyzeExtractedContent E outputDir fs =
  (match first_file fs (listedByReconciler outputDir) with
   | Some p => Thrown (notADirectory p)
   | None => Returned (manifest_of E outputDir fs)
   end, fs).
Proof.
  unfold analyzeExtractedContent, manifest_of, recognized, audible, first_file,
    listedByReconciler.
  cbn [List.find].
  unfold mbind at 1. unfold FsM_bind. rewrite listing_run.
  destruct (is_file fs (Path.join outputDir "frames")); [reflexivity|].
  unfold mbind at 1. unfold FsM_bind. rewrite listing_run.
  destruct (is_file fs outputDir); [reflexivity|].
  destruct (_ <? _)%nat; unfold mbind, FsM_bind; rewrite listing_run;
    destruct (is_file fs (Path.join outputDir "sounds")); reflexivity.
Qed.

Lemma StronglySorted_weaken {A : Type} (R R' : A -> A -> Prop) (l : list A) :
  (forall a b, In a l -> In b l -> R a b -> R' a b) ->
  StronglySorted R l -> StronglySorted R' l.
Proof.
  intros HR Hs. induction Hs as [|x l Hs IH Hx]; constructor.
  - apply IH. intros a b Ha Hb. apply HR; now right.
  - rewrite List.Forall_forall in *. intros y Hy.
    apply HR; [now left | now right | now apply Hx].
Qed.

(** *** The comparator of the frames *)

Lemma compareFrames_numbered (E : JS.Engine) (a b : string) (x y : Z) :
  numbered a x -> numbered b y -> compareFrames E a b = JS.sign_of (x - y).
Proof.
  unfold numbered, frameNumber, compareFrames. intros Ha Hb.
  destruct (JS.match_digits (Path.basename a)); [|discriminate].
  destruct (JS.match_digits (Path.basename b)); [|discriminate].
  simpl in *. injection Ha as ->. injection Hb as ->. reflexivity.
Qed.

Lemma compareFrames_unnumbered (E : JS.Engine) (a b : string) :
  frameNumber a = None -> compareFrames E a b = JS.sign_of (JS.localeCompare E a b).
Proof.
  unfold frameNumber, compareFrames. intros Ha.
  destruct (JS.match_digits (Path.basename a)); [discriminate|reflexivity].
Qed.

Lemma compareFrames_unnumbered_r (E : JS.Engine) (a b : string) :
  frameNumber b = None -> compareFrames E a b = JS.sign_of (JS.localeCompare E a b).
Proof.
  unfold frameNumber, compareFrames. intros Hb.
  destruct (JS.match_digits (Path.basename a)); [|reflexivity].
  destruct (JS.match_digits (Path.basename b)); [discriminate|reflexivity].
Qed.

Lemma consistent_numbered (E : JS.Engine) (l : list string) :
  Forall (fun p => exists z, numbered p z) l -> JS.consistent_on (compareFrames E) l.
Proof.
  rewrite List.Forall_forall. intros Hl a b c Ha Hb Hc.
  destruct (Hl a Ha) as [x Hx], (Hl b Hb) as [y Hy], (Hl c Hc) as [z Hz].
  rewrite (compareFrames_numbered E a b x y Hx Hy), (compareFrames_numbered E a a x x Hx Hx),
    (compareFrames_numbered E b a y x Hy Hx), (compareFrames_numbered E b c y z Hy Hz),
    (compareFrames_numbered E a c x z Hx Hz).
  rewrite !sign_of_zero, !sign_of_negative, !sign_of_positive.
  split; [apply sign_of_number|]. repeat split; lia.
Qed.

Lemma consistent_unnumbered (E : JS.Engine) (l : list string) :
  Forall (fun p => frameNumber p = None) l -> JS.consistent_on (compareFrames E) l.
Proof.
  rewrite List.Forall_forall. intros Hl a b c Ha Hb Hc.
  rewrite (compareFrames_unnumbered E a b (Hl a Ha)), (compareFrames_unnumbered E a a (Hl a Ha)),
    (compareFrames_unnumbered E b a (Hl b Hb)), (compareFrames_unnumbered E b c (Hl b Hb)),
    (compareFrames_unnumbered E a c (Hl a Ha)).
  exact (JS.localeCompare_consistent E l a b c Ha Hb Hc).
Qed.

(** under a consistent comparator what is greater one way is less the other *)
Lemma consistent_flip {A : Type} (compareFn : A -> A -> JS.sign) (l : list A) (a b : A) :
  JS.consistent_on compareFn l -> In a l -> In b l ->
  compareFn a b = JS.Positive -> compareFn b a = JS.Negative.
Proof.
  intros Hc Ha Hb H.
  destruct (Hc a b a Ha Hb Ha) as (_ & Hr & _ & _ & _ & Hp).
  destruct (Hc b a b Hb Ha Hb) as (Hn & _ & Hs & _).
  destruct (compareFn b a) eqn:E; try reflexivity.
  - rewrite (Hs eq_refl) in H. discriminate.
  - rewrite (Hp H eq_refl) in Hr. discriminate.
  - contradiction.
Qed.

Lemma in_order_numbered (E : JS.Engine) (a b : string) (x y : Z) :
  numbered a x -> numbered b y ->
  JS.in_order (compareFrames E) a b -> frame_order E a b.
Proof.
  intros Ha Hb. unfold JS.in_order, frame_order.
  rewrite (compareFrames_numbered E b a y x Hb Ha). unfold numbered in *. rewrite Ha, Hb.
  rewrite sign_of_negative. lia.
Qed.

Lemma in_order_unnumbered (E : JS.Engine) (a b : string) :
  frameNumber a = None -> frameNumber b = None ->
  JS.in_order (compareFrames E) a b -> frame_order E a b.
Proof.
  intros Ha Hb. unfold JS.in_order, frame_order.
  rewrite (compareFrames_unnumbered E b a Hb), Ha.
  intros H.
  destruct (Z_le_gt_dec (JS.localeCompare E a b) 0) as [Hle|Hgt]; [exact Hle|exfalso].
  apply H.
  apply (consistent_flip (fun a b => JS.sign_of (JS.localeCompare E a b)) [a; b] a b
           (JS.localeCompare_consistent E [a; b])); simpl; auto.
  apply sign_of_positive. lia.
Qed.

Lemma sort_frames_uniform (E : JS.Engine) (l : list string) :
  uniform_names l -> StronglySorted (frame_order E) (JS.sort E (compareFrames E) l).
Proof.
  intros [Hl|Hl].
  - eapply StronglySorted_weaken;
      [|apply JS.sort_sorted, consistent_numbered; exact Hl].
    rewrite List.Forall_forall in Hl. intros a b Ha Hb.
    apply (Permutation_in _ (JS.sort_permutation E _ _)) in Ha, Hb.
    destruct (Hl a Ha) as [x Hx], (Hl b Hb) as [y Hy].
    exact (in_order_numbered E a b x y Hx Hy).
  - eapply StronglySorted_weaken;
      [|apply JS.sort_sorted, consistent_unnumbered; exact Hl].
    rewrite List.Forall_forall in Hl. intros a b Ha Hb.
    apply (Permutation_in _ (JS.sort_permutation E _ _)) in Ha, Hb.
    exact (in_order_unnumbered E a b (Hl a Ha) (Hl b Hb)).
Qed.

(** *** The layout and the idempotence *)

Lemma length_append (s t : string) :
  String.length (s ++ t) = (String.length s + String.length t)%nat.
Proof. induction s as [|c s IH]; simpl; [reflexivity|now rewrite IH]. Qed.

Lemma frames_dir_differs (dir : string) : Path.join dir "frames" <> dir.
Proof.
  unfold Path.join.
  destruct (String.eqb dir "") eqn:E1; [apply String.eqb_eq in E1; now subst|].
  destruct (String.eqb dir ".") eqn:E2; [apply String.eqb_eq in E2; now subst|].
  destruct (String.eqb dir "/") eqn:E3; [apply String.eqb_eq in E3; now subst|].
  simpl. intros H. apply (f_equal String.length) in H.
  rewrite !length_append in H. simpl in H. lia.
Qed.

Lemma manifest_of_layout (E : JS.Engine) (outputDir : string) (fs : filesystem) :
  let m := manifest_of E outputDir fs in
  (framesDir m = Path.join outputDir "frames" \/ framesDir m = outputDir) /\
  (framesDir m = Path.join outputDir "frames" <->
   (length (recognized fs outputDir) <
    length (recognized fs (Path.join outputDir "frames")))%nat) /\
  Permutation (frameFiles m)
    (map (Path.join (framesDir m)) (recognized fs (framesDir m))) /\
  frameCount m = length (recognized fs (framesDir m)).
Proof.
  assert (Hne : Path.join outputDir "frames" <> outputDir)
    by apply frames_dir_differs.
  unfold manifest_of. cbv zeta.
  destruct (length (recognized fs outputDir) <?
            length (recognized fs (Path.join outputDir "frames")))%nat eqn:L; simpl.
  - apply Nat.ltb_lt in L.
    repeat split; auto using JS.sort_permutation.
    rewrite (Permutation_length (JS.sort_permutation E _ _)). apply length_map.
  - apply Nat.ltb_ge in L.
    repeat split; auto using JS.sort_permutation; try (intros; exfalso; congruence || lia).
    rewrite (Permutation_length (JS.sort_permutation E _ _)). apply length_map.
Qed.

(** C3: the reconciler settles on one of the two layouts, the frames
    subdirectory exactly when it lists strictly more recognized frame files
    than the root, and the root otherwise, ties and two empty listings
    included; the frames of the manifest are those of the chosen directory.
    It returns a manifest for every tree but one where the frames
    subdirectory, the root or the sounds subdirectory is a regular file:
    there the listing throws. *)
Theorem reconciler_chooses_larger_layout
    (E : JS.Engine) (outputDir : string) (fs : filesystem) :
  Path.join outputDir "frames" <> outputDir /\
  (forall p, first_file fs (listedByReconciler outputDir) = Some p ->
     analyzeExtractedContent E outputDir fs = (Thrown (notADirectory p), fs)) /\
  (first_file fs (listedByReconciler outputDir) = None ->
     exists m, analyzeExtractedContent E outputDir fs = (Returned m, fs)) /\
  (forall m, analyzeExtractedContent E outputDir fs = (Returned m, fs) ->
     (framesDir m = Path.join outputDir "frames" \/ framesDir m = outputDir) /\
     (framesDir m = Path.join outputDir "frames" <->
      (length (recognized fs outputDir) <
       length (recognized fs (Path.join outputDir "frames")))%nat) /\
     Permutation (frameFiles m)
       (map (Path.join (framesDir m)) (recognized fs (framesDir m))) /\
     frameCount m = length (recognized fs (framesDir m))).
Proof.
  rewrite analyzeExtractedContent_run.
  split; [apply frames_dir_differs|].
  destruct (first_file fs (listedByReconciler outputDir)) as [p|].
  - split; [intros q [= <-]; reflexivity|]. split; [discriminate|]. intros m [=].
  - split; [discriminate|]. split; [intros _; eexists; reflexivity|].
    intros m [= <-]. apply manifest_of_layout.
Qed.

(** C9: two runs of the reconciler in succession on one tree end alike and
    leave the tree as it was: they return the same manifest, directory,
    ordered frames, audio and count alike, or the first one throws, as a
    second one would. *)
Theorem reconciler_idempotent (E : JS.Engine) (outputDir : string) (fs : filesystem) :
  exists once,
    analyzeExtractedContent E outputDir fs = (once, fs) /\
    analyzeTwice E outputDir fs =
      (match once with
       | Returned m => Returned (m, m)
       | Thrown e => Thrown e
       end, fs) /\
    (is_thrown once = false <-> first_file fs (listedByReconciler outputDir) = None).
Proof.
  eexists. split; [apply analyzeExtractedContent_run|].
  unfold analyzeTwice, mbind, FsM_bind.
  rewrite analyzeExtractedContent_run.
  destruct (first_file fs (listedByReconciler outputDir)) eqn:F; cbv beta iota.
  - split; [reflexivity|]. split; discriminate.
  - rewrite analyzeExtractedContent_run, F. split; [reflexivity|]. split; reflexivity.
Qed.

(** *** Names that are decimal numerals *)

Lemma append_cons (c : ascii) (s t : string) : String c s ++ t = String c (s ++ t).
Proof. reflexivity. Qed.

Lemma append_empty (s : string) : s ++ "" = s.
Proof.
  induction s as [|c s IH]; [reflexivity|]. now rewrite append_cons, IH.
Qed.

Lemma parse_digits_uint_acc (d : Decimal.uint) (acc : positive) :
  JS.parse_digits (Z.pos acc) (NilEmpty.string_of_uint d) = Z.pos (Pos.of_uint_acc d acc).
Proof.
  revert acc. induction d as [|d IH|d IH|d IH|d IH|d IH|d IH|d IH|d IH|d IH|d IH];
    intros acc; [reflexivity|..];
    cbn [NilEmpty.string_of_uint JS.parse_digits Pos.of_uint_acc];
    rewrite <- IH; f_equal;
    match goal with
    | |- context [JS.digit_value ?c] =>
        let v := eval vm_compute in (JS.digit_value c) in
        change (JS.digit_value c) with v
    end; lia.
Qed.

Lemma parse_digits_uint (d : Decimal.uint) :
  JS.parse_digits 0 (NilEmpty.string_of_uint d) = Z.of_N (Pos.of_uint d).
Proof.
  induction d as [|d IH|d IH|d IH|d IH|d IH|d IH|d IH|d IH|d IH|d IH];
    [reflexivity|exact IH|..];
    cbn [NilEmpty.string_of_uint JS.parse_digits Pos.of_uint];
    apply (parse_digits_uint_acc d).
Qed.

Lemma take_digits_uint (d : Decimal.uint) (rest : string) :
  JS.take_digits (NilEmpty.string_of_uint d ++ rest) =
  NilEmpty.string_of_uint d ++ JS.take_digits rest.
Proof.
  induction d as [|d IH|d IH|d IH|d IH|d IH|d IH|d IH|d IH|d IH|d IH];
    [reflexivity|..];
    cbn [NilEmpty.string_of_uint]; simpl; now rewrite IH.
Qed.

Lemma after_last_slash_uint (d : Decimal.uint) (acc rest : string) :
  Path.after_last_slash acc (NilEmpty.string_of_uint d ++ rest) =
  Path.after_last_slash acc rest.
Proof.
  induction d as [|d IH|d IH|d IH|d IH|d IH|d IH|d IH|d IH|d IH|d IH];
    [reflexivity|..]; cbn [NilEmpty.string_of_uint]; simpl; exact IH.
Qed.

Lemma toLowerCase_uint (d : Decimal.uint) (rest : string) :
  JS.toLowerCase (NilEmpty.string_of_uint d ++ rest) =
  NilEmpty.string_of_uint d ++ JS.toLowerCase rest.
Proof.
  induction d as [|d IH|d IH|d IH|d IH|d IH|d IH|d IH|d IH|d IH|d IH];
    [reflexivity|..]; cbn [NilEmpty.string_of_uint]; simpl; now rewrite IH.
Qed.

Lemma after_last_slash_append (acc dir name : string) :
  Path.after_last_slash acc (dir ++ "/" ++ name) = Path.after_last_slash name name.
Proof.
  revert acc. induction dir as [|c dir IH]; intros acc.
  - reflexivity.
  - rewrite append_cons. simpl. destruct (Ascii.eqb c "/"); apply IH.
Qed.

Lemma basename_join (dir name : string) :
  Path.basename (Path.join dir name) = Path.basename name.
Proof.
  unfold Path.basename, Path.join.
  destruct (String.eqb dir "" || String.eqb dir "."); [reflexivity|].
  destruct (String.eqb dir "/"); [reflexivity|].
  apply after_last_slash_append.
Qed.

Lemma substring_whole (t : string) : substring 0 (String.length t) t = t.
Proof. induction t as [|c t IH]; simpl; [reflexivity|now rewrite IH]. Qed.

Lemma substring_suffix (s t : string) :
  substring (String.length s) (String.length t) (s ++ t) = t.
Proof. induction s as [|c s IH]; simpl; [apply substring_whole|exact IH]. Qed.

Lemma endsWith_append (s suffix : string) : JS.endsWith (s ++ suffix) suffix = true.
Proof.
  unfold JS.endsWith. rewrite length_append.
  replace (String.length s + String.length suffix - String.length suffix)%nat
    with (String.length s) by lia.
  rewrite substring_suffix, String.eqb_refl, andb_true_r.
  apply Nat.leb_le. lia.
Qed.

(** the numeral of a natural number: a run of digits that reads back *)
Lemma toString_nat (i : nat) :
  exists d, Num.toString (Z.of_nat i) = NilEmpty.string_of_uint d /\
            d <> Decimal.Nil /\ Z.of_N (Pos.of_uint d) = Z.of_nat i.
Proof.
  unfold Num.toString. destruct (Z.of_nat i) as [|p|p] eqn:E; try lia.
  - exists (Decimal.D0 Decimal.Nil). repeat split. discriminate.
  - exists (Pos.to_uint p). repeat split.
    + apply DecimalPos.Unsigned.to_uint_nonnil.
    + now rewrite DecimalPos.Unsigned.of_to.
Qed.

Lemma frame_name_png (i : nat) : isPng (frame_name i) = true.
Proof.
  unfold isPng, frame_name. destruct (toString_nat i) as (d & -> & _ & _).
  rewrite toLowerCase_uint. apply endsWith_append.
Qed.

Lemma frame_name_number (dir : string) (i : nat) :
  Z.of_nat i < 2 ^ 53 -> numbered (Path.join dir (frame_name i)) (Z.of_nat i).
Proof.
  intros Hi. unfold numbered, frameNumber. rewrite basename_join.
  unfold Path.basename, frame_name. destruct (toString_nat i) as (d & -> & Hd & Hv).
  rewrite after_last_slash_uint. simpl Path.after_last_slash.
  assert (Hm : JS.match_digits (NilEmpty.string_of_uint d ++ ".png") =
               Some (NilEmpty.string_of_uint d)).
  { pose proof (take_digits_uint d ".png") as Ht.
    destruct d; try congruence;
      cbn [NilEmpty.string_of_uint] in *; simpl in *;
      rewrite Ht, append_empty; reflexivity. }
  rewrite Hm. simpl. f_equal.
  rewrite parseInt_small; rewrite parse_digits_uint, Hv; [reflexivity | lia].
Qed.

(** *** A sorted list is determined by its elements *)

Lemma sorted_permutation_unique {A : Type} (R : A -> A -> Prop) (l1 l2 : list A) :
  StronglySorted R l1 ->
  StronglySorted (fun a b => ~ R b a) l2 ->
  Permutation l1 l2 -> l1 = l2.
Proof.
  intros H1. revert l2. induction H1 as [|x l1 Hs1 IH Hx]; intros l2 H2 Hp.
  - now apply Permutation_nil in Hp.
  - destruct l2 as [|y l2]; [apply Permutation_sym, Permutation_nil in Hp; discriminate|].
    inversion H2 as [|? ? Hs2 Hy]; subst.
    rewrite List.Forall_forall in Hx, Hy.
    assert (Hxy : x = y).
    { assert (Hin1 : In x (y :: l2)) by (apply (Permutation_in _ Hp); now left).
      assert (Hin2 : In y (x :: l1))
        by (apply (Permutation_in _ (Permutation_sym Hp)); now left).
      destruct Hin1 as [->|Hin1]; [reflexivity|].
      destruct Hin2 as [->|Hin2]; [reflexivity|].
      exfalso. apply (Hy x Hin1). now apply Hx. }
    subst y. f_equal. apply IH; [assumption|].
    now apply Permutation_cons_inv in Hp.
Qed.

Lemma sequential_frames_strict (E : JS.Engine) (dir : string) (N : nat) :
  Z.of_nat N < 2 ^ 53 ->
  StronglySorted (fun a b => ~ frame_order E b a) (sequential_frames dir N).
Proof.
  intros HN. unfold sequential_frames.
  assert (H : forall start n, (start + n <= S N)%nat ->
            StronglySorted (fun a b => ~ frame_order E b a)
              (map (fun i => Path.join dir (frame_name i)) (seq start n))).
  { intros start n. revert start.
    induction n as [|n IH]; intros start Hb; simpl; constructor; [apply IH; lia|].
    rewrite List.Forall_forall. intros p Hp.
    apply in_map_iff in Hp as (j & <- & Hj). apply in_seq in Hj.
    unfold frame_order.
    pose proof (frame_name_number dir j ltac:(lia)) as Hj'.
    pose proof (frame_name_number dir start ltac:(lia)) as Hs'.
    unfold numbered in *. rewrite Hj', Hs'. lia. }
  apply H. lia.
Qed.

Lemma sort_sequential (E : JS.Engine) (dir : string) (N : nat) (l : list string) :
  Z.of_nat N < 2 ^ 53 ->
  Permutation l (sequential_frames dir N) ->
  JS.sort E (compareFrames E) l = sequential_frames dir N.
Proof.
  intros HN Hl.
  assert (Hseq : Permutation (JS.sort E (compareFrames E) l) (sequential_frames dir N))
    by (rewrite JS.sort_permutation; exact Hl).
  apply (sorted_permutation_unique (frame_order E));
    [|apply sequential_frames_strict; exact HN|exact Hseq].
  apply sort_frames_uniform. left. rewrite List.Forall_forall. intros p Hp.
  apply (Permutation_in _ Hl), in_map_iff in Hp as (j & <- & Hj). apply in_seq in Hj.
  exists (Z.of_nat j). apply frame_name_number. lia.
Qed.

(** *** Names with and without digits *)

Lemma consistent_flip_negative {A : Type} (compareFn : A -> A -> JS.sign) (l : list A) (a b : A) :
  JS.consistent_on compareFn l -> In a l -> In b l ->
  compareFn a b = JS.Negative -> compareFn b a = JS.Positive.
Proof.
  intros Hc Ha Hb H.
  destruct (Hc a b a Ha Hb Ha) as (_ & Hr & _ & _ & Hneg & _).
  destruct (Hc b a b Hb Ha Hb) as (Hn & _ & Hs & _).
  destruct (compareFn b a) eqn:E; try reflexivity.
  - rewrite (Hneg H eq_refl) in Hr. discriminate.
  - rewrite (Hs eq_refl) in H. discriminate.
  - contradiction.
Qed.

Lemma localeCompare_flip (E : JS.Engine) (a b : string) :
  JS.localeCompare E a b < 0 -> 0 < JS.localeCompare E b a.
Proof.
  intros H. apply sign_of_positive.
  apply (consistent_flip_negative (fun a b => JS.sign_of (JS.localeCompare E a b)) [a; b] a b
           (JS.localeCompare_consistent E [a; b])); simpl; auto.
  apply sign_of_negative. exact H.
Qed.

(** C4 fails on the code: with a10.png, b.png and c2.png in the root, and a
    collation that puts a10.png before b.png before c2.png, the comparator
    of the frames is not a consistent one, the order of the manifest is left
    to the engine, and no order of the three paths is ascending in the sense
    of the claim. *)
Theorem mixed_names_are_not_sorted (E : JS.Engine) :
  JS.localeCompare E "out/a10.png" "out/b.png" < 0 ->
  JS.localeCompare E "out/b.png" "out/c2.png" < 0 ->
  exists m,
    analyzeExtractedContent E "out" mixed_fs = (Returned m, mixed_fs) /\
    Permutation (frameFiles m) ["out/a10.png"; "out/b.png"; "out/c2.png"] /\
    ~ JS.consistent_on (compareFrames E) ["out/a10.png"; "out/b.png"; "out/c2.png"] /\
    ~ StronglySorted (frame_order E) (frameFiles m) /\
    (forall l, Permutation l (frameFiles m) -> ~ StronglySorted (frame_order E) l).
Proof.
  intros Hab Hbc.
  assert (Na : numbered "out/a10.png" 10) by (vm_compute; reflexivity).
  assert (Nb : frameNumber "out/b.png" = None) by (vm_compute; reflexivity).
  assert (Nc : numbered "out/c2.png" 2) by (vm_compute; reflexivity).
  assert (H1 : ~ frame_order E "out/a10.png" "out/c2.png").
  { unfold frame_order. unfold numbered in Na, Nc. rewrite Na, Nc. lia. }
  assert (H2 : ~ frame_order E "out/b.png" "out/a10.png").
  { unfold frame_order. rewrite Nb. apply localeCompare_flip in Hab. lia. }
  assert (H3 : ~ frame_order E "out/c2.png" "out/b.png").
  { unfold frame_order. unfold numbered in Nc. rewrite Nc, Nb.
    apply localeCompare_flip in Hbc. lia. }
  exists (manifest_of E "out" mixed_fs).
  assert (Hperm : Permutation (frameFiles (manifest_of E "out" mixed_fs))
                    ["out/a10.png"; "out/b.png"; "out/c2.png"]).
  { unfold manifest_of.
    assert (R0 : recognized mixed_fs (Path.join "out" "frames") = [])
      by (vm_compute; reflexivity).
    assert (R1 : recognized mixed_fs "out" = ["a10.png"; "b.png"; "c2.png"])
      by (vm_compute; reflexivity).
    rewrite R0, R1. cbn [length Nat.ltb Nat.leb frameFiles fst snd map].
    rewrite JS.sort_permutation. reflexivity. }
  assert (Hall : forall l, Permutation l (frameFiles (manifest_of E "out" mixed_fs)) ->
                   ~ StronglySorted (frame_order E) l).
  { intros l Hl Hs. rewrite Hperm in Hl.
    assert (Hlen := Permutation_length Hl). simpl in Hlen.
    destruct l as [|x [|y [|z [|? ?]]]]; try discriminate.
    inversion Hs as [|? ? Hs' Hx]; subst.
    inversion Hx as [|? ? Hxy Hx']; subst. inversion Hx' as [|? ? Hxz _]; subst.
    inversion Hs' as [|? ? _ Hy]; subst. inversion Hy as [|? ? Hyz _]; subst.
    assert (Hin : forall p, In p ["out/a10.png"; "out/b.png"; "out/c2.png"] -> In p [x; y; z])
      by (intros p; apply Permutation_in; now symmetry).
    pose proof (Hin "out/a10.png" ltac:(simpl; auto)) as Ha.
    pose proof (Hin "out/b.png" ltac:(simpl; auto)) as Hb.
    pose proof (Hin "out/c2.png" ltac:(simpl; auto)) as Hc.
    simpl in Ha, Hb, Hc.
    destruct Ha as [Ha|[Ha|[Ha|[]]]]; subst;
      destruct Hb as [Hb|[Hb|[Hb|[]]]]; try discriminate Hb; subst;
      destruct Hc as [Hc|[Hc|[Hc|[]]]]; try discriminate Hc; subst; tauto. }
  split.
  { rewrite analyzeExtractedContent_run.
    assert (F : first_file mixed_fs (listedByReconciler "out") = None)
      by (vm_compute; reflexivity).
    rewrite F. reflexivity. }
  split; [exact Hperm|]. split; [|split; [apply Hall; reflexivity | exact Hall]].
  intros Hc.
  destruct (Hc "out/a10.png" "out/b.png" "out/c2.png") as (_ & _ & _ & _ & Hneg & _);
    simpl; auto.
  rewrite (compareFrames_unnumbered_r E _ _ Nb), (compareFrames_unnumbered E _ _ Nb),
    (compareFrames_numbered E _ _ _ _ Na Nc) in Hneg.
  rewrite !sign_of_negative in Hneg. specialize (Hneg Hab Hbc). lia.
Qed.

Lemma mixed_names_are_not_sorted_witness :
  exists m,
    analyzeExtractedContent sample_engine "out" mixed_fs = (Returned m, mixed_fs) /\
    Permutation (frameFiles m) ["out/a10.png"; "out/b.png"; "out/c2.png"] /\
    ~ JS.consistent_on (compareFrames sample_engine)
        ["out/a10.png"; "out/b.png"; "out/c2.png"] /\
    ~ StronglySorted (frame_order sample_engine) (frameFiles m) /\
    (forall l, Permutation l (frameFiles m) ->
       ~ StronglySorted (frame_order sample_engine) l).
Proof.
  apply (mixed_names_are_not_sorted sample_engine); vm_compute; reflexivity.
Defined.

(** ** The timeout of the decompiler *)

Lemma gtb_true (x y : Q) : Num.gtb x y = true <-> (y < x)%Q.
Proof.
  unfold Num.gtb. rewrite negb_true_iff, <- not_true_iff_false, Qle_bool_iff.
  split; [apply Qnot_le_lt|apply Qlt_not_le].
Qed.

Lemma gtb_false (x y : Q) : Num.gtb x y = false <-> (x <= y)%Q.
Proof. unfold Num.gtb. now rewrite negb_false_iff, Qle_bool_iff. Qed.





(** ** The supervision of the decompiler *)

Lemma is_close_dispatch (e : child_event) :
  is_close (Child e) = match dispatch e with OnClose => true | _ => false end.
Proof.
  destruct e; simpl; try reflexivity.
  - destruct (_ || _); reflexivity.
  - destruct (JS.includes _ _); reflexivity.
Qed.

Lemma resolve_settled (p : promise_state) : p <> Pending -> resolve p = p.
Proof. destruct p; [congruence|reflexivity|reflexivity]. Qed.

Lemma settled_stays (minutes : jsnumber) (timeline : list tick) (s : supervision) :
  timerArmed s = false -> promise s <> Pending ->
  let s' := foldl (supervision_step minutes) s timeline in
  promise s' = promise s /\ timerArmed s' = false /\
  jpexsSucceeded s' = jpexsSucceeded s || existsb is_close timeline /\
  effects s' = effects s.
Proof.
  revert s. induction timeline as [|t timeline IH]; intros s Ht Hp.
  - simpl. now rewrite orb_false_r.
  - change (foldl (supervision_step minutes) s (t :: timeline))
      with (foldl (supervision_step minutes) (supervision_step minutes s t) timeline).
    change (existsb is_close (t :: timeline))
      with (is_close t || existsb is_close timeline).
    cbv zeta in *.
    destruct t as [e|].
    + rewrite is_close_dispatch.
      change (supervision_step minutes s (Child e)) with (onCallback (dispatch e) s).
      destruct (dispatch e); unfold onCallback.
      * now apply IH.
      * match goal with |- context [foldl _ ?r _] =>
          destruct (IH r) as (H1 & H2 & H3 & H4) end;
          [reflexivity|simpl; now rewrite resolve_settled|].
        rewrite H1, H2, H3, H4. simpl. now rewrite resolve_settled.
      * match goal with |- context [foldl _ ?r _] =>
          destruct (IH r) as (H1 & H2 & H3 & H4) end;
          [reflexivity|simpl; now rewrite resolve_settled|].
        rewrite H1, H2, H3, H4. simpl.
        rewrite resolve_settled by assumption. now rewrite orb_true_r.
    + change (supervision_step minutes s TimerFires) with (onTimeout minutes s).
      unfold onTimeout. rewrite Ht. now apply IH.
Qed.

Lemma pending_settles (minutes : jsnumber) (timeline : list tick) (s : supervision) :
  timerArmed s = true -> promise s = Pending -> effects s = [] ->
  let s' := foldl (supervision_step minutes) s (timeline ++ [TimerFires])%list in
  promise s' =
    (if timed_out timeline then Rejected (TimeoutError minutes) else Resolved) /\
  jpexsSucceeded s' = jpexsSucceeded s || existsb is_close timeline /\
  effects s' =
    (if timed_out timeline then [Kill "SIGTERM"; ArmEscalation 5000] else []).
Proof.
  revert s. induction timeline as [|t timeline IH]; intros s Ht Hp Hsig.
  - simpl. unfold onTimeout. rewrite Ht, Hp, Hsig. simpl. now rewrite orb_false_r.
  - change (foldl (supervision_step minutes) s ((t :: timeline) ++ [TimerFires]))
      with (foldl (supervision_step minutes) (supervision_step minutes s t)
              (timeline ++ [TimerFires])).
    change (existsb is_close (t :: timeline))
      with (is_close t || existsb is_close timeline).
    cbv zeta in *.
    assert (Hlast : forall l, existsb is_close (l ++ [TimerFires]) = existsb is_close l)
      by (intros l; rewrite existsb_app; simpl; now rewrite orb_false_r).
    destruct t as [e|].
    + rewrite is_close_dispatch.
      change (supervision_step minutes s (Child e)) with (onCallback (dispatch e) s).
      change (timed_out (Child e :: timeline))
        with (match dispatch e with OnStdout _ => timed_out timeline | _ => false end).
      destruct (dispatch e); unfold onCallback.
      * now apply IH.
      * match goal with |- context [foldl _ ?r _] =>
          destruct (settled_stays minutes (timeline ++ [TimerFires]) r)
            as (H1 & _ & H3 & H4) end;
          [reflexivity|simpl; rewrite Hp; discriminate|].
        rewrite H1, H3, H4. simpl. now rewrite Hp, Hlast.
      * match goal with |- context [foldl _ ?r _] =>
          destruct (settled_stays minutes (timeline ++ [TimerFires]) r)
            as (H1 & _ & H3 & H4) end;
          [reflexivity|simpl; rewrite Hp; discriminate|].
        rewrite H1, H3, H4. simpl. rewrite Hp. now rewrite orb_true_r.
    + change (supervision_step minutes s TimerFires) with (onTimeout minutes s).
      unfold onTimeout. rewrite Ht.
      match goal with |- context [foldl _ ?r _] =>
        destruct (settled_stays minutes (timeline ++ [TimerFires]) r)
          as (H1 & _ & H3 & H4) end;
        [reflexivity|simpl; rewrite Hp; discriminate|].
      rewrite H1, H3, H4. simpl. now rewrite Hp, Hsig, Hlast.
Qed.

(** ** [extractSWF] *)

Lemma hasPngIn_run (dir : string) (fs : filesystem) :
  hasPngIn dir fs =
  (if is_file fs dir then Thrown (notADirectory dir)
   else Returned (0 <? length (recognized fs dir))%nat, fs).
Proof.
  unfold hasPngIn, recognized, mbind, FsM_bind, Fs.existsSync, Fs.readdirSync, mret, FsM_ret,
    is_file, entries_of, notADirectory.
  destruct (fs !! dir) as [[|entries]|] eqn:E.
  - rewrite bool_decide_eq_true_2 by eauto. cbv beta. rewrite E. reflexivity.
  - rewrite bool_decide_eq_true_2 by eauto. cbv beta. rewrite E. reflexivity.
  - rewrite bool_decide_eq_false_2 by (intros [? ?]; discriminate). reflexivity.
Qed.

Lemma hasFrames_run (outputDir : string) (fs : filesystem) :
  hasFrames outputDir fs =
  (if is_file fs (Path.join outputDir "frames")
   then Thrown (notADirectory (Path.join outputDir "frames"))
   else if is_file fs outputDir then Thrown (notADirectory outputDir)
   else Returned (framesOnDisk fs outputDir), fs).
Proof.
  unfold hasFrames, framesOnDisk. cbv zeta.
  unfold mbind at 1. unfold FsM_bind. rewrite hasPngIn_run.
  destruct (is_file fs (Path.join outputDir "frames")); [reflexivity|].
  unfold mbind at 1. unfold FsM_bind. rewrite hasPngIn_run.
  destruct (is_file fs outputDir); reflexivity.
Qed.

Lemma finalTimeoutMinutes_thrown
    (timeoutMinutes : option jsnumber) (w : World) (swfFile : string) :
  is_thrown (finalTimeoutMinutes timeoutMinutes (statSync w swfFile)) =
  sizeUnreadable timeoutMinutes w.
Proof.
  unfold finalTimeoutMinutes, sizeUnreadable, overridden, sourcePresent, statSync.
  destruct (swfSize w) as [size|].
  - rewrite bool_decide_eq_true_2 by eauto.
    destruct timeoutMinutes as [n|]; [destruct (Num.truthy n)|]; reflexivity.
  - rewrite bool_decide_eq_false_2 by (intros [? ?]; discriminate).
    destruct timeoutMinutes as [n|]; [destruct (Num.truthy n)|]; reflexivity.
Qed.

(** the run of [extractSWF], case by case *)
Lemma extractSWF_run
    (swfFile outputDir : string) (testFrames : option Z)
    (timeoutMinutes : option jsnumber) (w : World) :
  extractSWF swfFile outputDir testFrames timeoutMinutes w =
  match finalTimeoutMinutes timeoutMinutes (statSync w swfFile) with
  | Thrown e => (Thrown e, [])
  | Returned minutes =>
      let st :=
        extractSWFContent (jarPath w)
          {| swfFile := swfFile; outputDir := outputDir; testFrames := testFrames |}
          (sourcePresent w) (mkdirFailure w) in
      match st with
      | SetupThrew e => (Thrown e, [])
      | _ =>
          if decompilerTimedOut w
          then (Thrown (TimeoutError minutes),
                (spawn_log st ++ [JavaSignalled "SIGTERM"; EscalationArmed 5000])%list)
          else if is_file (disk w) (Path.join outputDir "sounds")
          then (Thrown (notADirectory (Path.join outputDir "sounds")), spawn_log st)
          else
            (if is_file (disk w) (Path.join outputDir "frames")
             then Thrown (notADirectory (Path.join outputDir "frames"))
             else if is_file (disk w) outputDir then Thrown (notADirectory outputDir)
             else if negb (decompilerClosed w) && negb (framesOnDisk (disk w) outputDir)
             then Thrown noFramesError else Returned tt,
             (spawn_log st ++ AudioFallbackCalled swfFile outputDir ::
                (extractAudioWithFFmpeg swfFile outputDir w).2)%list)
      end
  end.
Proof.
  unfold extractSWF, decompilerTimedOut, decompilerClosed, childSpawned.
  destruct (finalTimeoutMinutes _ _) as [minutes|e]; [|reflexivity].
  fold (sourcePresent w). cbv zeta.
  unfold extractSWFContent. destruct (sourcePresent w); simpl negb; cbv iota.
  - destruct (mkdirFailure w) as [message|] eqn:M.
    + reflexivity.
    + rewrite bool_decide_eq_false_2 by (intros [? ?]; discriminate).
      unfold supervise.
      destruct (pending_settles minutes (timeline w) supervision_start)
        as (Hp & Hj & Hs); try reflexivity.
      cbv zeta in Hp, Hj, Hs. rewrite Hp, Hj, Hs. simpl andb.
      destruct (timed_out (timeline w)); [reflexivity|].
      rewrite listing_run.
      destruct (is_file (disk w) (Path.join outputDir "sounds")); [reflexivity|].
      rewrite hasFrames_run. simpl.
      destruct (extractAudioWithFFmpeg swfFile outputDir w) as [r audioLog]. simpl.
      destruct (is_file (disk w) (Path.join outputDir "frames")); [reflexivity|].
      destruct (is_file (disk w) outputDir); [reflexivity|].
      destruct (negb _ && negb _); reflexivity.
  - simpl. rewrite listing_run.
    destruct (is_file (disk w) (Path.join outputDir "sounds")); [reflexivity|].
    rewrite hasFrames_run.
    destruct (extractAudioWithFFmpeg swfFile outputDir w) as [r audioLog]. simpl.
    destruct (is_file (disk w) (Path.join outputDir "frames")); [reflexivity|].
    destruct (is_file (disk w) outputDir); [reflexivity|].
    destruct (negb _); reflexivity.
Qed.

Lemma first_file_listed (fs : filesystem) (outputDir : string) :
  is_Some (first_file fs (listedByExtraction outputDir)) <->
  is_file fs (Path.join outputDir "sounds") = true \/
  is_file fs (Path.join outputDir "frames") = true \/
  is_file fs outputDir = true.
Proof.
  unfold first_file, listedByExtraction. cbn [List.find].
  destruct (is_file fs (Path.join outputDir "sounds")); [split; eauto|].
  destruct (is_file fs (Path.join outputDir "frames")); [split; eauto|].
  destruct (is_file fs outputDir); [split; eauto|].
  split; [intros [? ?]; discriminate | intros [?|[?|?]]; discriminate].
Qed.

(** C1, as amended: a run of [extractSWF] throws exactly when the size of
    the source is needed for the timeout and cannot be read, or a directory
    of the output cannot be made, or the timer fires before the decompiler
    reports an error or closes (whatever is on disk), or a regular file
    stands where the run lists a directory, or the decompiler has not closed
    by the frames check and no frame file is on disk.  A fatal error of the
    decompiler with a frame on disk is a success. *)
Theorem extractSWF_throws_iff
    (swfFile outputDir : string) (testFrames : option Z)
    (timeoutMinutes : option jsnumber) (w : World) :
  is_thrown (extractSWF swfFile outputDir testFrames timeoutMinutes w).1 = true <->
  sizeUnreadable timeoutMinutes w = true \/
  setupFails w = true \/
  decompilerTimedOut w = true \/
  is_Some (first_file (disk w) (listedByExtraction outputDir)) \/
  (decompilerClosed w = false /\ framesOnDisk (disk w) outputDir = false).
Proof.
  rewrite first_file_listed, extractSWF_run.
  pose proof (finalTimeoutMinutes_thrown timeoutMinutes w swfFile) as Hsize.
  destruct (finalTimeoutMinutes _ _) as [minutes|e]; simpl in Hsize; rewrite <- Hsize;
    [|simpl; tauto].
  cbv zeta. unfold setupFails, decompilerTimedOut, decompilerClosed, childSpawned,
    extractSWFContent.
  destruct (sourcePresent w); simpl negb; cbv iota.
  - destruct (mkdirFailure w) as [message|].
    + rewrite bool_decide_eq_true_2 by eauto. simpl. tauto.
    + rewrite bool_decide_eq_false_2 by (intros [? ?]; discriminate). simpl andb.
      destruct (timed_out (timeline w)); simpl; [tauto|].
      destruct (is_file (disk w) (Path.join outputDir "sounds")); simpl; [tauto|].
      destruct (is_file (disk w) (Path.join outputDir "frames")); simpl; [tauto|].
      destruct (is_file (disk w) outputDir); simpl; [tauto|].
      destruct (existsb is_close (timeline w)), (framesOnDisk (disk w) outputDir); simpl;
        intuition discriminate.
  - simpl andb.
    destruct (is_file (disk w) (Path.join outputDir "sounds")); simpl; [tauto|].
    destruct (is_file (disk w) (Path.join outputDir "frames")); simpl; [tauto|].
    destruct (is_file (disk w) outputDir); simpl; [tauto|].
    destruct (framesOnDisk (disk w) outputDir); simpl; intuition discriminate.
Qed.

(** C1, as stated, fails: the timer fires while a frame is on disk, and the
    run throws although frames exist. *)
Lemma timeout_throws_despite_frames :
  (extractSWF "a.swf" "out" None None hung_world).1 =
    Thrown (TimeoutError (JsNum (inject_Z 12))) /\
  decompilerClosed hung_world = false /\
  framesOnDisk (disk hung_world) "out" = true /\
  ~ (is_thrown (extractSWF "a.swf" "out" None None hung_world).1 = true <->
     decompilerClosed hung_world = false /\
     framesOnDisk (disk hung_world) "out" = false).
Proof.
  assert (H : (extractSWF "a.swf" "out" None None hung_world).1 =
              Thrown (TimeoutError (JsNum (inject_Z 12))))
    by (vm_compute; reflexivity).
  assert (Hf : framesOnDisk (disk hung_world) "out" = true)
    by (vm_compute; reflexivity).
  repeat split; auto.
  rewrite H, Hf. simpl. intros [Hi _]. destruct (Hi eq_refl). discriminate.
Qed.

Lemma spawn_log_kinds (st : started) :
  Forall (fun a => is_spawn a = true) (spawn_log st).
Proof. destruct st; repeat constructor. Qed.






(** ** The frame-rate probe *)

Lemma append_assoc (s t u : string) : (s ++ t) ++ u = s ++ (t ++ u).
Proof.
  induction s as [|c s IH]; [reflexivity|]. now rewrite !append_cons, IH.
Qed.

Lemma take_drop_digits (s : string) : JS.take_digits s ++ JS.drop_digits s = s.
Proof.
  induction s as [|c s IH]; [reflexivity|]. simpl.
  destruct (JS.is_digit c); [|reflexivity]. now rewrite append_cons, IH.
Qed.

Lemma take_digits_idem (s : string) : JS.take_digits (JS.take_digits s) = JS.take_digits s.
Proof.
  induction s as [|c s IH]; [reflexivity|]. simpl.
  destruct (JS.is_digit c) eqn:E; [|reflexivity]. simpl. now rewrite E, IH.
Qed.

Lemma take_drop_spaces (s : string) : take_spaces s ++ Probe.drop_spaces s = s.
Proof.
  induction s as [|c s IH]; [reflexivity|]. simpl.
  destruct (JS.is_space c); [|reflexivity]. now rewrite append_cons, IH.
Qed.

Lemma take_spaces_idem (s : string) : take_spaces (take_spaces s) = take_spaces s.
Proof.
  induction s as [|c s IH]; [reflexivity|]. simpl.
  destruct (JS.is_space c) eqn:E; [|reflexivity]. simpl. now rewrite E, IH.
Qed.

Lemma prefix_append (marker t : string) :
  String.prefix marker t = true -> exists post, t = marker ++ post.
Proof.
  revert t. induction marker as [|c marker IH]; intros t H.
  - now exists t.
  - destruct t as [|c' t]; [discriminate|]. simpl in H.
    destruct (ascii_dec c c') as [->|]; [|discriminate].
    destruct (IH t H) as [post ->]. now exists post.
Qed.

Lemma prefix_of_append (marker post : string) : String.prefix marker (marker ++ post) = true.
Proof.
  induction marker as [|c marker IH]; [now destruct post|].
  rewrite append_cons. simpl. destruct (ascii_dec c c); [exact IH|congruence].
Qed.

Lemma digits_prefix (s : string) : JS.take_digits s <> "" -> digits (JS.take_digits s).
Proof. intros H. split; [exact H|apply take_digits_idem]. Qed.

Lemma marker_follows_sound (marker s : string) :
  Probe.marker_follows marker s = true ->
  exists ws post, spaces ws /\ s = ws ++ marker ++ post.
Proof.
  unfold Probe.marker_follows. destruct s as [|c s]; [discriminate|].
  intros H. apply andb_true_iff in H as [Hc Hp].
  apply prefix_append in Hp as [post Hpost].
  exists (take_spaces (String c s)), post. split.
  - split; [simpl; rewrite Hc; discriminate|apply take_spaces_idem].
  - rewrite <- Hpost. symmetry. apply take_drop_spaces.
Qed.

Lemma match_here_sound (marker s m : string) :
  Probe.match_here marker s = Some m -> marked_at marker s m.
Proof.
  unfold Probe.match_here.
  destruct (String.eqb (JS.take_digits s) "") eqn:Hw; [discriminate|].
  apply String.eqb_neq in Hw.
  pose proof (take_drop_digits s) as Hs.
  assert (Hplain :
    (if Probe.marker_follows marker (JS.drop_digits s) then Some (JS.take_digits s) else None)
    = Some m -> marked_at marker s m).
  { destruct (Probe.marker_follows marker (JS.drop_digits s)) eqn:Hf; [|discriminate].
    intros [= <-]. apply marker_follows_sound in Hf as (ws & post & Hws & Hrest).
    exists ws, post. split; [left; now apply digits_prefix|].
    split; [exact Hws|]. now rewrite <- Hrest. }
  destruct (JS.drop_digits s) as [|c r] eqn:Hrest; [exact Hplain|].
  destruct (Ascii.eqb c ".") eqn:Hdot.
  - apply Ascii.eqb_eq in Hdot. subst c.
    destruct (negb (String.eqb (JS.take_digits r) "") &&
              Probe.marker_follows marker (JS.drop_digits r)) eqn:Hfrac; [|exact Hplain].
    intros [= <-]. apply andb_true_iff in Hfrac as [Hf Hm].
    apply negb_true_iff, String.eqb_neq in Hf.
    apply marker_follows_sound in Hm as (ws & post & Hws & Hr).
    exists ws, post. split.
    + right. exists (JS.take_digits s), (JS.take_digits r).
      repeat split; auto using take_digits_idem.
    + split; [exact Hws|].
      rewrite <- Hs at 1. rewrite !append_assoc. f_equal.
      rewrite !append_cons. f_equal. change ("" ++ ?x) with x.
      rewrite <- Hr. symmetry. apply take_drop_digits.
  - destruct c as [[] [] [] [] [] [] [] []]; try discriminate Hdot; exact Hplain.
Qed.

Lemma digits_head (d : string) :
  JS.take_digits d = d -> forall t, JS.take_digits (d ++ t) = d ++ JS.take_digits t.
Proof.
  induction d as [|c d IH]; intros H t; [reflexivity|].
  simpl in H. rewrite append_cons. simpl.
  destruct (JS.is_digit c); [|discriminate].
  injection H as H. now rewrite IH.
Qed.

Lemma digits_dropped (d : string) :
  JS.take_digits d = d -> forall t, JS.drop_digits (d ++ t) = JS.drop_digits t.
Proof.
  induction d as [|c d IH]; intros H t; [reflexivity|].
  simpl in H. rewrite append_cons. simpl.
  destruct (JS.is_digit c); [|discriminate].
  injection H as H. now apply IH.
Qed.

Lemma spaces_dropped (ws : string) :
  take_spaces ws = ws -> forall t, Probe.drop_spaces (ws ++ t) = Probe.drop_spaces t.
Proof.
  induction ws as [|c ws IH]; intros H t; [reflexivity|].
  simpl in H. rewrite append_cons. simpl.
  destruct (JS.is_space c); [|discriminate].
  injection H as H. now apply IH.
Qed.

Lemma space_is_no_digit (c : ascii) : JS.is_space c = true -> JS.is_digit c = false.
Proof.
  destruct c as [[] [] [] [] [] [] [] []]; vm_compute; intros H;
    first [reflexivity | discriminate H].
Qed.

Lemma marker_follows_complete (marker ws post : string) (k : ascii) (tail : string) :
  marker = String k tail -> JS.is_space k = false -> spaces ws ->
  Probe.marker_follows marker (ws ++ marker ++ post) = true.
Proof.
  intros Hm Hk [Hne Hws]. unfold Probe.marker_follows.
  rewrite (spaces_dropped ws Hws).
  destruct ws as [|c ws]; [congruence|]. rewrite append_cons.
  simpl in Hws. destruct (JS.is_space c) eqn:Hc; [|discriminate]. simpl.
  replace (Probe.drop_spaces (marker ++ post)) with (marker ++ post)
    by (subst marker; rewrite append_cons; simpl; now rewrite Hk).
  apply prefix_of_append.
Qed.

Lemma spaces_start (ws t : string) :
  spaces ws ->
  JS.take_digits (ws ++ t) = "" /\ JS.drop_digits (ws ++ t) = ws ++ t.
Proof.
  intros [Hne Hws]. destruct ws as [|c ws]; [congruence|].
  simpl in Hws. destruct (JS.is_space c) eqn:Hc; [|discriminate].
  rewrite append_cons. simpl. now rewrite (space_is_no_digit c Hc).
Qed.

Lemma match_here_complete (marker rest m : string) (k : ascii) (tail : string) :
  marker = String k tail -> JS.is_space k = false ->
  marked_at marker rest m -> Probe.match_here marker rest = Some m.
Proof.
  intros Hm Hk (ws & post & Hnum & Hws & ->).
  pose proof (marker_follows_complete marker ws post k tail Hm Hk Hws) as Hfollow.
  destruct (spaces_start ws (marker ++ post) Hws) as (Htake & Hdrop).
  unfold Probe.match_here.
  destruct Hnum as [[Hne Hd]|(whole & frac & [Hwne Hw] & [Hfne Hf] & ->)].
  - rewrite (digits_head m Hd), (digits_dropped m Hd), Htake, Hdrop, append_empty.
    apply String.eqb_neq in Hne. rewrite Hne, Hfollow.
    destruct Hws as [Hwsne Hwseq]. destruct ws as [|c ws]; [congruence|].
    simpl in Hwseq. destruct (JS.is_space c) eqn:Hc; [|discriminate].
    rewrite append_cons.
    destruct c as [[] [] [] [] [] [] [] []]; try reflexivity; discriminate Hc.
  - rewrite !append_assoc.
    rewrite (digits_head whole Hw), (digits_dropped whole Hw).
    rewrite !append_cons. change ("" ++ ?x) with x.
    set (r := frac ++ ws ++ marker ++ post).
    change (JS.take_digits (String "." r)) with "".
    change (JS.drop_digits (String "." r)) with (String "." r).
    rewrite append_empty. apply String.eqb_neq in Hwne. rewrite Hwne. cbv iota.
    subst r.
    rewrite (digits_head frac Hf), (digits_dropped frac Hf), Htake, Hdrop, append_empty.
    apply String.eqb_neq in Hfne. rewrite Hfne, Hfollow. reflexivity.
Qed.

(** *** The matcher and the regular expression *)

Lemma is_space_codes (c : ascii) : JS.is_space c = true <-> In c space_codes.
Proof.
  unfold space_codes.
  destruct c as [[] [] [] [] [] [] [] []]; vm_compute;
    (split; [intros H; try discriminate H; tauto
            |intros H; try reflexivity;
             repeat (destruct H as [H|H]; [discriminate H|]); destruct H]).
Qed.

Lemma spaces_white (ws : string) : spaces ws <-> white_space ws.
Proof.
  unfold spaces, white_space.
  assert (H : take_spaces ws = ws <->
              List.Forall (fun c => In c space_codes) (list_ascii_of_string ws)).
  { induction ws as [|c ws IH]; simpl.
    - split; [constructor|reflexivity].
    - destruct (JS.is_space c) eqn:Hc.
      + apply is_space_codes in Hc. split.
        * intros [= H]. constructor; [exact Hc|now apply IH].
        * intros H. inversion H; subst. f_equal. now apply IH.
      + split; [discriminate|]. intros H. inversion H as [|? ? Hin _]; subst.
        apply is_space_codes in Hin. congruence. }
  now rewrite H.
Qed.

Lemma string_of_uint_digits (u : Decimal.uint) :
  JS.take_digits (NilEmpty.string_of_uint u) = NilEmpty.string_of_uint u.
Proof.
  pose proof (take_digits_uint u "") as H. rewrite !append_empty in H. exact H.
Qed.

Lemma digit_string (s : string) :
  JS.take_digits s = s -> exists u, s = NilEmpty.string_of_uint u.
Proof.
  induction s as [|c s IH]; intros H.
  - now exists Decimal.Nil.
  - simpl in H. destruct (JS.is_digit c) eqn:Hc; [|discriminate].
    injection H as H. destruct (IH H) as [u ->].
    destruct c as [[] [] [] [] [] [] [] []]; try discriminate Hc.
    all: first [ now exists (Decimal.D0 u) | now exists (Decimal.D1 u)
               | now exists (Decimal.D2 u) | now exists (Decimal.D3 u)
               | now exists (Decimal.D4 u) | now exists (Decimal.D5 u)
               | now exists (Decimal.D6 u) | now exists (Decimal.D7 u)
               | now exists (Decimal.D8 u) | now exists (Decimal.D9 u) ].
Qed.

Lemma digits_decimal (m : string) : digits m <-> exists u, decimal_digits m u.
Proof.
  unfold digits, decimal_digits. split.
  - intros [Hne H]. destruct (digit_string m H) as [u ->].
    exists u. split; [|reflexivity]. intros ->. now apply Hne.
  - intros (u & Hu & ->). split; [|apply string_of_uint_digits].
    destruct u; try discriminate. congruence.
Qed.

Lemma number_text_numeral (m : string) : number_text m <-> exists q, numeral m q.
Proof.
  unfold number_text, numeral. split.
  - intros [H|(whole & frac & Hw & Hf & ->)].
    + apply digits_decimal in H as [u Hu]. eexists. left. eauto.
    + apply digits_decimal in Hw as [w Hw]. apply digits_decimal in Hf as [f Hf].
      eexists. right. exists whole, frac, w, f. eauto.
  - intros [q [(u & Hu & _)|(whole & frac & w & f & Hw & Hf & -> & _)]].
    + left. apply digits_decimal. eauto.
    + right. exists whole, frac.
      split; [apply digits_decimal; eauto|]. split; [apply digits_decimal; eauto|reflexivity].
Qed.

Lemma matches_marked (marker s m : string) : matches_at marker s m <-> marked_at marker s m.
Proof.
  unfold matches_at, marked_at. split.
  - intros (q & ws & post & Hq & Hws & ->). exists ws, post.
    split; [apply number_text_numeral; eauto|]. split; [now apply spaces_white|reflexivity].
  - intros (ws & post & Hm & Hws & ->). apply number_text_numeral in Hm as [q Hq].
    exists q, ws, post. split; [exact Hq|]. split; [now apply spaces_white|reflexivity].
Qed.

Lemma exec_sound (marker s m : string) :
  Probe.exec marker s = Some m ->
  exists before rest, s = before ++ rest /\ marked_at marker rest m.
Proof.
  induction s as [|c s IH]; simpl.
  - discriminate.
  - destruct (Probe.match_here marker (String c s)) as [m'|] eqn:Hh.
    + intros [= <-]. exists "", (String c s). split; [reflexivity|].
      now apply match_here_sound.
    + intros H. destruct (IH H) as (before & rest & -> & Hm).
      exists (String c before), rest. split; [reflexivity|exact Hm].
Qed.

Lemma exec_complete (marker before rest m : string) (k : ascii) (tail : string) :
  marker = String k tail -> JS.is_space k = false ->
  marked_at marker rest m -> is_Some (Probe.exec marker (before ++ rest)).
Proof.
  intros Hm Hk Hmatch.
  assert (Hrest : is_Some (Probe.exec marker rest)).
  { pose proof (match_here_complete marker rest m k tail Hm Hk Hmatch) as Hh.
    destruct rest as [|c rest]; [discriminate Hh|].
    change (Probe.exec marker (String c rest))
      with (match Probe.match_here marker (String c rest) with
            | Some found => Some found
            | None => Probe.exec marker rest
            end).
    rewrite Hh. eauto. }
  induction before as [|c before IH]; [exact Hrest|].
  rewrite append_cons.
  change (Probe.exec marker (String c (before ++ rest)))
    with (match Probe.match_here marker (String c (before ++ rest)) with
          | Some found => Some found
          | None => Probe.exec marker (before ++ rest)
          end).
  destruct (Probe.match_here marker (String c (before ++ rest))); eauto.
Qed.

Lemma exec_cons (marker : string) (c : ascii) (s : string) :
  Probe.exec marker (String c s) =
  match Probe.match_here marker (String c s) with
  | Some found => Some found
  | None => Probe.exec marker s
  end.
Proof. reflexivity. Qed.

Lemma match_here_empty (marker : string) : Probe.match_here marker "" = None.
Proof. reflexivity. Qed.

(** [exec] returns the group of the leftmost match *)
Lemma exec_first_match (marker s m : string) (k : ascii) (tail : string) :
  marker = String k tail -> JS.is_space k = false ->
  Probe.exec marker s = Some m <-> first_match marker s m.
Proof.
  intros Hm Hk. split.
  - revert m. induction s as [|c s IH]; intros m.
    + simpl. discriminate.
    + rewrite exec_cons.
      destruct (Probe.match_here marker (String c s)) as [found|] eqn:Hh.
      * intros [= <-]. exists "", (String c s). split; [reflexivity|].
        split; [apply matches_marked; now apply match_here_sound|].
        intros; simpl; lia.
      * intros H. destruct (IH m H) as (before & rest & -> & Hat & Hmin).
        exists (String c before), rest. split; [reflexivity|]. split; [exact Hat|].
        intros before' rest' m' Hsplit Hat'.
        destruct before' as [|c' before'].
        -- change ("" ++ rest') with rest' in Hsplit. subst rest'.
           apply matches_marked in Hat'.
           rewrite (match_here_complete _ _ _ _ _ Hm Hk Hat') in Hh. discriminate.
        -- rewrite !append_cons in Hsplit. injection Hsplit as _ Hsplit.
           specialize (Hmin before' rest' m' Hsplit Hat'). simpl. lia.
  - intros (before & rest & -> & Hat & Hmin). apply matches_marked in Hat.
    induction before as [|c before IH].
    + pose proof (match_here_complete _ _ _ _ _ Hm Hk Hat) as Hh.
      destruct rest as [|c rest]; [discriminate Hh|].
      change ("" ++ String c rest) with (String c rest). now rewrite exec_cons, Hh.
    + rewrite append_cons, exec_cons.
      destruct (Probe.match_here marker (String c (before ++ rest))) as [found|] eqn:Hh.
      * apply match_here_sound, matches_marked in Hh.
        specialize (Hmin "" (String c (before ++ rest)) found eq_refl Hh).
        simpl in Hmin. lia.
      * apply IH. intros before' rest' m' Hsplit Hat'.
        specialize (Hmin (String c before') rest' m').
        rewrite append_cons, Hsplit in Hmin. specialize (Hmin eq_refl Hat').
        simpl in Hmin. lia.
Qed.

(** [exec] returns [null] when the text holds no match *)
Lemma exec_no_match (marker s : string) (k : ascii) (tail : string) :
  marker = String k tail -> JS.is_space k = false ->
  Probe.exec marker s = None <-> no_match marker s.
Proof.
  intros Hm Hk. split.
  - intros Hnone before rest m -> Hat. apply matches_marked in Hat.
    destruct (exec_complete marker before rest m k tail Hm Hk Hat) as [found Hf].
    congruence.
  - intros Hno. destruct (Probe.exec marker s) as [m|] eqn:E; [|reflexivity].
    apply exec_sound in E as (before & rest & -> & Hat).
    exfalso. apply (Hno before rest m eq_refl). now apply matches_marked.
Qed.

(** a text holds no match or a leftmost one *)
Lemma first_match_or_none (marker s : string) (k : ascii) (tail : string) :
  marker = String k tail -> JS.is_space k = false ->
  no_match marker s \/ exists m, first_match marker s m.
Proof.
  intros Hm Hk. destruct (Probe.exec marker s) as [m|] eqn:E.
  - right. exists m. now apply (exec_first_match marker s m k tail).
  - left. now apply (exec_no_match marker s k tail).
Qed.

(** *** The numbers that [parseFloat] reads *)

Lemma drop_digits_uint (u : Decimal.uint) (rest : string) :
  JS.drop_digits (NilEmpty.string_of_uint u ++ rest) = JS.drop_digits rest.
Proof. apply digits_dropped, string_of_uint_digits. Qed.

Lemma string_of_uint_length (u : Decimal.uint) :
  String.length (NilEmpty.string_of_uint u) = Decimal.nb_digits u.
Proof. induction u; simpl; congruence. Qed.

Lemma decimal_numeral (m : string) (q : Q) : numeral m q -> Probe.decimal m = q.
Proof.
  unfold Probe.decimal.
  intros [(u & [_ ->] & ->)|(whole & frac & w & f & [_ ->] & [Hf ->] & -> & ->)].
  - pose proof (drop_digits_uint u "") as Hd. rewrite append_empty in Hd.
    rewrite Hd, string_of_uint_digits, parse_digits_uint. reflexivity.
  - rewrite drop_digits_uint, take_digits_uint.
    rewrite !append_cons. change ("" ++ ?x) with x.
    change (JS.take_digits (String "." ?r)) with "".
    change (JS.drop_digits (String "." ?r)) with (String "."%char r).
    rewrite append_empty, !parse_digits_uint. reflexivity.
Qed.

Lemma parseFloat_numeral (m : string) (q : Q) :
  numeral m q -> Probe.parseFloat m = Binary64.of_Q q.
Proof. intros H. unfold Probe.parseFloat. now rewrite (decimal_numeral m q H). Qed.

Lemma of_Q_small_integer (n : Z) :
  0 <= n < 2 ^ 53 ->
  exists v, Binary64.of_Q (inject_Z n) = Binary64.Finite v /\ (v == inject_Z n)%Q.
Proof. intros H. exact (nearest_small_integer n H). Qed.

Lemma of_Q_error (q v : Q) :
  (1 <= q)%Q -> Binary64.of_Q q = Binary64.Finite v ->
  (Qabs (v - q) <= q * (1 # 2 ^ 53))%Q.
Proof.
  destruct q as [n d]. unfold Binary64.of_Q. simpl. intros Hq H.
  unfold Qle in Hq. simpl in Hq.
  assert (Hn : Z.pos d <= n) by lia.
  assert (Hp : 1 <= 2 ^ 1022) by (apply (Z.pow_le_mono_r 2 0 1022); lia).
  apply (nearest_error n (Z.pos d) v); [lia|lia| |exact H].
  apply Z.le_trans with (n * 1); [lia|]. apply Z.mul_le_mono_nonneg_l; lia.
Qed.

Lemma round_nearest (x : Q) :
  (inject_Z (Num.round x) - (1 # 2) <= x)%Q /\ (x < inject_Z (Num.round x) + (1 # 2))%Q.
Proof.
  unfold Num.round.
  pose proof (Qfloor_le (x + (1 # 2))) as Hl.
  pose proof (Qlt_floor (x + (1 # 2))) as Hu.
  rewrite inject_Z_plus in Hu. change (inject_Z 1) with 1%Q in Hu. split; lra.
Qed.

Lemma probe_resolved_stays (events : list Probe.probe_tick) (p : Probe.probe) (r : Z) :
  Probe.resolved p = Some r -> Probe.resolved (foldl Probe.step p events) = Some r.
Proof.
  revert p. induction events as [|t events IH]; intros p Hp; [exact Hp|].
  simpl. apply IH. destruct t; simpl; try (now rewrite Hp).
  destruct (Probe.timerLive p); simpl; now rewrite Hp.
Qed.

Lemma probe_run_resolves (events : list Probe.probe_tick) (p : Probe.probe) :
  Probe.resolved p = None -> Probe.timerLive p = true ->
  Probe.resolved (foldl Probe.step p (events ++ [Probe.TimerElapsed])%list) =
  Some match captured (Probe.stderrData p) events with
       | Some text => Probe.frameRateOf text
       | None => 30
       end.
Proof.
  revert p. induction events as [|t events IH]; intros p Hp Hl.
  - simpl. now rewrite Hl, Hp.
  - simpl. destruct t; simpl.
    + now rewrite IH.
    + apply probe_resolved_stays. simpl. now rewrite Hp.
    + apply probe_resolved_stays. simpl. now rewrite Hp.
    + apply probe_resolved_stays. rewrite Hl. simpl. now rewrite Hp.
Qed.

Lemma probe_killed_stays (events : list Probe.probe_tick) (p : Probe.probe) :
  Probe.timerLive p = false ->
  Probe.killed (foldl Probe.step p events) = Probe.killed p.
Proof.
  revert p. induction events as [|t events IH]; intros p Hl; [reflexivity|].
  simpl. destruct t; simpl; try (now rewrite IH).
  rewrite Hl. now apply IH.
Qed.

Lemma probe_run_killed (events : list Probe.probe_tick) (p : Probe.probe) :
  Probe.timerLive p = true -> Probe.killed p = false ->
  Probe.killed (foldl Probe.step p (events ++ [Probe.TimerElapsed])%list) =
  probe_timed_out events.
Proof.
  revert p. induction events as [|t events IH]; intros p Hl Hk.
  - simpl. now rewrite Hl.
  - simpl. destruct t; simpl.
    + now apply IH.
    + now rewrite probe_killed_stays.
    + now rewrite probe_killed_stays.
    + rewrite Hl. now rewrite probe_killed_stays.
Qed.

Lemma round_compat (x y : Q) : (x == y)%Q -> Num.round x = Num.round y.
Proof. intros H. unfold Num.round. now rewrite H. Qed.

Lemma accept_usable (m : string) (rate : Q) :
  usable m rate -> Probe.accept (Some m) = Some (Num.round rate).
Proof.
  intros (q & v & Hq & Hv & Hvr & Hpos & Hle). unfold Probe.accept.
  rewrite (parseFloat_numeral m q Hq), Hv.
  assert (H1 : Num.gtb v 0 = true) by (apply gtb_true; now rewrite Hvr).
  assert (H2 : Qle_bool v 120 = true) by (apply Qle_bool_iff; now rewrite Hvr).
  rewrite H1, H2. simpl. f_equal. now apply round_compat.
Qed.

Lemma accept_some (m : string) (q : Q) (r : Z) :
  numeral m q -> Probe.accept (Some m) = Some r ->
  exists rate, usable m rate /\ r = Num.round rate.
Proof.
  intros Hq. unfold Probe.accept. rewrite (parseFloat_numeral m q Hq).
  destruct (Binary64.of_Q q) as [v|] eqn:Hv; [|discriminate].
  destruct (Num.gtb v 0) eqn:Hpos; [|discriminate].
  destruct (Qle_bool v 120) eqn:Hle; [|discriminate].
  apply gtb_true in Hpos. apply Qle_bool_iff in Hle.
  intros [= <-]. exists v. split; [|reflexivity].
  exists q, v. repeat split; auto.
Qed.

Lemma accept_unusable (m : string) (q : Q) :
  numeral m q -> unusable m -> Probe.accept (Some m) = None.
Proof.
  intros Hq Hun. destruct (Probe.accept (Some m)) as [r|] eqn:E; [|reflexivity].
  destruct (accept_some m q r Hq E) as (rate & Hrate & _). now destruct (Hun rate).
Qed.

Lemma usable_or_not (m : string) (q : Q) :
  numeral m q -> (exists rate, usable m rate) \/ unusable m.
Proof.
  intros Hq. destruct (Probe.accept (Some m)) as [r|] eqn:E.
  - left. destruct (accept_some m q r Hq E) as (rate & Hrate & _). eauto.
  - right. intros rate Hrate. rewrite (accept_usable m rate Hrate) in E. discriminate.
Qed.

Lemma accept_range (m : option string) (r : Z) :
  Probe.accept m = Some r -> 0 <= r <= 120.
Proof.
  unfold Probe.accept. destruct m as [text|]; [|discriminate].
  destruct (Probe.parseFloat text) as [v|]; [|discriminate].
  destruct (Num.gtb v 0) eqn:Hpos; [|discriminate].
  destruct (Qle_bool v 120) eqn:Hle; [|discriminate].
  apply gtb_true in Hpos. apply Qle_bool_iff in Hle.
  intros [= <-]. unfold Num.round. split.
  - change 0 with (Qfloor 0). apply Qfloor_resp_le. lra.
  - change 120 with (Qfloor (120 + (1 # 2))). apply Qfloor_resp_le. lra.
Qed.

Lemma first_match_numeral (marker text m : string) :
  first_match marker text m -> exists q, numeral m q.
Proof. intros (before & rest & _ & (q & ws & post & Hq & _) & _). eauto. Qed.

Lemma accept_rate_at (marker text : string) (rate : Q) (k : ascii) (tail : string) :
  marker = String k tail -> JS.is_space k = false ->
  rate_at marker text rate ->
  Probe.accept (Probe.exec marker text) = Some (Num.round rate).
Proof.
  intros Hm Hk (m & Hfirst & Huse).
  apply (exec_first_match marker text m k tail Hm Hk) in Hfirst.
  rewrite Hfirst. now apply accept_usable.
Qed.

Lemma accept_no_rate_at (marker text : string) (k : ascii) (tail : string) :
  marker = String k tail -> JS.is_space k = false ->
  no_rate_at marker text -> Probe.accept (Probe.exec marker text) = None.
Proof.
  intros Hm Hk [Hno|(m & Hfirst & Hun)].
  - apply (exec_no_match marker text k tail Hm Hk) in Hno. now rewrite Hno.
  - destruct (first_match_numeral _ _ _ Hfirst) as [q Hq].
    apply (exec_first_match marker text m k tail Hm Hk) in Hfirst.
    rewrite Hfirst. now apply (accept_unusable m q).
Qed.

Lemma rate_or_none (marker text : string) (k : ascii) (tail : string) :
  marker = String k tail -> JS.is_space k = false ->
  (exists rate, rate_at marker text rate) \/ no_rate_at marker text.
Proof.
  intros Hm Hk. destruct (first_match_or_none marker text k tail Hm Hk) as [Hno|[m Hfirst]].
  - right. now left.
  - destruct (first_match_numeral _ _ _ Hfirst) as [q Hq].
    destruct (usable_or_not m q Hq) as [[rate Hrate]|Hun].
    + left. exists rate, m. auto.
    + right. right. eauto.
Qed.

(** a numeral of an integer from 1 to 120 reads as that integer *)
Lemma integer_numeral_usable (m : string) (u : Decimal.uint) :
  decimal_digits m u -> 0 < Z.of_uint u <= 120 -> usable m (inject_Z (Z.of_uint u)).
Proof.
  intros Hu Hr.
  destruct (of_Q_small_integer (Z.of_uint u)) as (v & Hv & Hvq).
  { split; [lia|]. apply Z.le_lt_trans with 120; [lia|reflexivity]. }
  exists (inject_Z (Z.of_uint u)), v. split; [left; eauto|]. split; [exact Hv|].
  split; [exact Hvq|]. split.
  - change 0%Q with (inject_Z 0). rewrite <- Zlt_Qlt. lia.
  - change 120%Q with (inject_Z 120). rewrite <- Zle_Qle. lia.
Qed.

(** what a numeral of at least 1 reads as is within a relative 2^-53 of the
    number it writes *)
Lemma usable_error (m : string) (q rate : Q) :
  numeral m q -> (1 <= q)%Q -> usable m rate ->
  (Qabs (rate - q) <= q * (1 # 2 ^ 53))%Q.
Proof.
  intros Hq H1 (q' & v & Hq' & Hv & Hvr & _).
  apply decimal_numeral in Hq, Hq'. subst q'. rewrite Hq in Hv.
  rewrite <- Hvr. now apply of_Q_error.
Qed.

(** C5, as amended: the detector answers 30 without the encoder; otherwise
    it reads the text captured up to the close of the probe.  Of each marker
    it takes the leftmost match of [(\d+(?:\.\d+)?)\s+marker] only: when the
    numeral of the leftmost fps match reads as a rate in (0, 120] the answer
    is that rate rounded to the nearest integer; otherwise, whatever the
    later fps matches, the leftmost tbr match is read in the same way; the
    answer is 30 when neither gives a rate, and when an error or the 30
    second timer comes before the close, the timer killing the probe.  A
    numeral reads as the binary64 value nearest to the number it writes. *)
Theorem detector_takes_leftmost_fps_then_tbr
    (ffmpeg : string) (events : list Probe.probe_tick) (text : string) :
  detectSWFFrameRate None events = 30 /\
  detectSWFFrameRate (Some ffmpeg) events =
    match captured "" events with
    | Some text => Probe.frameRateOf text
    | None => 30
    end /\
  Probe.killed (Probe.run events) = probe_timed_out events /\
  (probe_timed_out events = true -> detectSWFFrameRate (Some ffmpeg) events = 30) /\
  (forall rate, rate_at "fps" text rate -> Probe.frameRateOf text = Num.round rate) /\
  (forall rate, no_rate_at "fps" text -> rate_at "tbr" text rate ->
     Probe.frameRateOf text = Num.round rate) /\
  (no_rate_at "fps" text -> no_rate_at "tbr" text -> Probe.frameRateOf text = 30) /\
  ((exists rate, rate_at "fps" text rate) \/ no_rate_at "fps" text) /\
  ((exists rate, rate_at "tbr" text rate) \/ no_rate_at "tbr" text) /\
  (forall m u, decimal_digits m u -> 0 < Z.of_uint u <= 120 ->
     usable m (inject_Z (Z.of_uint u))) /\
  (forall m q rate, numeral m q -> (1 <= q)%Q -> usable m rate ->
     (Qabs (rate - q) <= q * (1 # 2 ^ 53))%Q) /\
  0 <= Probe.frameRateOf text <= 120 /\
  (forall rate : Q,
     (inject_Z (Num.round rate) - (1 # 2) <= rate)%Q /\
     (rate < inject_Z (Num.round rate) + (1 # 2))%Q).
Proof.
  assert (Hrun : detectSWFFrameRate (Some ffmpeg) events =
                 match captured "" events with
                 | Some text => Probe.frameRateOf text
                 | None => 30
                 end)
    by (unfold detectSWFFrameRate, Probe.run; now rewrite probe_run_resolves).
  assert (Hfps : forall rate, rate_at "fps" text rate ->
                 Probe.accept (Probe.exec "fps" text) = Some (Num.round rate))
    by (intros rate; now apply (accept_rate_at "fps" text rate "f" "ps")).
  assert (Htbr : forall rate, rate_at "tbr" text rate ->
                 Probe.accept (Probe.exec "tbr" text) = Some (Num.round rate))
    by (intros rate; now apply (accept_rate_at "tbr" text rate "t" "br")).
  assert (Hnofps : no_rate_at "fps" text -> Probe.accept (Probe.exec "fps" text) = None)
    by now apply (accept_no_rate_at "fps" text "f" "ps").
  assert (Hnotbr : no_rate_at "tbr" text -> Probe.accept (Probe.exec "tbr" text) = None)
    by now apply (accept_no_rate_at "tbr" text "t" "br").
  split; [reflexivity|]. split; [exact Hrun|].
  split; [now apply probe_run_killed|]. split.
  { rewrite Hrun. clear Hrun. generalize "" as seen.
    induction events as [|t events IH]; intros seen H; [reflexivity|].
    destruct t; simpl in *; try discriminate; auto. }
  clear Hrun. unfold Probe.frameRateOf.
  split; [intros rate H; now rewrite (Hfps rate H)|].
  split; [intros rate Hf Ht; now rewrite (Hnofps Hf), (Htbr rate Ht)|].
  split; [intros Hf Ht; now rewrite (Hnofps Hf), (Hnotbr Ht)|].
  split; [now apply (rate_or_none "fps" text "f" "ps")|].
  split; [now apply (rate_or_none "tbr" text "t" "br")|].
  split; [exact integer_numeral_usable|].
  split; [exact usable_error|].
  split; [|exact round_nearest].
  destruct (Probe.accept (Probe.exec "fps" text)) eqn:E1;
    [apply accept_range in E1; lia|].
  destruct (Probe.accept (Probe.exec "tbr" text)) eqn:E2;
    [apply accept_range in E2; lia|lia].
Qed.

(** C5, as stated, fails: the leftmost fps match is out of range, a later
    fps match reads as the rate 24 of the interval, and the detector answers
    the default 30. *)
Lemma first_fps_match_hides_later_rate :
  detectSWFFrameRate (Some "ffmpeg") [Probe.Data "0 fps, 24 fps"; Probe.Closed] = 30 /\
  first_match "fps" "0 fps, 24 fps" "0" /\ unusable "0" /\
  "0 fps, 24 fps" = "0 fps, " ++ "24 fps" /\
  matches_at "fps" "24 fps" "24" /\ usable "24" 24 /\ Num.round 24 = 24 /\
  no_match "tbr" "0 fps, 24 fps".
Proof.
  assert (Hzero : numeral "0" 0).
  { left. exists (Decimal.D0 Decimal.Nil). repeat split. discriminate. }
  assert (H24 : numeral "24" 24).
  { left. exists (Decimal.D2 (Decimal.D4 Decimal.Nil)). repeat split. discriminate. }
  split; [vm_compute; reflexivity|].
  split; [apply (exec_first_match "fps" _ _ "f" "ps"); vm_compute; reflexivity|].
  split.
  { intros rate Hrate. pose proof (accept_usable "0" rate Hrate) as H.
    vm_compute in H. discriminate H. }
  split; [reflexivity|]. split.
  { exists 24%Q, " ", "". split; [exact H24|]. split; [|reflexivity].
    split; [discriminate|]. constructor; [|constructor].
    do 5 right. left. reflexivity. }
  split.
  { destruct (of_Q_small_integer 24) as (v & Hv & Hvq); [split; [lia|reflexivity]|].
    exists 24%Q, v. split; [exact H24|]. split; [exact Hv|]. split; [exact Hvq|].
    split; lra. }
  split; [reflexivity|].
  apply (exec_no_match "tbr" _ "t" "br"); vm_compute; reflexivity.
Qed.

(** ** The assembly driver and the coordinator *)

Lemma convertFramesToMP4_command
    (content : ExtractedContent) (outputPath : string) (framerate : Z)
    (writeFailure : option string) (encodeRun : ffmpeg_event) (cmd : EncodeCommand) :
  In (EncodeCommandRun cmd)
     (convertFramesToMP4 content outputPath framerate writeFailure encodeRun).2 ->
  exists firstFrame rest,
    frameFiles content = firstFrame :: rest /\
    inputs cmd =
      Path.join (Path.dirname firstFrame) ("%d" ++ Path.extname firstFrame) ::
      take 1 (audioFiles content) /\
    inputOptions cmd = ["-framerate"; Num.toString framerate] /\
    audioCodec cmd = (if audioFiles content is [] then None else Some "aac") /\
    output cmd = outputPath.
Proof.
  unfold convertFramesToMP4.
  destruct (frameFiles content) as [|firstFrame rest] eqn:Hf; simpl; [tauto|].
  destruct writeFailure; simpl; [tauto|].
  intros [[= <-]|[]]. exists firstFrame, rest.
  destruct (audioFiles content); simpl; auto.
Qed.

(** C8: without frames the driver rejects at once and runs nothing; the
    command it runs otherwise takes the frame pattern as its first input and
    a second input exactly when the manifest lists audio, the first audio
    file of the manifest, encoded as aac. *)
Theorem assembly_driver_inputs
    (content : ExtractedContent) (outputPath : string) (framerate : Z)
    (writeFailure : option string) (encodeRun : ffmpeg_event) :
  let run := convertFramesToMP4 content outputPath framerate writeFailure encodeRun in
  (frameFiles content = [] ->
   run = (Thrown (Error "No frame files found for conversion"), [])) /\
  (frameFiles content <> [] -> writeFailure = None ->
   exists cmd, run.2 = [EncodeCommandRun cmd]) /\
  (forall cmd, In (EncodeCommandRun cmd) run.2 ->
     (length (inputs cmd) = 2%nat <-> audioFiles content <> []) /\
     (length (inputs cmd) = 1%nat <-> audioFiles content = []) /\
     (forall audioFile others, audioFiles content = audioFile :: others ->
        inputs cmd !! 1%nat = Some audioFile /\ audioCodec cmd = Some "aac")).
Proof.
  cbv zeta. split; [|split].
  - intros H. unfold convertFramesToMP4. now rewrite H.
  - intros Hf ->. unfold convertFramesToMP4.
    destruct (frameFiles content); [congruence|]. simpl. eauto.
  - intros cmd Hin.
    apply convertFramesToMP4_command in Hin as (f & r & _ & Hi & _ & Ha & _).
    rewrite Hi, Ha.
    destruct (audioFiles content) as [|a [|b l]]; simpl;
      repeat split; intros; congruence.
Qed.


Lemma extractSWF_log_kinds
    (swfFile outputDir : string) (testFrames : option Z)
    (timeoutMinutes : option jsnumber) (w : World) :
  Forall (fun a => is_encode a = false /\ is_removal a = false)
    (extractSWF swfFile outputDir testFrames timeoutMinutes w).2.
Proof.
  rewrite extractSWF_run.
  destruct (finalTimeoutMinutes _ _); [|constructor].
  cbv zeta. unfold extractSWFContent, extractAudioWithFFmpeg.
  destruct (negb (sourcePresent w)), (mkdirFailure w), (decompilerTimedOut w),
    (is_file (disk w) (Path.join outputDir "sounds")), (negb (ffmpegInitialized w)),
    (soundsMkdirFailure w); simpl; repeat constructor.
Qed.

Lemma extractSWF_runs_no_encode
    (swfFile outputDir : string) (testFrames : option Z)
    (timeoutMinutes : option jsnumber) (w : World) (cmd : EncodeCommand) :
  ~ In (EncodeCommandRun cmd) (extractSWF swfFile outputDir testFrames timeoutMinutes w).2.
Proof.
  intros Hin.
  pose proof (extractSWF_log_kinds swfFile outputDir testFrames timeoutMinutes w) as H.
  rewrite List.Forall_forall in H. destruct (H _ Hin) as [He _]. discriminate He.
Qed.

Lemma convertFramesToMP4_run
    (content : ExtractedContent) (outputPath : string) (framerate : Z)
    (writeFailure : option string) (encodeRun : ffmpeg_event) :
  frameFiles content <> [] ->
  exists cmd,
    inputOptions cmd = ["-framerate"; Num.toString framerate] /\
    convertFramesToMP4 content outputPath framerate writeFailure encodeRun =
    match writeFailure with
    | Some message =>
        (Thrown (Error ("Cannot write to output directory: " ++
                        Path.dirname outputPath ++ ". " ++ message)), [])
    | None =>
        (match encodeRun with
         | FfmpegEnd => Returned tt
         | FfmpegError message => Thrown (Error message)
         end, [EncodeCommandRun cmd])
    end.
Proof.
  intros Hf. unfold convertFramesToMP4.
  destruct (frameFiles content) as [|firstFrame others]; [congruence|]. simpl.
  destruct writeFailure.
  - exists (conversion_command (Num.toString framerate)). split; reflexivity.
  - eexists. split; [|reflexivity]. now destruct (audioFiles content).
Qed.

Lemma filter_none {A : Type} (f : A -> bool) (l : list A) :
  Forall (fun a => f a = false) l -> List.filter f l = [].
Proof.
  induction 1 as [|a l Ha _ IH]; [reflexivity|]. simpl. now rewrite Ha.
Qed.

Lemma is_file_false_of_none (fs : filesystem) (outputDir : string) :
  first_file fs (listedByExtraction outputDir) = None <->
  first_file fs (listedByReconciler outputDir) = None.
Proof.
  unfold first_file, listedByExtraction, listedByReconciler. cbn [List.find].
  destruct (is_file fs (Path.join outputDir "sounds")),
    (is_file fs (Path.join outputDir "frames")), (is_file fs outputDir);
    split; intros H; try discriminate H; reflexivity.
Qed.

(** an extraction that returns leaves a tree that the reconciler can list *)
Lemma extractSWF_returned_listable
    (swfFile outputDir : string) (testFrames : option Z)
    (timeoutMinutes : option jsnumber) (w : World) (u : unit) :
  (extractSWF swfFile outputDir testFrames timeoutMinutes w).1 = Returned u ->
  first_file (disk w) (listedByReconciler outputDir) = None.
Proof.
  intros H. apply is_file_false_of_none.
  destruct (first_file (disk w) (listedByExtraction outputDir)) as [p|] eqn:F;
    [|reflexivity].
  assert (Ht : is_thrown (extractSWF swfFile outputDir testFrames timeoutMinutes w).1 = true).
  { rewrite extractSWF_run.
    assert (Hl : is_Some (first_file (disk w) (listedByExtraction outputDir))) by eauto.
    apply first_file_listed in Hl.
    destruct (finalTimeoutMinutes _ _); [|reflexivity]. cbv zeta.
    destruct (extractSWFContent _ _ _ _); try reflexivity;
      destruct (decompilerTimedOut w); try reflexivity;
      destruct (is_file (disk w) (Path.join outputDir "sounds")); try reflexivity;
      destruct (is_file (disk w) (Path.join outputDir "frames")); try reflexivity;
      destruct (is_file (disk w) outputDir); try reflexivity;
      destruct Hl as [Hl|[Hl|Hl]]; discriminate Hl. }
  rewrite H in Ht. discriminate Ht.
Qed.

Lemma manifest_of_count (E : JS.Engine) (outputDir : string) (fs : filesystem) :
  let m := manifest_of E outputDir fs in
  (frameCount m =? 0)%nat = negb (framesOnDisk fs outputDir) /\
  frameCount m = length (frameFiles m).
Proof.
  cbv zeta. destruct (manifest_of_layout E outputDir fs) as (_ & Hiff & _ & Hcount).
  split; [|reflexivity]. rewrite Hcount. unfold framesOnDisk.
  unfold manifest_of in *. cbv zeta in *.
  destruct (length (recognized fs outputDir) <?
            length (recognized fs (Path.join outputDir "frames")))%nat eqn:L; simpl.
  - apply Nat.ltb_lt in L.
    destruct (length (recognized fs (Path.join outputDir "frames"))); [lia|].
    reflexivity.
  - apply Nat.ltb_ge in L.
    destruct (length (recognized fs outputDir)) eqn:R; simpl.
    + assert (length (recognized fs (Path.join outputDir "frames")) = 0%nat) as -> by lia.
      reflexivity.
    + now rewrite orb_true_r.
Qed.

(** the run of [convertSWF], case by case *)
Lemma convertSWF_run
    (E : JS.Engine) (swfFile outputMP4 : string) (options : ConversionOptions)
    (w : ConversionWorld) :
  let tempDir := tempDirOf swfFile outputMP4 in
  let cleanup :=
    if negb (keepExtracted options) && tempDirRemains w
    then [DirectoryRemoved tempDir] else [] in
  let extracted := extractSWF swfFile tempDir None None (extraction w) in
  exists cmd,
    inputOptions cmd =
      ["-framerate";
       Num.toString (actualFrameRate options
                       (detectSWFFrameRate (ffmpegPath w) (probeEvents w)))] /\
    convertSWF E swfFile outputMP4 options w =
    match extracted.1 with
    | Thrown e => (Thrown e, (extracted.2 ++ cleanup)%list)
    | Returned _ =>
        if framesOnDisk (disk (extraction w)) tempDir
        then
          match writeFailure w with
          | Some message =>
              (Thrown (Error ("Cannot write to output directory: " ++
                              Path.dirname outputMP4 ++ ". " ++ message)),
               (extracted.2 ++ cleanup)%list)
          | None =>
              (match encodeRun w with
               | FfmpegEnd => Returned tt
               | FfmpegError message => Thrown (Error message)
               end,
               (extracted.2 ++ EncodeCommandRun cmd :: cleanup)%list)
          end
        else (Thrown (Error "No frames were extracted from the SWF file"),
              (extracted.2 ++ cleanup)%list)
    end.
Proof.
  cbv zeta. unfold convertSWF. fold (tempDirOf swfFile outputMP4).
  set (tempDir := tempDirOf swfFile outputMP4).
  set (rate := actualFrameRate options _).
  pose proof (extractSWF_returned_listable swfFile tempDir None None (extraction w)) as Hl.
  destruct (extractSWF swfFile tempDir None None (extraction w)) as [[[]|e] log];
    [|exists (conversion_command (Num.toString rate)); split; reflexivity].
  rewrite analyzeExtractedContent_run, (Hl tt eq_refl).
  destruct (manifest_of_count E tempDir (disk (extraction w))) as [Hzero Hlen].
  cbv zeta in Hzero, Hlen. rewrite Hzero. simpl.
  destruct (framesOnDisk (disk (extraction w)) tempDir) eqn:Hf; simpl;
    [|exists (conversion_command (Num.toString rate)); split; reflexivity].
  assert (Hframes : frameFiles (manifest_of E tempDir (disk (extraction w))) <> []).
  { change (negb true) with false in Hzero. apply Nat.eqb_neq in Hzero.
    intros H. rewrite Hlen, H in Hzero. now apply Hzero. }
  destruct (convertFramesToMP4_run (manifest_of E tempDir (disk (extraction w))) outputMP4
              rate (writeFailure w) (encodeRun w) Hframes) as (cmd & Hopt & ->).
  exists cmd. split; [exact Hopt|]. destruct (writeFailure w); simpl.
  - now rewrite app_nil_r.
  - now rewrite <- app_assoc.
Qed.

Lemma actualFrameRate_effective (options : ConversionOptions) (w : ConversionWorld) :
  actualFrameRate options (detectSWFFrameRate (ffmpegPath w) (probeEvents w)) =
  effectiveRate options w.
Proof.
  unfold actualFrameRate, effectiveRate. now destruct (framerate options =? 30).
Qed.

(** C7: the rate of a conversion is the rate of the caller when it is not
    30, and the detected rate when it is 30; every encode of the conversion
    runs at that rate, and a conversion whose extraction returns with a
    frame on disk and whose output directory is writable runs exactly one
    encode, at that rate. *)
Theorem caller_rate_unless_default
    (E : JS.Engine) (swfFile outputMP4 : string) (options : ConversionOptions)
    (w : ConversionWorld) :
  let detected := detectSWFFrameRate (ffmpegPath w) (probeEvents w) in
  let run := convertSWF E swfFile outputMP4 options w in
  let tempDir := tempDirOf swfFile outputMP4 in
  (framerate options <> 30 -> effectiveRate options w = framerate options) /\
  (framerate options = 30 -> effectiveRate options w = detected) /\
  (forall cmd, In (EncodeCommandRun cmd) run.2 ->
     inputOptions cmd = ["-framerate"; Num.toString (effectiveRate options w)]) /\
  ((extractSWF swfFile tempDir None None (extraction w)).1 = Returned tt ->
   framesOnDisk (disk (extraction w)) tempDir = true ->
   writeFailure w = None ->
   exists cmd,
     List.filter is_encode run.2 = [EncodeCommandRun cmd] /\
     inputOptions cmd = ["-framerate"; Num.toString (effectiveRate options w)]).
Proof.
  cbv zeta.
  destruct (convertSWF_run E swfFile outputMP4 options w) as (cmd & Hopt & Hrun).
  cbv zeta in Hrun. rewrite actualFrameRate_effective in Hopt.
  pose proof (extractSWF_log_kinds swfFile (tempDirOf swfFile outputMP4) None None
                (extraction w)) as Hkinds.
  assert (Hnone : List.filter is_encode
            (extractSWF swfFile (tempDirOf swfFile outputMP4) None None (extraction w)).2 = []).
  { apply filter_none. eapply Forall_impl; [exact Hkinds|]. now intros a [Ha _]. }
  assert (Hin : forall c,
            ~ In (EncodeCommandRun c)
                (extractSWF swfFile (tempDirOf swfFile outputMP4) None None (extraction w)).2)
    by (intros c; apply extractSWF_runs_no_encode).
  assert (Hclean : forall c,
            ~ In (EncodeCommandRun c)
                (if negb (keepExtracted options) && tempDirRemains w
                 then [DirectoryRemoved (tempDirOf swfFile outputMP4)] else []))
    by (intros c; destruct (negb _ && _); simpl; intuition discriminate).
  split; [|split; [|split]].
  - intros H. unfold effectiveRate.
    destruct (framerate options =? 30) eqn:E30; [apply Z.eqb_eq in E30; congruence|reflexivity].
  - intros H. unfold effectiveRate. now rewrite H.
  - intros c. rewrite Hrun.
    destruct ((extractSWF swfFile (tempDirOf swfFile outputMP4) None None (extraction w)).1)
      as [[]|e]; simpl;
      [destruct (framesOnDisk (disk (extraction w)) (tempDirOf swfFile outputMP4)); simpl;
       [destruct (writeFailure w) as [message|]; simpl|]|];
      intros Hc; apply in_app_or in Hc as [Hc|Hc];
      try (now destruct (Hin c)); try (now destruct (Hclean c)).
    destruct Hc as [[= <-]|Hc]; [exact Hopt|now destruct (Hclean c)].
  - intros Hx Hf Hw. exists cmd. split; [|exact Hopt].
    rewrite Hrun, Hx, Hf, Hw. simpl.
    rewrite List.filter_app, Hnone. simpl.
    destruct (negb _ && _); reflexivity.
Qed.

(** ** Runs of the samples *)

Example partial_extraction_succeeds :
  (extractSWF "b.swf" "out" None None partial_world).1 = Returned tt.
Proof. vm_compute. reflexivity. Qed.

Example failed_extraction_throws :
  (extractSWF "b.swf" "out" None None failed_world).1 = Thrown noFramesError.
Proof. vm_compute. reflexivity. Qed.

Example late_close_counts_as_closed :
  (extractSWF "b.swf" "out" None None failed_then_closed_world).1 = Returned tt.
Proof. vm_compute. reflexivity. Qed.

Example missing_source_throws_from_stat :
  (extractSWF "b.swf" "out" None None stale_world).1 =
  Thrown (Error "ENOENT: no such file or directory, stat 'b.swf'").
Proof. vm_compute. reflexivity. Qed.

Example file_in_place_of_sounds_throws :
  extractSWF "b.swf" "out" None None blocked_world =
  (Thrown (Error "ENOTDIR: not a directory, scandir 'out/sounds'"),
   [JavaSpawned ["-jar"; "bin/ffdec.jar"; "-export"; "frame,sound"; "out"; "b.swf"]]).
Proof. vm_compute. reflexivity. Qed.

Example unwritable_output_throws_before_the_spawn :
  extractSWF "b.swf" "out" None None readonly_world =
  (Thrown (Error "EACCES: permission denied, mkdir 'out'"), []).
Proof. vm_compute. reflexivity. Qed.

Example file_in_place_of_frames_throws :
  (analyzeExtractedContent sample_engine "out" blocked_fs).1 =
  Thrown (Error "ENOTDIR: not a directory, scandir 'out/frames'").
Proof. vm_compute. reflexivity. Qed.

Example numbered_frames_in_order :
  (analyzeExtractedContent sample_engine "out" numbered_fs).1 = Returned numbered_manifest.
Proof. vm_compute. reflexivity. Qed.

Example mixed_names_by_insertion :
  frameFiles (manifest_of sample_engine "out" mixed_fs) =
  ["out/a10.png"; "out/b.png"; "out/c2.png"].
Proof. vm_compute. reflexivity. Qed.

Example timeout_of_60_MB : autoTimeoutMinutes (fileSizeMB (60 * 1024 * 1024)) = 95.
Proof. vm_compute. reflexivity. Qed.

Example timeout_of_an_empty_file : autoTimeoutMinutes (fileSizeMB 0) = 10.
Proof. vm_compute. reflexivity. Qed.

Example banner_rate : detectSWFFrameRate (Some "ffmpeg") ffmpeg_banner = 15.
Proof. vm_compute. reflexivity. Qed.

Example fractional_rate : Probe.frameRateOf "Video: flv1, 29.97 fps, 30 tbr" = 30.
Proof. vm_compute. reflexivity. Qed.

Example no_break_space_before_marker : Probe.exec "fps" ("12" ++ String "160" "fps") = Some "12".
Proof. vm_compute. reflexivity. Qed.

Example tbr_after_unusable_fps : Probe.frameRateOf "1000 fps, 12.5 tbr" = 13.
Proof. vm_compute. reflexivity. Qed.

Example rate_below_a_half : Probe.frameRateOf "0.4 fps" = 0.
Proof. vm_compute. reflexivity. Qed.

Example probe_timer_before_close :
  detectSWFFrameRate (Some "ffmpeg") [Probe.Data "15 fps"; Probe.TimerElapsed; Probe.Closed] = 30.
Proof. vm_compute. reflexivity. Qed.

Example probe_error :
  detectSWFFrameRate (Some "ffmpeg") [Probe.Data "15 fps"; Probe.Failed "EACCES"; Probe.Closed] = 30.
Proof. vm_compute. reflexivity. Qed.

Example parseInt_from_2_to_the_53 :
  JS.parseInt "9007199254740993" = JS.Int 9007199254740992.
Proof. vm_compute. reflexivity. Qed.

Example conversion_at_detected_rate :
  convertSWF sample_engine "a.swf" "videos/a.mp4"
    {| framerate := 30; keepExtracted := false |} conversion_world =
  (Returned tt, conversion_log "15").
Proof. vm_compute. reflexivity. Qed.

Example conversion_at_requested_rate :
  convertSWF sample_engine "a.swf" "videos/a.mp4"
    {| framerate := 24; keepExtracted := false |} conversion_world =
  (Returned tt, conversion_log "24").
Proof. vm_compute. reflexivity. Qed.

(** * Further properties of the code *)

(** ** The timeout by ranges of the size *)

(** X1: the computed timeout is 10 + S minutes up to 20 MB, 1.5 S minutes
    from 20 to 50 MB and 2 S - 25 minutes above 50 MB, each rounded to the
    nearest minute. *)
Theorem autoTimeout_by_range (S : Q) :
  ((0 <= S)%Q -> (S <= 20)%Q -> autoTimeoutMinutes S = Num.round (10 + S)%Q) /\
  ((20 < S)%Q -> (S <= 50)%Q -> autoTimeoutMinutes S = Num.round ((3 # 2) * S)%Q) /\
  ((50 < S)%Q -> autoTimeoutMinutes S = Num.round (2 * S - 25)%Q).
Proof.
  unfold autoTimeoutMinutes, Num.round, calculatedTimeout. repeat split.
  - intros H0 H20.
    assert (E20 : Num.gtb S 20 = false) by (apply gtb_false; lra).
    assert (E50 : Num.gtb S 50 = false) by (apply gtb_false; lra).
    rewrite E20, E50. apply Z.max_r.
    apply (Z.le_trans _ (Qfloor 10)); [discriminate|apply Qfloor_resp_le; lra].
  - intros H20 H50.
    assert (E20 : Num.gtb S 20 = true) by (apply gtb_true; lra).
    assert (E50 : Num.gtb S 50 = false) by (apply gtb_false; lra).
    rewrite E20, E50.
    rewrite (Qfloor_comp _ ((3 # 2) * S + (1 # 2))%Q) by lra.
    apply Z.max_r.
    apply (Z.le_trans _ (Qfloor 10)); [discriminate|apply Qfloor_resp_le; lra].
  - intros H50.
    assert (E20 : Num.gtb S 20 = true) by (apply gtb_true; lra).
    assert (E50 : Num.gtb S 50 = true) by (apply gtb_true; lra).
    rewrite E20, E50.
    rewrite (Qfloor_comp _ (2 * S - 25 + (1 # 2))%Q) by lra.
    apply Z.max_r.
    apply (Z.le_trans _ (Qfloor 10)); [discriminate|apply Qfloor_resp_le; lra].
Qed.


(** ** The child process of [extractSWF] *)

Lemma progress_only_dispatch (e : child_event) :
  progress_only e -> exists data, dispatch e = OnStdout data.
Proof.
  destruct e as [data|data| |message]; simpl; try tauto.
  - eauto.
  - intros [-> ->]. simpl. eauto.
Qed.

Lemma progress_then_close (evs : list child_event) (rest : list tick) :
  Forall progress_only evs ->
  timed_out (map Child evs ++ Child Close :: rest) = false /\
  existsb is_close (map Child evs ++ Child Close :: rest) = true.
Proof.
  induction 1 as [|e evs He _ [IH1 IH2]].
  - split; reflexivity.
  - destruct (progress_only_dispatch e He) as [data Hd].
    split.
    + change (timed_out (Child e :: (map Child evs ++ Child Close :: rest)) = false).
      simpl. now rewrite Hd.
    + change (existsb is_close (Child e :: (map Child evs ++ Child Close :: rest)) = true).
      change (is_close (Child e) || existsb is_close (map Child evs ++ Child Close :: rest)
              = true).
      rewrite IH2. apply orb_true_r.
Qed.


(** X2: when the child only writes progress and warnings (anything on
    standard output, and data on standard error that holds neither
    "Input SWF file does not exist" nor "Bad Commandline Arguments") and
    then closes, and the directories of the output could be made,
    [extractSWF] returns normally, whatever frames are on disk, also without
    a single one; it throws only where a regular file stands in place of a
    directory it lists, with the error of that listing. *)
Theorem warnings_then_close_succeed
    (swfFile outputDir : string) (testFrames : option Z)
    (timeoutMinutes : option jsnumber) (w : World)
    (evs : list child_event) (rest : list tick) :
  sourcePresent w = true ->
  mkdirFailure w = None ->
  Forall progress_only evs ->
  timeline w = (map Child evs ++ Child Close :: rest)%list ->
  (extractSWF swfFile outputDir testFrames timeoutMinutes w).1 =
  match first_file (disk w) (listedByExtraction outputDir) with
  | Some p => Thrown (notADirectory p)
  | None => Returned tt
  end.
Proof.
  intros Hsrc Hmk Hevs Htl.
  destruct (progress_then_close evs rest Hevs) as [Hto Hcl].
  rewrite extractSWF_run.
  pose proof (finalTimeoutMinutes_thrown timeoutMinutes w swfFile) as Hsize.
  unfold sizeUnreadable in Hsize. rewrite Hsrc, andb_false_r in Hsize.
  destruct (finalTimeoutMinutes _ _) as [minutes|e]; [|discriminate].
  cbv zeta. unfold decompilerTimedOut, decompilerClosed, childSpawned, extractSWFContent.
  rewrite Hsrc, Hmk, Htl, Hto, Hcl.
  rewrite bool_decide_eq_false_2 by (intros [? ?]; discriminate). simpl.
  unfold first_file, listedByExtraction. cbn [List.find].
  destruct (is_file (disk w) (Path.join outputDir "sounds")); [reflexivity|].
  destruct (is_file (disk w) (Path.join outputDir "frames")); [reflexivity|].
  destruct (is_file (disk w) outputDir); reflexivity.
Qed.

Lemma warnings_then_close_succeed_witness :
  (extractSWF "c.swf" "out" None None warned_world).1 =
  match first_file (disk warned_world) (listedByExtraction "out") with
  | Some p => Thrown (notADirectory p)
  | None => Returned tt
  end.
Proof.
  apply (warnings_then_close_succeed "c.swf" "out" None None warned_world
           [Stderr "SEVERE: Error during tag reading"; Stdout "OK"] []).
  - reflexivity.
  - reflexivity.
  - repeat constructor.
  - reflexivity.
Defined.

(** X3: with an override in force and no source file, [extractSWF] spawns
    no child and sends no signal.  Where a regular file stands in place of a
    directory it lists, it throws the error of that listing, before the
    audio fallback when the file is at sounds; otherwise it calls the audio
    fallback and its result rests on the frames on disk alone: it returns
    when a frame file is there (left by an earlier run) and throws the
    no-frames error otherwise. *)
Theorem missing_source_with_override
    (swfFile outputDir : string) (testFrames : option Z)
    (override : jsnumber) (w : World) :
  Num.truthy override = true ->
  swfSize w = None ->
  let run := extractSWF swfFile outputDir testFrames (Some override) w in
  run.1 =
    match first_file (disk w) (listedByExtraction outputDir) with
    | Some p => Thrown (notADirectory p)
    | None => if framesOnDisk (disk w) outputDir then Returned tt else Thrown noFramesError
    end /\
  List.filter is_spawn run.2 = [] /\
  List.filter is_signal run.2 = [] /\
  (In (AudioFallbackCalled swfFile outputDir) run.2 <->
   is_file (disk w) (Path.join outputDir "sounds") = false).
Proof.
  intros Ht Hs. cbv zeta. rewrite extractSWF_run.
  unfold finalTimeoutMinutes. rewrite Ht. cbv zeta.
  unfold decompilerTimedOut, decompilerClosed, childSpawned, sourcePresent, extractSWFContent.
  rewrite Hs. rewrite bool_decide_eq_false_2 by (intros [? ?]; discriminate).
  simpl. unfold first_file, listedByExtraction. cbn [List.find].
  destruct (is_file (disk w) (Path.join outputDir "sounds")); simpl.
  { repeat split; try discriminate. tauto. }
  assert (Haudio : forall f, (f = is_spawn \/ f = is_signal) ->
            List.filter f (extractAudioWithFFmpeg swfFile outputDir w).2 = []).
  { intros f Hf. unfold extractAudioWithFFmpeg.
    destruct (ffmpegInitialized w), (soundsMkdirFailure w), Hf as [-> | ->]; reflexivity. }
  split; [|split; [|split]].
  - destruct (is_file (disk w) (Path.join outputDir "frames")); [reflexivity|].
    destruct (is_file (disk w) outputDir); [reflexivity|].
    now destruct (framesOnDisk (disk w) outputDir).
  - apply Haudio. now left.
  - apply Haudio. now right.
  - split; [reflexivity|]. intros _. now left.
Qed.

Lemma missing_source_with_override_witness :
  let run := extractSWF "gone.swf" "out" None (Some (JsNum 1)) stale_world in
  run.1 =
    match first_file (disk stale_world) (listedByExtraction "out") with
    | Some p => Thrown (notADirectory p)
    | None =>
        if framesOnDisk (disk stale_world) "out" then Returned tt else Thrown noFramesError
    end /\
  List.filter is_spawn run.2 = [] /\
  List.filter is_signal run.2 = [] /\
  (In (AudioFallbackCalled "gone.swf" "out") run.2 <->
   is_file (disk stale_world) (Path.join "out" "sounds") = false).
Proof.
  apply (missing_source_with_override "gone.swf" "out" None (JsNum 1) stale_world);
    reflexivity.
Defined.

(** X4: a run of [extractSWF] spawns the child at most once, exactly when
    the timeout could be set, the source exists and the directories of the
    output could be made, with the output directory and the source as the
    last two arguments.  It signals the child only when the wait ended with
    the timer: SIGTERM once, after the spawn, and with it a timer of five
    seconds, whose callback sends SIGKILL unless the child is marked killed
    by then. *)
Theorem child_spawned_once_signalled_on_timeout
    (swfFile outputDir : string) (testFrames : option Z)
    (timeoutMinutes : option jsnumber) (w : World) :
  let log := (extractSWF swfFile outputDir testFrames timeoutMinutes w).2 in
  let params :=
    buildExtractionParameters (jarPath w)
      {| swfFile := swfFile; outputDir := outputDir; testFrames := testFrames |} in
  List.filter is_spawn log =
    (if negb (sizeUnreadable timeoutMinutes w) && sourcePresent w &&
        negb (bool_decide (is_Some (mkdirFailure w)))
     then [JavaSpawned params] else []) /\
  List.filter is_signal log =
    (if negb (sizeUnreadable timeoutMinutes w) && decompilerTimedOut w
     then [JavaSignalled "SIGTERM"] else []) /\
  List.filter is_escalation log =
    (if negb (sizeUnreadable timeoutMinutes w) && decompilerTimedOut w
     then [EscalationArmed 5000] else []) /\
  (decompilerTimedOut w = true -> sizeUnreadable timeoutMinutes w = false ->
   log = [JavaSpawned params; JavaSignalled "SIGTERM"; EscalationArmed 5000]) /\
  (forall killed, onEscalation killed = if killed then [] else [Kill "SIGKILL"]) /\
  (exists front, params = (front ++ [outputDir; swfFile])%list).
Proof.
  cbv zeta. rewrite extractSWF_run.
  pose proof (finalTimeoutMinutes_thrown timeoutMinutes w swfFile) as Hsize.
  assert (Hlast : exists front,
            buildExtractionParameters (jarPath w)
              {| swfFile := swfFile; outputDir := outputDir; testFrames := testFrames |}
            = (front ++ [outputDir; swfFile])%list)
    by (unfold buildExtractionParameters; eauto).
  assert (Hesc : forall killed, onEscalation killed = if killed then [] else [Kill "SIGKILL"])
    by (now intros []).
  destruct (finalTimeoutMinutes _ _) as [minutes|e]; simpl in Hsize; rewrite <- Hsize.
  - cbv zeta. unfold decompilerTimedOut, childSpawned, extractSWFContent,
      extractAudioWithFFmpeg.
    destruct (sourcePresent w); simpl.
    + destruct (mkdirFailure w) as [message|].
      * rewrite bool_decide_eq_true_2 by eauto. simpl. repeat split; auto; discriminate.
      * rewrite bool_decide_eq_false_2 by (intros [? ?]; discriminate). simpl.
        destruct (timed_out (timeline w)); simpl; [repeat split; auto|].
        destruct (is_file (disk w) (Path.join outputDir "sounds")); simpl;
          [repeat split; auto; discriminate|].
        destruct (ffmpegInitialized w), (soundsMkdirFailure w); simpl;
          repeat split; auto; discriminate.
    + destruct (is_file (disk w) (Path.join outputDir "sounds")); simpl;
        [repeat split; auto; discriminate|].
      destruct (ffmpegInitialized w), (soundsMkdirFailure w); simpl;
        repeat split; auto; discriminate.
  - simpl. repeat split; auto; discriminate.
Qed.

(** ** The manifest and the frames check *)

(** X5: a manifest that the reconciler returns counts the frames of the
    larger of the two listings, as many as it lists paths, and holds a frame
    exactly when the frames check at the end of [extractSWF] finds one, so
    the two steps never disagree on whether frames exist; the reconciler
    returns a manifest for every tree where no regular file stands in place
    of a directory it lists, and it throws wherever the frames check
    throws. *)
Theorem manifest_agrees_with_frames_check
    (E : JS.Engine) (outputDir : string) (fs : filesystem) :
  (forall m, analyzeExtractedContent E outputDir fs = (Returned m, fs) ->
     frameCount m = length (frameFiles m) /\
     frameCount m =
       Nat.max (length (recognized fs (Path.join outputDir "frames")))
               (length (recognized fs outputDir)) /\
     (hasFrames outputDir fs).1 = Returned (0 <? frameCount m)%nat) /\
  (first_file fs (listedByReconciler outputDir) = None ->
   exists m, analyzeExtractedContent E outputDir fs = (Returned m, fs)) /\
  (is_thrown (hasFrames outputDir fs).1 = true ->
   is_thrown (analyzeExtractedContent E outputDir fs).1 = true).
Proof.
  rewrite analyzeExtractedContent_run, hasFrames_run.
  unfold first_file, listedByReconciler. cbn [List.find].
  destruct (manifest_of_count E outputDir fs) as [Hzero Hlen]. cbv zeta in Hzero, Hlen.
  destruct (manifest_of_layout E outputDir fs) as (_ & Hiff & _ & Hcount).
  cbv zeta in Hiff, Hcount.
  destruct (is_file fs (Path.join outputDir "frames")); simpl;
    [repeat split; intros; try discriminate; auto|].
  destruct (is_file fs outputDir); simpl;
    [repeat split; intros; try discriminate; auto|].
  split; [|split].
  - destruct (is_file fs (Path.join outputDir "sounds")); [discriminate|].
    intros m [= <-]. split; [exact Hlen|]. split.
    + rewrite Hcount.
      destruct (Nat.lt_ge_cases (length (recognized fs outputDir))
                  (length (recognized fs (Path.join outputDir "frames")))) as [L|L].
      * pose proof L as Hd. apply Hiff in Hd. rewrite Hd. lia.
      * assert (Hd : framesDir (manifest_of E outputDir fs) = outputDir).
        { unfold manifest_of. cbv zeta.
          apply Nat.ltb_ge in L. now rewrite L. }
        rewrite Hd. lia.
    + f_equal.
      destruct (frameCount (manifest_of E outputDir fs)) eqn:C;
        destruct (framesOnDisk fs outputDir); simpl in Hzero;
        first [reflexivity | discriminate Hzero].
  - destruct (is_file fs (Path.join outputDir "sounds")); [discriminate|]. eauto.
  - discriminate.
Qed.

(** X18: the frames of a manifest are those of the chosen directory,
    whatever the order of the listing; when every name among them holds
    digits that read as an integer, or none holds a digit, they are in
    ascending order, by that integer in the first case and by the collation
    of the engine in the second; in particular the names 1.png, ..., N.png,
    N below 2^53, come out as 1.png, ..., N.png. *)
Theorem frames_sorted_when_names_uniform
    (E : JS.Engine) (outputDir : string) (fs : filesystem) (m : ExtractedContent) :
  analyzeExtractedContent E outputDir fs = (Returned m, fs) ->
  Permutation (frameFiles m)
    (map (Path.join (framesDir m)) (recognized fs (framesDir m))) /\
  (uniform_names (frameFiles m) -> StronglySorted (frame_order E) (frameFiles m)) /\
  (forall N : nat,
     Z.of_nat N < 2 ^ 53 ->
     Permutation (recognized fs (framesDir m)) (map frame_name (seq 1 N)) ->
     frameFiles m = sequential_frames (framesDir m) N).
Proof.
  rewrite analyzeExtractedContent_run.
  destruct (first_file fs (listedByReconciler outputDir)); [discriminate|].
  intros [= <-].
  destruct (manifest_of_layout E outputDir fs) as (_ & _ & Hperm & _). cbv zeta in Hperm.
  split; [exact Hperm|]. revert Hperm. unfold manifest_of. cbv zeta. simpl.
  set (chosen := if (_ <? _)%nat then _ else _). intros Hperm.
  split.
  - intros [H|H]; apply sort_frames_uniform; [left|right];
      rewrite List.Forall_forall in *; intros p Hp; apply H;
      now apply (Permutation_in _ (Permutation_sym (JS.sort_permutation E _ _))).
  - intros N HN Hrec. apply sort_sequential; [exact HN|].
    rewrite <- (JS.sort_permutation E (compareFrames E) chosen.1), Hperm, Hrec.
    unfold sequential_frames. now rewrite List.map_map.
Qed.

Lemma frames_sorted_when_names_uniform_witness :
  Permutation (frameFiles numbered_manifest)
    (map (Path.join (framesDir numbered_manifest))
       (recognized numbered_fs (framesDir numbered_manifest))) /\
  (uniform_names (frameFiles numbered_manifest) ->
   StronglySorted (frame_order sample_engine) (frameFiles numbered_manifest)) /\
  (forall N : nat,
     Z.of_nat N < 2 ^ 53 ->
     Permutation (recognized numbered_fs (framesDir numbered_manifest))
       (map frame_name (seq 1 N)) ->
     frameFiles numbered_manifest = sequential_frames (framesDir numbered_manifest) N).
Proof.
  apply (frames_sorted_when_names_uniform sample_engine "out" numbered_fs numbered_manifest).
  vm_compute. reflexivity.
Defined.

(** ** The coordinator, step by step *)

(** X6: a conversion returns normally exactly when the extraction returned,
    a frame file is on disk, the output directory is writable and the encode
    ended without an error; the encoder is run at most once, and only in the
    first three of these circumstances; an extraction that returned without
    frames ends the conversion with the no-frames error. *)
Theorem conversion_succeeds_iff
    (E : JS.Engine) (swfFile outputMP4 : string) (options : ConversionOptions)
    (w : ConversionWorld) :
  let tempDir := tempDirOf swfFile outputMP4 in
  let run := convertSWF E swfFile outputMP4 options w in
  let extracted := (extractSWF swfFile tempDir None None (extraction w)).1 in
  let frames := framesOnDisk (disk (extraction w)) tempDir in
  (run.1 = Returned tt <->
   extracted = Returned tt /\ frames = true /\
   writeFailure w = None /\ encodeRun w = FfmpegEnd) /\
  ((exists cmd, List.filter is_encode run.2 = [EncodeCommandRun cmd]) <->
   extracted = Returned tt /\ frames = true /\ writeFailure w = None) /\
  (List.filter is_encode run.2 = [] \/
   exists cmd, List.filter is_encode run.2 = [EncodeCommandRun cmd]) /\
  (extracted = Returned tt -> frames = false ->
   run.1 = Thrown (Error "No frames were extracted from the SWF file")).
Proof.
  cbv zeta.
  destruct (convertSWF_run E swfFile outputMP4 options w) as (cmd & _ & Hrun).
  cbv zeta in Hrun. rewrite Hrun. clear Hrun.
  pose proof (extractSWF_log_kinds swfFile (tempDirOf swfFile outputMP4) None None
                (extraction w)) as Hkinds.
  assert (Hnone : List.filter is_encode
            (extractSWF swfFile (tempDirOf swfFile outputMP4) None None (extraction w)).2 = []).
  { apply filter_none. eapply Forall_impl; [exact Hkinds|]. now intros a [Ha _]. }
  assert (Hnil : List.filter is_encode
                   (if negb (keepExtracted options) && tempDirRemains w
                    then [DirectoryRemoved (tempDirOf swfFile outputMP4)] else [])
                 = []) by (destruct (negb _ && _); reflexivity).
  destruct ((extractSWF swfFile (tempDirOf swfFile outputMP4) None None (extraction w)).1)
    as [[]|e]; simpl;
    [destruct (framesOnDisk (disk (extraction w)) (tempDirOf swfFile outputMP4)); simpl;
     [destruct (writeFailure w) as [message|]; simpl; [|destruct (encodeRun w); simpl]|]|];
    rewrite ?List.filter_app, ?Hnone; simpl; rewrite ?Hnil;
    repeat split; intros;
    repeat match goal with
           | H : _ /\ _ |- _ => destruct H
           | H : exists _, _ |- _ => destruct H
           end;
    try discriminate; try congruence;
    try (left; reflexivity); try (right; eexists; reflexivity);
    try (eexists; reflexivity).
Qed.

(** ** From the manifest to the input of the encoder *)

Lemma substring_prefix (d t : string) : substring 0 (String.length d) (d ++ t) = d.
Proof.
  induction d as [|c d IH]; [now destruct t|].
  rewrite append_cons. simpl. now rewrite IH.
Qed.

Lemma dirname_join_frame (dir : string) :
  dir <> "" -> Path.dirname (Path.join dir "1.png") = dir.
Proof.
  intros Hd. unfold Path.dirname. rewrite basename_join.
  change (Path.basename "1.png") with "1.png".
  unfold Path.join.
  destruct (String.eqb dir "") eqn:E0; [apply String.eqb_eq in E0; congruence|].
  destruct (String.eqb dir ".") eqn:E1; [apply String.eqb_eq in E1; now subst|].
  destruct (String.eqb dir "/") eqn:E2; [apply String.eqb_eq in E2; now subst|].
  simpl orb. cbv iota.
  rewrite length_append.
  replace (String.length dir + String.length ("/" ++ "1.png") - String.length "1.png")%nat
    with (S (String.length dir)) by (simpl; lia).
  destruct dir as [|c dir]; [congruence|].
  change (String.length (String c dir)) with (S (String.length dir)).
  cbv iota.
  change (S (String.length dir)) with (String.length (String c dir)).
  apply substring_prefix.
Qed.

Lemma extname_join_frame (dir : string) : Path.extname (Path.join dir "1.png") = ".png".
Proof. unfold Path.extname. rewrite basename_join. reflexivity. Qed.

(** X8: when the recognized frame files of the chosen directory are 1.png,
    ..., N.png in whatever order, with N at least 1 and below 2^53, the
    manifest lists them in numeric order, 1.png first, and counts N of
    them, and the assembly driver starts the encoder on the pattern %d.png
    in that same directory, followed by the first audio file of the manifest
    if there is one. *)
Theorem sequential_frames_reach_the_encoder
    (E : JS.Engine) (outputDir outputPath : string) (fs : filesystem)
    (m : ExtractedContent) (N : nat) (framerate : Z) (encodeRun : ffmpeg_event) :
  outputDir <> "" ->
  Z.of_nat (S N) < 2 ^ 53 ->
  analyzeExtractedContent E outputDir fs = (Returned m, fs) ->
  Permutation (recognized fs (framesDir m)) (map frame_name (seq 1 (S N))) ->
  frameFiles m = sequential_frames (framesDir m) (S N) /\
  frameCount m = S N /\
  exists cmd,
    (convertFramesToMP4 m outputPath framerate None encodeRun).2 = [EncodeCommandRun cmd] /\
    inputs cmd = Path.join (framesDir m) "%d.png" :: take 1 (audioFiles m).
Proof.
  intros Hout Hbound. rewrite analyzeExtractedContent_run.
  destruct (first_file fs (listedByReconciler outputDir)); [discriminate|].
  intros [= <-]. unfold manifest_of. cbv zeta.
  set (chosen := if (_ <? _)%nat then _ else _).
  simpl framesDir. simpl frameCount. intros HN.
  assert (Hdir : chosen.2 <> "").
  { subst chosen. destruct (_ <? _)%nat; simpl; [|exact Hout].
    unfold Path.join.
    destruct (String.eqb outputDir "" || String.eqb outputDir "."); [discriminate|].
    destruct (String.eqb outputDir "/"); [discriminate|].
    destruct outputDir; discriminate. }
  assert (Hframes : JS.sort E (compareFrames E) chosen.1 = sequential_frames chosen.2 (S N)).
  { apply sort_sequential; [exact Hbound|]. subst chosen. unfold sequential_frames.
    destruct (_ <? _)%nat; cbn [fst snd] in *; rewrite HN, List.map_map; reflexivity. }
  unfold convertFramesToMP4. simpl frameFiles. simpl audioFiles.
  rewrite Hframes.
  split; [reflexivity|].
  split; [unfold sequential_frames; now rewrite length_map, length_seq|].
  change (sequential_frames chosen.2 (S N))
    with (Path.join chosen.2 "1.png" :: map (fun i => Path.join chosen.2 (frame_name i)) (seq 2 N)).
  cbn [length Nat.eqb createFramePattern].
  rewrite (dirname_join_frame _ Hdir), extname_join_frame.
  eexists. split; [reflexivity|]. simpl.
  now destruct (map _ (audible fs _)).
Qed.

Lemma sequential_frames_reach_the_encoder_witness :
  frameFiles numbered_manifest = sequential_frames (framesDir numbered_manifest) 3 /\
  frameCount numbered_manifest = 3%nat /\
  exists cmd,
    (convertFramesToMP4 numbered_manifest "videos/a.mp4" 15 None FfmpegEnd).2 =
      [EncodeCommandRun cmd] /\
    inputs cmd =
      Path.join (framesDir numbered_manifest) "%d.png" ::
      take 1 (audioFiles numbered_manifest).
Proof.
  apply (sequential_frames_reach_the_encoder sample_engine "out" "videos/a.mp4" numbered_fs
           numbered_manifest 2 15 FfmpegEnd).
  - discriminate.
  - reflexivity.
  - vm_compute. reflexivity.
  - vm_compute. apply Permutation_sym.
    apply perm_trans with ["2.png"; "1.png"; "3.png"].
    + apply perm_swap.
    + apply perm_trans with ["2.png"; "3.png"; "1.png"]; [apply perm_skip, perm_swap|].
      apply perm_trans with ["3.png"; "2.png"; "1.png"]; [apply perm_swap|reflexivity].
Defined.

(** ** The text that the frame-rate probe collects *)

Lemma captured_chunks (chunks : list string) (rest : list Probe.probe_tick) (seen : string) :
  captured seen (map Probe.Data chunks ++ Probe.Closed :: rest) = Some (seen ++ joined chunks).
Proof.
  revert seen. induction chunks as [|chunk chunks IH]; intros seen; simpl.
  - now rewrite append_empty.
  - rewrite IH. f_equal. apply append_assoc.
Qed.

(** X9: the detector reads the standard error of the probe as one text: the
    rate it answers is that of the chunks put together, however the stream
    was cut into chunks (a marker may lie across two of them), and nothing
    that comes after the close counts. *)
Theorem detector_reads_joined_chunks
    (ffmpeg : string) (chunks : list string) (rest : list Probe.probe_tick) :
  detectSWFFrameRate (Some ffmpeg) (map Probe.Data chunks ++ Probe.Closed :: rest) =
  Probe.frameRateOf (joined chunks).
Proof.
  unfold detectSWFFrameRate, Probe.run.
  rewrite probe_run_resolves by reflexivity. simpl Probe.stderrData.
  now rewrite captured_chunks.
Qed.

(** ** The cleanup removes a tree from the leaves *)

Lemma node_induction (P : node -> Prop) :
  P FileNode ->
  (forall entries, Forall (fun entry => P (snd entry)) entries -> P (DirNode entries)) ->
  forall n, P n.
Proof.
  intros Hfile Hdir.
  refine (fix IH (n : node) : P n :=
            match n with
            | FileNode => Hfile
            | DirNode entries =>
                Hdir entries
                  ((fix go (es : list (string * node))
                      : Forall (fun entry => P (snd entry)) es :=
                      match es with
                      | [] => @List.Forall_nil _ _
                      | (name, child) :: es' =>
                          @List.Forall_cons _ _ (name, child) es' (IH child) (go es')
                      end) entries)
            end).
Qed.

Lemma append_inj (p a b : string) : p ++ a = p ++ b -> a = b.
Proof.
  induction p as [|c p IH]; intros H; [exact H|].
  rewrite !append_cons in H. injection H as H. auto.
Qed.

Lemma slash_free_whole (n x m : string) : slash_free m -> n ++ "/" ++ x <> m.
Proof.
  revert m. induction n as [|c n IH]; intros [|c' m] Hm H.
  - discriminate H.
  - change ("" ++ "/" ++ x) with (String "/" x) in H. injection H as Hc _.
    destruct Hm as [Hm _]. congruence.
  - rewrite append_cons in H. discriminate H.
  - rewrite append_cons in H. injection H as _ H. destruct Hm as [_ Hm].
    exact (IH m Hm H).
Qed.

Lemma slash_free_split (n m x y : string) :
  slash_free n -> slash_free m -> n ++ "/" ++ x = m ++ "/" ++ y -> n = m.
Proof.
  revert m. induction n as [|c n IH]; intros [|c' m] Hn Hm H.
  - reflexivity.
  - change ("" ++ "/" ++ x) with (String "/" x) in H. rewrite append_cons in H.
    injection H as Hc _. destruct Hm as [Hm _]. congruence.
  - change ("" ++ "/" ++ y) with (String "/" y) in H. rewrite append_cons in H.
    injection H as Hc _. destruct Hn as [Hn _]. congruence.
  - rewrite !append_cons in H. injection H as Hc H.
    destruct Hn as [_ Hn], Hm as [_ Hm]. f_equal; [exact Hc | exact (IH m Hn Hm H)].
Qed.

Lemma join_proper (p name : string) :
  p <> "" -> p <> "." -> p <> "/" -> Path.join p name = p ++ "/" ++ name.
Proof.
  intros H1 H2 H3. unfold Path.join.
  destruct (String.eqb_spec p ""); [contradiction|].
  destruct (String.eqb_spec p "."); [contradiction|].
  destruct (String.eqb_spec p "/"); [contradiction|].
  reflexivity.
Qed.

Lemma joined_proper (p name : string) :
  p <> "" ->
  p ++ "/" ++ name <> "" /\ p ++ "/" ++ name <> "." /\ p ++ "/" ++ name <> "/".
Proof.
  intros Hp. destruct p as [|c p]; [contradiction|].
  rewrite append_cons. repeat split; try discriminate.
  - destruct p; discriminate.
  - destruct p; discriminate.
Qed.

Lemma below_joined (p name q : string) :
  q = p ++ "/" ++ name \/ below (p ++ "/" ++ name) q -> below p q.
Proof.
  intros [->|[r ->]].
  - exists name. reflexivity.
  - exists (name ++ "/" ++ r). rewrite !append_assoc. reflexivity.
Qed.

(** the calls stay in the tree *)
Lemma removeEntry_confined (n : node) :
  forall p, p <> "" -> p <> "." -> p <> "/" ->
  Forall (fun c => call_path c = p \/ below p (call_path c)) (removeEntry p n).
Proof.
  induction n as [|entries IH] using node_induction; intros p H1 H2 H3.
  - repeat constructor.
  - cbn [removeEntry]. apply List.Forall_app. split; [|repeat constructor].
    apply List.Forall_forall. intros c Hc.
    apply List.in_flat_map in Hc. destruct Hc as [[name child] [He Hc]].
    cbn [fst snd] in Hc. rewrite join_proper in Hc by assumption.
    rewrite List.Forall_forall in IH. specialize (IH _ He). cbn [snd] in IH.
    destruct (joined_proper p name H1) as (J1 & J2 & J3).
    specialize (IH _ J1 J2 J3). rewrite List.Forall_forall in IH.
    right. apply (below_joined p name). exact (IH c Hc).
Qed.

Lemma not_below_parent (p name d : string) :
  d = p ++ "/" ++ name \/ below (p ++ "/" ++ name) d -> ~ below d p.
Proof.
  intros Hd [r Hr].
  assert (Hlen : (String.length p < String.length d)%nat).
  { destruct Hd as [->|[r' ->]]; rewrite !length_append; simpl; lia. }
  apply (f_equal String.length) in Hr. rewrite !length_append in Hr. lia.
Qed.

Lemma not_below_sibling (p n m d q : string) :
  slash_free n -> slash_free m -> n <> m ->
  d = p ++ "/" ++ n \/ below (p ++ "/" ++ n) d ->
  q = p ++ "/" ++ m \/ below (p ++ "/" ++ m) q ->
  ~ below d q.
Proof.
  intros Hn Hm Hnm Hd Hq [r Hr].
  assert (Hd' : exists z, d ++ "/" ++ r = p ++ "/" ++ n ++ "/" ++ z).
  { destruct Hd as [->|[r' ->]].
    - exists r. rewrite !append_assoc. reflexivity.
    - exists (r' ++ "/" ++ r). rewrite !append_assoc. reflexivity. }
  destruct Hd' as [z Hz]. rewrite Hz in Hr. clear Hz Hd.
  destruct Hq as [->|[r' ->]].
  - apply append_inj in Hr.
    change ("/" ++ m) with (String "/" m) in Hr.
    change ("/" ++ n ++ "/" ++ z) with (String "/" (n ++ "/" ++ z)) in Hr.
    injection Hr as Hr. symmetry in Hr. exact (slash_free_whole n z m Hm Hr).
  - rewrite !append_assoc in Hr. apply append_inj in Hr.
    change ("/" ++ m ++ "/" ++ r') with (String "/" (m ++ "/" ++ r')) in Hr.
    change ("/" ++ n ++ "/" ++ z) with (String "/" (n ++ "/" ++ z)) in Hr.
    injection Hr as Hr. symmetry in Hr.
    exact (Hnm (slash_free_split n m z r' Hn Hm Hr)).
Qed.

Lemma bottom_up_app (l1 l2 : list fs_call) :
  removed_bottom_up l1 -> removed_bottom_up l2 ->
  (forall d c, In (RmdirSync d) l1 -> In c l2 -> ~ below d (call_path c)) ->
  removed_bottom_up (l1 ++ l2).
Proof.
  intros Q1 Q2 Hcross before d after Heq.
  apply List.app_eq_app in Heq. destruct Heq as [l [[E1 E2]|[E1 E2]]].
  - destruct l as [|c l].
    + simpl in E2. rewrite List.app_nil_r in E1. subst.
      exact (Q2 [] d after eq_refl).
    + simpl in E2. injection E2 as Ec Ea. subst c after.
      apply List.Forall_app. split.
      * exact (Q1 before d l E1).
      * apply List.Forall_forall. intros c Hc. apply Hcross; [|exact Hc].
        rewrite E1. apply List.in_app_iff. right. left. reflexivity.
  - exact (Q2 l d after E2).
Qed.

Lemma removeEntry_bottom_up (n : node) :
  forall p, p <> "" -> p <> "." -> p <> "/" -> well_formed n ->
  removed_bottom_up (removeEntry p n).
Proof.
  induction n as [|entries IH] using node_induction; intros p H1 H2 H3 Hwf.
  - intros before d after Heq. destruct before as [|c [|c' before]]; discriminate Heq.
  - cbn [removeEntry]. destruct Hwf as [Hdup Hwf].
    assert (Hlast : removed_bottom_up [RmdirSync p]).
    { intros before d after Heq.
      destruct before as [|c [|c' before]]; try discriminate Heq.
      injection Heq as _ <-. constructor. }
    induction entries as [|[name child] entries IHentries].
    + exact Hlast.
    + cbn [flat_map fst snd]. rewrite <- List.app_assoc.
      cbn [map fst] in Hdup. apply List.NoDup_cons_iff in Hdup.
      destruct Hdup as [Hfresh Hdup].
      cbn [fold_right fst snd] in Hwf. destruct Hwf as (Hname & Hchild & Hwf).
      apply List.Forall_cons_iff in IH. destruct IH as [IHchild IH].
      cbn [snd] in IHchild.
      rewrite join_proper by assumption.
      destruct (joined_proper p name H1) as (J1 & J2 & J3).
      apply bottom_up_app.
      * exact (IHchild _ J1 J2 J3 Hchild).
      * exact (IHentries IH Hdup Hwf).
      * intros d c Hd Hc.
        pose proof (removeEntry_confined child _ J1 J2 J3) as Hconf.
        rewrite List.Forall_forall in Hconf. specialize (Hconf _ Hd).
        cbn [call_path] in Hconf.
        apply List.in_app_iff in Hc. destruct Hc as [Hc|[<-|[]]].
        -- apply List.in_flat_map in Hc. destruct Hc as [[name' child'] [He Hc]].
           cbn [fst snd] in Hc. rewrite join_proper in Hc by assumption.
           destruct (joined_proper p name' H1) as (K1 & K2 & K3).
           pose proof (removeEntry_confined child' _ K1 K2 K3) as Hconf'.
           rewrite List.Forall_forall in Hconf'. specialize (Hconf' _ Hc).
           assert (Hname' : slash_free name').
           { clear - Hwf He. induction entries as [|e es IHes]; [destruct He|].
             cbn [fold_right] in Hwf. destruct Hwf as (Hs & _ & Hwf).
             destruct He as [->|He]; [exact Hs | exact (IHes Hwf He)]. }
           assert (Hne : name <> name').
           { intros ->. apply Hfresh. apply List.in_map_iff.
             exists (name', child'). split; [reflexivity | exact He]. }
           exact (not_below_sibling p name name' d (call_path c)
                    Hname Hname' Hne Hconf Hconf').
        -- cbn [call_path]. exact (not_below_parent p name d Hconf).
Qed.

Lemma Permutation_flat_map_pointwise {A B : Type} (f g : A -> list B) (l : list A) :
  Forall (fun a => Permutation (f a) (g a)) l ->
  Permutation (flat_map f l) (flat_map g l).
Proof.
  induction 1 as [|a l Ha _ IH]; simpl.
  - constructor.
  - apply Permutation_app; assumption.
Qed.

Lemma removeEntry_removals (n : node) :
  forall p, Permutation (removeEntry p n) (removals p n).
Proof.
  induction n as [|entries IH] using node_induction; intros p.
  - reflexivity.
  - cbn [removeEntry removals].
    etransitivity; [symmetry; apply Permutation_cons_append|].
    constructor. apply Permutation_flat_map_pointwise.
    eapply List.Forall_impl; [|exact IH].
    intros [name child] H. cbn [fst snd] in *. apply H.
Qed.

(** X10: removing a directory makes exactly one call for each node of its
    tree, [fs.unlinkSync] for a file and [fs.rmdirSync] for a directory,
    and the last call removes the directory itself; a path that does not
    exist costs no call. *)
Theorem removeDirectory_one_call_per_node (dirPath : string) (entries : list (string * node)) :
  removeDirectory dirPath None = Returned [] /\
  exists calls,
    removeDirectory dirPath (Some (DirNode entries)) =
      Returned (calls ++ [RmdirSync dirPath])%list /\
    Permutation (calls ++ [RmdirSync dirPath]) (removals dirPath (DirNode entries)).
Proof.
  split; [reflexivity|].
  eexists. split; [reflexivity|].
  exact (removeEntry_removals (DirNode entries) dirPath).
Qed.

(** X11: when the names of each directory are distinct and free of
    separators, every call of the removal of [dirPath] names [dirPath] or a
    path below it, and no call that follows the removal of a directory names
    a path below that directory: a directory is empty when [fs.rmdirSync]
    reaches it. *)
Theorem removeDirectory_bottom_up (dirPath : string) (entries : list (string * node)) :
  dirPath <> "" -> dirPath <> "." -> dirPath <> "/" ->
  well_formed (DirNode entries) ->
  exists calls,
    removeDirectory dirPath (Some (DirNode entries)) = Returned calls /\
    Forall (fun c => call_path c = dirPath \/ below dirPath (call_path c)) calls /\
    removed_bottom_up calls.
Proof.
  intros H1 H2 H3 Hwf. eexists. split; [reflexivity|]. split.
  - exact (removeEntry_confined (DirNode entries) dirPath H1 H2 H3).
  - exact (removeEntry_bottom_up (DirNode entries) dirPath H1 H2 H3 Hwf).
Qed.

Lemma removeDirectory_bottom_up_witness :
  exists calls,
    removeDirectory "/tmp/work" (Some (DirNode extracted_entries)) = Returned calls /\
    Forall (fun c => call_path c = "/tmp/work" \/ below "/tmp/work" (call_path c)) calls /\
    removed_bottom_up calls.
Proof.
  apply (removeDirectory_bottom_up "/tmp/work" extracted_entries);
    try discriminate.
  split.
  - repeat constructor; simpl; intuition discriminate.
  - simpl. repeat split; try discriminate; repeat constructor; simpl; intuition discriminate.
Defined.

(** ** The binaries that the platform module reports *)

Lemma find_on_disk (f : string -> bool) (l : list string) (p : string) :
  List.find f l = Some p -> f p = true.
Proof. intros H. apply List.find_some in H. tauto. Qed.

Lemma getFFmpegPath_candidates (h : Platform.Host) (static : string) :
  Platform.ffmpegStatic h = Some static -> static <> "" ->
  Platform.getFFmpegPath h = List.find (Platform.existsSync h) (ffmpegCandidates h static).
Proof.
  intros Hs Hne. unfold Platform.getFFmpegPath, ffmpegCandidates. rewrite Hs.
  cbv [default from_option id]. cbn [Platform.truthy].
  destruct (String.eqb_spec static ""); [contradiction|].
  cbn [negb]. cbn [List.find].
  destruct (Platform.existsSync h (Platform.expectedPath (Platform.platform h) static));
    cbn [negb]; [reflexivity|].
  induction (Platform.getAlternativeFFmpegPaths h (Platform.platform h)) as [|a l IH].
  - cbn [List.find app].
    destruct (Platform.platform h); try reflexivity.
    destruct (Platform.truthy (Platform.WSL_DISTRO_NAME h)); cbn [andb List.find];
      [|reflexivity].
    destruct (Platform.existsSync h _); reflexivity.
  - cbn [List.find app]. destruct (Platform.existsSync h a); [reflexivity | exact IH].
Qed.

Lemma getFFmpegPath_on_disk (h : Platform.Host) (p : string) :
  Platform.getFFmpegPath h = Some p -> Platform.existsSync h p = true.
Proof.
  unfold Platform.getFFmpegPath.
  destruct (Platform.truthy (Platform.ffmpegStatic h)); cbn [negb]; [|discriminate].
  destruct (Platform.existsSync h (Platform.expectedPath _ _)) eqn:E; cbn [negb].
  - intros H. injection H as <-. exact E.
  - destruct (List.find _ _) as [alt|] eqn:F.
    + intros H. injection H as <-. exact (find_on_disk _ _ _ F).
    + destruct (Platform.platform h); try discriminate.
      destruct (Platform.truthy _); cbn [andb]; [|discriminate].
      destruct (Platform.existsSync h (_ ++ ".exe")) eqn:E'; [|discriminate].
      intros H. injection H as <-. exact E'.
Qed.

Lemma getFFprobePath_on_disk (h : Platform.Host) (p q : string) :
  Platform.getFFprobePath h p = Some q -> Platform.existsSync h q = true.
Proof.
  unfold Platform.getFFprobePath.
  destruct (Platform.existsSync h _) eqn:E.
  - intros H. injection H as <-. exact E.
  - destruct (Platform.platform h); try discriminate.
    destruct (Platform.truthy _); cbn [andb]; [|discriminate].
    destruct (Platform.existsSync h (_ ++ ".exe")) eqn:E'; [|discriminate].
    intros H. injection H as <-. exact E'.
Qed.

Lemma substring_split (s : string) :
  forall k, (k <= String.length s)%nat ->
  substring 0 k s ++ substring k (String.length s - k) s = s.
Proof.
  induction s as [|c s IH]; intros [|k] Hk; simpl in Hk |- *; try lia.
  - reflexivity.
  - change ("" ++ String c (substring 0 (String.length s) s)) with
      (String c (substring 0 (String.length s) s)).
    rewrite substring_whole. reflexivity.
  - rewrite append_cons. f_equal. apply IH. lia.
Qed.

Lemma endsWith_inv (s suffix : string) :
  JS.endsWith s suffix = true -> exists stem, s = stem ++ suffix.
Proof.
  unfold JS.endsWith. intros H. apply andb_true_iff in H. destruct H as [Hle Heq].
  apply Nat.leb_le in Hle. apply String.eqb_eq in Heq.
  exists (substring 0 (String.length s - String.length suffix) s).
  rewrite <- Heq at 2.
  rewrite <- (substring_split s (String.length s - String.length suffix)) at 1 by lia.
  do 3 f_equal. lia.
Qed.

Lemma last_char_append (s t : string) :
  t <> "" -> last_char (s ++ t) = last_char t.
Proof.
  intros Ht. induction s as [|c s IH]; [reflexivity|].
  rewrite append_cons. cbn [last_char]. rewrite IH.
  destruct (s ++ t) eqn:E; [|reflexivity].
  destruct s; [|rewrite append_cons in E; discriminate E].
  change ("" ++ t) with t in E. contradiction.
Qed.

Lemma replaceBinaryName_plain (stem : string) :
  Platform.replaceBinaryName (stem ++ "ffmpeg") = stem ++ "ffprobe".
Proof.
  unfold Platform.replaceBinaryName.
  destruct (JS.endsWith (stem ++ "ffmpeg") "ffmpeg.exe") eqn:E.
  - apply endsWith_inv in E. destruct E as [stem' E].
    apply (f_equal last_char) in E. rewrite !last_char_append in E by discriminate.
    discriminate E.
  - rewrite endsWith_append. unfold Platform.dropEnd. rewrite length_append.
    replace (String.length stem + String.length "ffmpeg" - 6)%nat
      with (String.length stem) by (simpl; lia).
    rewrite substring_prefix. reflexivity.
Qed.

Lemma replaceBinaryName_exe (stem : string) :
  Platform.replaceBinaryName (stem ++ "ffmpeg.exe") = stem ++ "ffprobe".
Proof.
  unfold Platform.replaceBinaryName. rewrite endsWith_append.
  unfold Platform.dropEnd. rewrite length_append.
  replace (String.length stem + String.length "ffmpeg.exe" - 10)%nat
    with (String.length stem) by (simpl; lia).
  rewrite substring_prefix. reflexivity.
Qed.

(** X12: [getFFmpegPath] returns the first of its candidates that is on
    disk: the expected path, the three alternatives beside the export of
    [ffmpeg-static], and under WSL the expected path with [.exe]; without
    the export it returns [null].  What it returns is on disk, and on
    Windows the expected path ends with [.exe]. *)
Theorem ffmpeg_is_first_candidate_on_disk (h : Platform.Host) :
  (Platform.truthy (Platform.ffmpegStatic h) = false -> Platform.getFFmpegPath h = None) /\
  (forall static,
     Platform.ffmpegStatic h = Some static -> static <> "" ->
     Platform.getFFmpegPath h =
       List.find (Platform.existsSync h) (ffmpegCandidates h static)) /\
  (forall p, Platform.getFFmpegPath h = Some p -> Platform.existsSync h p = true) /\
  (forall static, JS.endsWith (Platform.expectedPath Platform.win32 static) ".exe" = true).
Proof.
  split; [|split; [|split]].
  - intros H. unfold Platform.getFFmpegPath. rewrite H. reflexivity.
  - exact (getFFmpegPath_candidates h).
  - exact (getFFmpegPath_on_disk h).
  - intros static. cbn [Platform.expectedPath].
    destruct (JS.endsWith static ".exe") eqn:E; [exact E | apply endsWith_append].
Qed.

(** X13: [getFFprobePath] looks beside the encoder: the name [ffmpeg] or
    [ffmpeg.exe] at the end of the path becomes [ffprobe].  What it returns
    is on disk and on Windows ends with [.exe].  A path of the encoder that
    ends with neither name is looked up unchanged, so that off Windows the
    encoder itself is returned as the probe. *)
Theorem ffprobe_is_sought_beside_ffmpeg (h : Platform.Host) :
  (forall stem,
     Platform.replaceBinaryName (stem ++ "ffmpeg") = stem ++ "ffprobe" /\
     Platform.replaceBinaryName (stem ++ "ffmpeg.exe") = stem ++ "ffprobe") /\
  (forall p q,
     Platform.getFFprobePath h p = Some q ->
     Platform.existsSync h q = true /\
     (Platform.platform h = Platform.win32 -> JS.endsWith q ".exe" = true)) /\
  (forall p,
     JS.endsWith p "ffmpeg.exe" = false -> JS.endsWith p "ffmpeg" = false ->
     Platform.platform h <> Platform.win32 ->
     Platform.existsSync h p = true ->
     Platform.getFFprobePath h p = Some p).
Proof.
  split; [|split].
  - intros stem. split; [apply replaceBinaryName_plain | apply replaceBinaryName_exe].
  - intros p q H. split; [exact (getFFprobePath_on_disk h p q H)|].
    intros Hw. revert H. unfold Platform.getFFprobePath. rewrite Hw.
    destruct (JS.endsWith (Platform.replaceBinaryName p) ".exe") eqn:E; cbn [negb].
    + destruct (Platform.existsSync h _); [|discriminate].
      intros H. injection H as <-. exact E.
    + destruct (Platform.existsSync h _); [|discriminate].
      intros H. injection H as <-. apply endsWith_append.
  - intros p E1 E2 Hw Hp. unfold Platform.getFFprobePath, Platform.replaceBinaryName.
    rewrite E1, E2.
    destruct (Platform.platform h); [contradiction| |]; rewrite Hp; reflexivity.
Qed.

(** X14: in the status of [validatePlatformSupport] every binary that is
    reported is on disk and a probe is reported only together with an
    encoder; when the converter module takes the platform as initialized,
    the extractor module does so too, and without Java the converter module
    never does. *)
Theorem platform_status_is_consistent (h : Platform.Host) :
  (forall p, Platform.ffmpeg (Platform.validatePlatformSupport h) = Some p ->
             Platform.existsSync h p = true) /\
  (forall q, Platform.ffprobe (Platform.validatePlatformSupport h) = Some q ->
             Platform.existsSync h q = true /\
             Platform.truthy (Platform.ffmpeg (Platform.validatePlatformSupport h)) = true) /\
  (converter_initializeFFmpeg h = true -> extractor_initializeFFmpeg h = true) /\
  (Platform.javaRuns h = false -> converter_initializeFFmpeg h = false).
Proof.
  unfold converter_initializeFFmpeg, extractor_initializeFFmpeg.
  cbn [Platform.validatePlatformSupport Platform.ffmpeg Platform.ffprobe
       Platform.isFullySupported].
  split; [|split; [|split]].
  - exact (getFFmpegPath_on_disk h).
  - intros q. destruct (Platform.truthy (Platform.getFFmpegPath h)); [|discriminate].
    intros H. split; [exact (getFFprobePath_on_disk h _ q H) | reflexivity].
  - intros H. apply andb_true_iff in H. tauto.
  - intros ->. apply andb_false_r.
Qed.

(** ** The results of a batch *)

Lemma extractTurns (output : option string) (files : list (string * World)) :
  forall r,
  let r' := foldl (extractTurn output) r files in
  successful r' =
    (successful r + length (List.filter (fun job => negb (extraction_fails output job)) files))%nat /\
  failed r' = (failed r + length (List.filter (extraction_fails output) files))%nat /\
  map fst (errors r') =
    (map fst (errors r)
     ++ map (fun job => Path.basename (fst job)) (List.filter (extraction_fails output) files))%list.
Proof.
  induction files as [|job files IH]; intros r.
  - cbn. rewrite !Nat.add_0_r, List.app_nil_r. auto.
  - cbn [foldl]. specialize (IH (extractTurn output r job)).
    cbv zeta in IH |- *. destruct IH as (IH1 & IH2 & IH3).
    rewrite IH1, IH2, IH3. clear IH1 IH2 IH3.
    cbn [List.filter].
    destruct (extraction_fails output job) eqn:E; unfold extraction_fails in E;
      unfold extractTurn;
      destruct (extractSWF _ _ _ _ _).1 as [[]|e]; cbn [is_thrown] in E;
      try discriminate E; cbn [negb successful failed errors length map].
    + rewrite List.map_app, <- List.app_assoc. cbn [map app fst]. repeat split; lia.
    + repeat split; lia.
Qed.

(** X15: with Java, the extract command processes every file that it
    found: the counts of successes and failures add up to the number of
    files, each failure leaves one entry in [errors], in the order of the
    files and under the base name of the file, and [process.exit(1)] is
    called exactly when no file was extracted.  Without Java, or when the
    scan throws, it calls [process.exit(1)] and extracts nothing. *)
Theorem extract_batch_accounting
    (h : Platform.Host) (found : outcome (list (string * World))) (output : option string) :
  (Platform.javaRuns h = false \/ is_thrown found = true ->
   extractCommand h found output = (Some 1, no_results)) /\
  (forall files,
     Platform.javaRuns h = true -> found = Returned files ->
     exists code results,
       extractCommand h found output = (code, results) /\
       (successful results + failed results)%nat = length files /\
       successful results =
         length (List.filter (fun job => negb (extraction_fails output job)) files) /\
       map fst (errors results) =
         map (fun job => Path.basename (fst job))
           (List.filter (extraction_fails output) files) /\
       (code = Some 1 <-> successful results = 0%nat) /\
       (code = None <-> successful results <> 0%nat)).
Proof.
  unfold extractCommand. cbn [Platform.validatePlatformSupport Platform.java].
  split.
  { intros [-> | H]; [reflexivity|].
    destruct (Platform.javaRuns h); cbn [negb]; [|reflexivity].
    destruct found; [discriminate H | reflexivity]. }
  intros files Hjava ->. rewrite Hjava. cbn [negb].
  pose proof (extractTurns output files no_results) as H.
  cbv zeta in H. cbn [no_results successful failed errors map app] in H.
  destruct H as (H1 & H2 & H3).
  change {| successful := 0; failed := 0; errors := [] |} with no_results.
  destruct files as [|job files].
  { cbn [length Nat.eqb]. exists (Some 1), no_results.
    repeat split; try reflexivity; try congruence.
    intros H. contradiction H. }
  cbn [length Nat.eqb].
  set (r := foldl (extractTurn output) no_results (job :: files)) in *.
  assert (Hlen : (successful r + failed r)%nat = length (job :: files)).
  { rewrite H1, H2. cbn [Nat.add].
    clear. induction (job :: files) as [|j l IH]; [reflexivity|].
    cbn [List.filter]. destruct (extraction_fails output j); cbn [negb length]; lia. }
  cbn [length] in Hlen.
  destruct (successful r =? 0)%nat eqn:Es.
  - apply Nat.eqb_eq in Es.
    assert (Hf : (0 <? failed r)%nat = true) by (apply Nat.ltb_lt; lia).
    rewrite Hf. cbn [andb]. exists (Some 1), r.
    repeat split; try assumption; try congruence; try (cbn [length]; lia).
  - apply Nat.eqb_neq in Es. rewrite andb_false_r. exists None, r.
    repeat split; try assumption; try congruence; try (cbn [length]; lia).
Qed.

Example batch_with_one_failure :
  extractCommand linux_host (Returned batch) None =
    (None, {| successful := 1; failed := 1; errors := [("b.swf", noFramesError)] |}).
Proof. vm_compute. reflexivity. Qed.

(** ** The progress bar *)

(** X16: the progress handler writes nothing for a percentage that is
    falsy; for one that rounds to 0..104 it writes a bar of twenty cells, one
    full cell for each five points; for one that rounds to less than 0 or to
    105 and more, [repeat] throws a [RangeError]. *)
Theorem progress_bar_has_twenty_cells :
  onProgress JsNaN = None /\
  forall q,
    (Qeq_bool q 0 = true -> onProgress (JsNum q) = None) /\
    (Qeq_bool q 0 = false -> 0 <= Num.round q < 105 ->
     exists n, (n <= 20)%nat /\ Z.of_nat n = Num.round q / 5 /\
       onProgress (JsNum q) =
         Some (Returned (copies n "█" ++ copies (20 - n) "░", Num.round q))) /\
    (Qeq_bool q 0 = false -> Num.round q < 0 \/ 105 <= Num.round q ->
     exists e, onProgress (JsNum q) = Some (Thrown e)).
Proof.
  split; [reflexivity|]. intros q. unfold onProgress, repeat. cbn [Num.truthy].
  pose proof (Z.div_mod (Num.round q) 5 ltac:(discriminate)) as Hdiv.
  pose proof (Z.mod_pos_bound (Num.round q) 5 eq_refl) as Hmod.
  split; [|split].
  - intros ->. reflexivity.
  - intros -> Hr. cbn [negb].
    destruct (Z.ltb_spec (Num.round q / 5) 0); [lia|].
    destruct (Z.ltb_spec (20 - Num.round q / 5) 0); [lia|].
    exists (Z.to_nat (Num.round q / 5)). split; [lia|]. split; [lia|].
    replace (Z.to_nat (20 - Num.round q / 5)) with (20 - Z.to_nat (Num.round q / 5))%nat
      by lia.
    reflexivity.
  - intros -> Hr. cbn [negb].
    destruct (Z.ltb_spec (Num.round q / 5) 0); [eexists; reflexivity|].
    destruct (Z.ltb_spec (20 - Num.round q / 5) 0); [eexists; reflexivity|].
    lia.
Qed.

(** ** The output directory of a file of the batch *)

Lemma after_last_slash_slash_free (s : string) :
  slash_free s -> forall acc, Path.after_last_slash acc s = acc.
Proof.
  induction s as [|c s IH]; intros Hs acc; [reflexivity|].
  destruct Hs as [Hc Hs]. cbn [Path.after_last_slash].
  destruct (Ascii.eqb_spec c "/"); [contradiction|]. exact (IH Hs acc).
Qed.

Lemma slash_free_append (s t : string) :
  slash_free s -> slash_free t -> slash_free (s ++ t).
Proof.
  intros Hs Ht. induction s as [|c s IH]; [exact Ht|].
  rewrite append_cons. destruct Hs as [Hc Hs]. split; [exact Hc | exact (IH Hs)].
Qed.

Lemma basename_of_entry (d name : string) :
  slash_free name -> Path.basename (d ++ "/" ++ name) = name.
Proof.
  intros Hn. unfold Path.basename. rewrite after_last_slash_append.
  apply after_last_slash_slash_free. exact Hn.
Qed.

Lemma dirname_of_entry (d name : string) :
  d <> "" -> slash_free name -> Path.dirname (d ++ "/" ++ name) = d.
Proof.
  intros Hd Hn. unfold Path.dirname. rewrite basename_of_entry by exact Hn.
  rewrite !length_append.
  replace (String.length d + (String.length "/" + String.length name) - String.length name)%nat
    with (S (String.length d)) by (simpl; lia).
  destruct d as [|c d]; [contradiction|]. cbn [String.length].
  change (S (String.length d)) with (String.length (String c d)).
  apply substring_prefix.
Qed.

(** X17: for a file [stem.swf] in the directory [d], the extract command
    writes to [d/stem-output], or with [--output out] to [out/stem] whatever
    [d] is, so that files of one name from two directories share a
    directory.  The extension is removed only in lower case: a file
    [stem.SWF], which the scan accepts, is written to [d/stem.SWF-output]. *)
Theorem output_directory_of_a_file (d stem out : string) :
  d <> "" -> d <> "." -> d <> "/" -> slash_free stem -> stem <> "" ->
  extractOutputDir None (d ++ "/" ++ stem ++ ".swf") = d ++ "/" ++ stem ++ "-output" /\
  (out <> "" ->
   extractOutputDir (Some out) (d ++ "/" ++ stem ++ ".swf") = Path.join out stem) /\
  extractOutputDir None (d ++ "/" ++ stem ++ ".SWF") = d ++ "/" ++ stem ++ ".SWF-output".
Proof.
  intros H1 H2 H3 Hstem Hne.
  assert (Hlower : slash_free (stem ++ ".swf")).
  { apply slash_free_append; [exact Hstem|]. simpl. intuition discriminate. }
  assert (Hupper : slash_free (stem ++ ".SWF")).
  { apply slash_free_append; [exact Hstem|]. simpl. intuition discriminate. }
  assert (Hbase : basenameWithout (d ++ "/" ++ stem ++ ".swf") ".swf" = stem).
  { unfold basenameWithout. rewrite basename_of_entry by exact Hlower.
    rewrite endsWith_append.
    destruct (String.eqb_spec (stem ++ ".swf") ".swf") as [E|_].
    - apply (f_equal String.length) in E. rewrite length_append in E. simpl in E.
      destruct stem; [contradiction | simpl in E; lia].
    - cbn [negb andb]. rewrite length_append.
      replace (String.length stem + String.length ".swf" - String.length ".swf")%nat
        with (String.length stem) by lia.
      apply substring_prefix. }
  assert (Hkeep : basenameWithout (d ++ "/" ++ stem ++ ".SWF") ".swf" = stem ++ ".SWF").
  { unfold basenameWithout. rewrite basename_of_entry by exact Hupper.
    destruct (JS.endsWith (stem ++ ".SWF") ".swf") eqn:E; [|reflexivity].
    apply endsWith_inv in E. destruct E as [stem' E].
    apply (f_equal last_char) in E. rewrite !last_char_append in E by discriminate.
    discriminate E. }
  unfold extractOutputDir. cbn [Platform.truthy].
  rewrite Hbase, Hkeep, !dirname_of_entry by assumption.
  split; [|split].
  - rewrite join_proper by assumption. reflexivity.
  - intros Hout. destruct (String.eqb_spec out ""); [contradiction|]. reflexivity.
  - rewrite join_proper by assumption. rewrite append_assoc. reflexivity.
Qed.

Lemma output_directory_of_a_file_witness :
  extractOutputDir None ("/videos" ++ "/" ++ "intro" ++ ".swf") =
    "/videos" ++ "/" ++ "intro" ++ "-output" /\
  ("out" <> "" ->
   extractOutputDir (Some "out") ("/videos" ++ "/" ++ "intro" ++ ".swf") =
     Path.join "out" "intro") /\
  extractOutputDir None ("/videos" ++ "/" ++ "intro" ++ ".SWF") =
    "/videos" ++ "/" ++ "intro" ++ ".SWF-output".
Proof.
  apply (output_directory_of_a_file "/videos" "intro" "out"); try discriminate.
  simpl. intuition discriminate.
Defined.
